(** * CereFlow backend: the facility discovery and ranking pipeline

    A shallow embedding of the search route of the CereFlow backend
    (an Express router written in JavaScript) and the properties its
    specification states about it.

    The route exists in several near-identical copies in the repository.
    The embedding follows the most recent one, [src/unnamed/part_000] (the
    router that carries the service-specific overrides and the
    [/search/sort] endpoint), called the current router below.  Where
    another copy differs in a way that matters, its form is embedded next
    to it under its own name: [...Older] for the running server,
    [src/server.js], [...Intermediate] for the router of
    [src/unnamed/part_001], which lies between the two, and
    [removeDuplicatesByFields] and [getExtendedLocationBias] for the oldest
    router, [src/unnamed/part_002].

    Beside the pipeline the file embeds what stands around it in the same
    sources: the queries sent to the place search and the collection of
    their answers, the handler of [POST /search], the enrichment of the
    running server, the location bias of the oldest router, and the first
    design of the server with its validation middleware, its cache service
    and its cached search.

    Conventions of the embedding.
    - A JavaScript string is a [string]; [toLowerCase] lowers the ASCII
      letters and leaves every other character alone.
    - An optional property ([facility.displayName?.text], [place.location],
      ...) is an [option]; [None] stands for a property that is absent
      ([undefined]).  The place search and the geocoder leave out what they
      have no value for and send no [null].  In the parsed completion a
      [null] may stand where an object or a string is expected; the code
      only tests such a value for truthiness, and [None] stands for it too.
    - Coordinates and ratings are IEEE doubles ([float]); they are carried
      along, and a rating is only tested for being zero or NaN.
    - [calculateDistance] is embedded twice.  Module [Haversine] has it as
      it is written, in double arithmetic over the engine's [Math.sin],
      [Math.cos], [Math.atan2] and [Math.round].  Its result is
      [Math.round(d * 10) / 10], or NaN when the formula leaves the domain
      of the square root.  The pipeline carries this result as a [Rounded]:
      the integer [Math.round(d * 10)], the distance in tenths of a unit,
      or [NaN].  So [x <= 31] reads [tenths <= 310], the sign of [a - b] is
      the sign of the difference of the tenths, and NaN is falsy, compares
      [false] with everything and makes every difference NaN.
    - The awaited calls (geocoding, place search, chat completion) are
      inputs of the functions that follow them. *)

From Stdlib Require Import ZArith List Bool Ascii String Lia Floats.
From Stdlib Require Import Sorting.Sorted Permutation.
From stdpp Require Import base list strings gmap sets sorting.

#[local] Open Scope Z_scope.
#[local] Open Scope string_scope.

(** ** JavaScript primitives used by the router *)

Module JS.

(** [String.prototype.toLowerCase], on the ASCII letters. *)
Definition lowerChar (c : ascii) : ascii :=
  let n := nat_of_ascii c in
  if ((65 <=? n)%nat && (n <=? 90)%nat)%bool then ascii_of_nat (n + 32) else c.

Fixpoint toLowerCase (s : string) : string :=
  match s with
  | EmptyString => EmptyString
  | String c r => String (lowerChar c) (toLowerCase r)
  end.

(** [s.includes(sub)]: [sub] occurs in [s] as a contiguous substring. *)
Fixpoint includes (s sub : string) : bool :=
  String.prefix sub s
  || match s with
     | EmptyString => false
     | String _ r => includes r sub
     end.

(** [arr.join(sep)]. *)
Fixpoint join (sep : string) (l : list string) : string :=
  match l with
  | [] => ""
  | [x] => x
  | x :: r => x ++ sep ++ join sep r
  end.

(** [arr.includes(x)] on an array of strings. *)
Definition arrayIncludes (l : list string) (x : string) : bool :=
  existsb (String.eqb x) l.

(** A template literal prints an absent value as the word [undefined]. *)
Definition template (o : option string) : string :=
  match o with
  | Some s => s
  | None => "undefined"
  end.

(** [o || d] for an optional string: the empty string is falsy too. *)
Definition orElse (o : option string) (d : string) : string :=
  match o with
  | Some EmptyString | None => d
  | Some s => s
  end.

(** Truthiness of an optional string. *)
Definition truthy (o : option string) : bool :=
  match o with
  | Some EmptyString | None => false
  | Some _ => true
  end.

(** [arr.findIndex(p)], with [-1] when no element satisfies [p]. *)
Fixpoint findIndexFrom {A : Type} (i : Z) (p : A -> bool) (l : list A) : Z :=
  match l with
  | [] => -1
  | x :: r => if p x then i else findIndexFrom (i + 1) p r
  end.

Definition findIndex {A : Type} (p : A -> bool) (l : list A) : Z :=
  findIndexFrom 0 p l.

(** [arr.filter((x, index) => p(x, index))]. *)
Fixpoint filterWithIndexFrom {A : Type} (i : Z) (p : A -> Z -> bool) (l : list A)
  : list A :=
  match l with
  | [] => []
  | x :: r =>
      if p x i then x :: filterWithIndexFrom (i + 1) p r
      else filterWithIndexFrom (i + 1) p r
  end.

Definition filterWithIndex {A : Type} (p : A -> Z -> bool) (l : list A) : list A :=
  filterWithIndexFrom 0 p l.

(** [Array.prototype.sort(comparefn)].

    ECMAScript asks for a stable sort and fixes the result only when
    [comparefn] is a consistent comparator for the elements of the array;
    otherwise the order is left to the engine.  [sort] is the stable sort,
    written as insertion from the left: each element in turn moves towards
    the front past the elements that [comparefn] puts strictly after it.
    On a consistent comparator every conforming engine returns this array.
    The comparators of this router return 0 when a distance is missing and
    are then not consistent; on such an array an engine may return another
    order than [sort] does, and the statements below that speak of the order
    of facilities with and without a distance are kept to the arrays on
    which the comparator is consistent.

    [insertSorted] works on the already sorted prefix held back to front,
    so that its head is the element next to the one being inserted. *)
Section Sort.
Context {A : Type} (comparefn : A -> A -> Z).

Fixpoint insertSorted (x : A) (prefixRev : list A) : list A :=
  match prefixRev with
  | [] => [x]
  | y :: r => if (0 <? comparefn y x)%Z then y :: insertSorted x r else x :: prefixRev
  end.

Definition sortRev (l : list A) : list A :=
  fold_left (fun prefixRev x => insertSorted x prefixRev) l [].

Definition sort (l : list A) : list A := reverse (sortRev l).

(** [a] may stand right before [b]: the comparator does not ask for [b]
    first. *)
Definition inOrder (a b : A) : Prop := comparefn a b <= 0.

End Sort.

End JS.

(** ** The engine's sort on a short array

    The procedure by which the engine of node, from version 11 on, carries
    out [Array.prototype.sort] on an array of fewer than 64 elements
    ([ArrayTimSortImpl], whose minimal run length is then the length of the
    array): the run at the start of the array is found, and reversed if it
    is descending; each further element is then put in its place by a binary
    search.  The value of the comparator is read as by [JS.sort].  An array
    of 64 elements or more is cut into several runs that are then merged;
    that part of the procedure is not embedded.  The embedding has this
    procedure beside [JS.sort] for the arrays on which the comparator is not
    consistent. *)

Module V8.

Section Sort.
Context {A : Type} (comparefn : A -> A -> Z).

(** The loop of [CountAndMakeRun]: how many of the elements after
    [previousElement] continue the run. *)
Fixpoint runLength (isDescending : bool) (previousElement : A) (rest : list A) : nat :=
  match rest with
  | [] => 0
  | currentElement :: rest' =>
      let order := comparefn currentElement previousElement in
      if (if isDescending then (0 <=? order)%Z else (order <? 0)%Z) then 0%nat
      else S (runLength isDescending currentElement rest')
  end.

(** [CountAndMakeRun] at the start of the array: the run, reversed when it
    is descending, and the elements after it. *)
Definition countAndMakeRun (workArray : list A) : list A * list A :=
  match workArray with
  | first :: second :: rest =>
      let order := comparefn second first in
      let isDescending := (order <? 0)%Z in
      let further := runLength isDescending second rest in
      let run := first :: second :: take further rest in
      (if isDescending then reverse run else run, drop further rest)
  | _ => (workArray, [])
  end.

(** The search of [BinaryInsertionSort] for the place of [pivot] in the
    sorted part: [while (left < right)], which halves [right - left] and so
    ends within [steps] rounds when [right - left <= steps]. *)
Fixpoint insertionPoint (steps : nat) (sorted : list A) (pivot : A) (left right : nat)
  : nat :=
  match steps with
  | O => left
  | S steps' =>
      if (left <? right)%nat then
        let mid := (left + (right - left) / 2)%nat in
        match sorted !! mid with
        | Some element =>
            if (comparefn pivot element <? 0)%Z
            then insertionPoint steps' sorted pivot left mid
            else insertionPoint steps' sorted pivot (mid + 1) right
        | None => left
        end
      else left
  end.

(** One round of [BinaryInsertionSort]: the elements from [left] on move up
    by one and [pivot] goes to [left]. *)
Definition insertPivot (sorted : list A) (pivot : A) : list A :=
  let left := insertionPoint (length sorted) sorted pivot 0 (length sorted) in
  (take left sorted ++ pivot :: drop left sorted)%list.

Definition binaryInsertionSort (run rest : list A) : list A :=
  fold_left insertPivot rest run.

(** [ArrayTimSortImpl] on an array of fewer than 64 elements. *)
Definition sortShort (workArray : list A) : list A :=
  let (run, rest) := countAndMakeRun workArray in
  binaryInsertionSort run rest.

(** The test by which a run goes on: the comparator does not put the later
    element strictly before the earlier one. *)
Definition continues (previousElement currentElement : A) : Prop :=
  0 <= comparefn currentElement previousElement.

End Sort.

End V8.

(** ** Data model *)

(** [place.location] of a place-search result. *)
Record LatLng := { latitude : float; longitude : float }.

(** The geocoded position of the user, [getLocationCoordinates]'s result. *)
Record GeoPoint := { lat : float; lng : float; country : string }.

(** What [calculateDistance] returns: [Tenths n] is the number
    [Math.round(d * 10) / 10] with [n = Math.round(d * 10)]. *)
Inductive Rounded :=
| Tenths (tenths : Z)
| NaN.

(** [{ km, miles }] *)
Record Distance := { km : Rounded; miles : Rounded }.

Inductive DistanceUnit := UnitKm | UnitMiles.

(** One entry of [response.data.places]. [displayName] is
    [displayName?.text]. *)
Record Place := {
  displayName : option string;
  formattedAddress : option string;
  internationalPhoneNumber : option string;
  websiteUri : option string;
  rating : option float;
  userRatingCount : option Z;
  types : option (list string);
  businessStatus : option string;
  location : option LatLng
}.

Record MapLinks := { driving : string; general : string }.

Record Directions := { google : MapLinks; apple : MapLinks }.

(** [{ ...place, distance, directions }]. *)
Record Facility := {
  place : Place;
  distance : option Distance;
  directions : option Directions
}.

(** [facility.displayName?.text?.toLowerCase() || ''] *)
Definition lowerName (p : Place) : string :=
  match displayName p with
  | Some text => JS.toLowerCase text
  | None => ""
  end.

(** [(facility.types || []).join(' ').toLowerCase()] *)
Definition lowerTypes (p : Place) : string :=
  JS.toLowerCase (JS.join " " (default [] (types p))).

(** ** Relevance filter: [filterFacilitiesByServiceType] *)

Definition isVeterinary (name typesStr : string) : bool :=
  JS.includes name "pet" || JS.includes name "veterinary"
  || JS.includes name "animal" || JS.includes typesStr "veterinary"
  || JS.includes name "vet ".

Definition isEmergencyRelevant (name typesStr : string) : bool :=
  JS.includes name "hospital" || JS.includes name "emergency"
  || JS.includes name "medical center" || JS.includes name "trauma"
  || JS.includes name "stroke center" || JS.includes typesStr "hospital"
  || JS.includes typesStr "emergency" || JS.includes name "urgent care".

Definition isRehabRelevant (name typesStr : string) : bool :=
  JS.includes name "rehabilitation" || JS.includes name "rehab"
  || JS.includes name "recovery" || JS.includes name "therapy"
  || JS.includes name "physical therapy" || JS.includes name "speech"
  || JS.includes name "occupational" || JS.includes typesStr "physiotherapist"
  || JS.includes typesStr "rehabilitation".

Definition isSpeechRelevant (name typesStr : string) : bool :=
  JS.includes name "speech" || JS.includes name "language"
  || JS.includes name "communication" || JS.includes typesStr "speech".

Definition isPhysicalRelevant (name typesStr : string) : bool :=
  JS.includes name "physical therapy" || JS.includes name "physiotherapy"
  || JS.includes name "physical rehab" || JS.includes typesStr "physiotherapist".

Definition isOccupationalRelevant (name typesStr : string) : bool :=
  JS.includes name "occupational" || JS.includes name "occupational therapy"
  || JS.includes typesStr "occupational".

Definition isSupportRelevant (name typesStr : string) : bool :=
  JS.includes name "support" || JS.includes name "community"
  || JS.includes name "group" || JS.includes name "center"
  || JS.includes name "association" || JS.includes typesStr "community_center".

Definition isMajorMedical (name typesStr : string) : bool :=
  JS.includes name "hospital" || JS.includes name "medical center"
  || JS.includes typesStr "hospital".

(** The callback of [facilities.filter]: the exclusion comes first, then one
    rule per requested need type in a fixed order, then the major-medical
    safety net. *)
Definition keepFacility (needTypes : list string) (facility : Place) : bool :=
  let name := lowerName facility in
  let typesStr := lowerTypes facility in
  if isVeterinary name typesStr then false
  else if JS.arrayIncludes needTypes "emergency"
          && isEmergencyRelevant name typesStr then true
  else if JS.arrayIncludes needTypes "rehabilitation"
          && isRehabRelevant name typesStr then true
  else if JS.arrayIncludes needTypes "speech-therapy"
          && isSpeechRelevant name typesStr then true
  else if JS.arrayIncludes needTypes "physical-therapy"
          && isPhysicalRelevant name typesStr then true
  else if JS.arrayIncludes needTypes "occupational-therapy"
          && isOccupationalRelevant name typesStr then true
  else if JS.arrayIncludes needTypes "support-groups"
          && isSupportRelevant name typesStr then true
  else if isMajorMedical name typesStr then true
  else false.

Definition filterFacilitiesByServiceType
  (facilities : list Place) (needTypes : list string) : list Place :=
  List.filter (keepFacility needTypes) facilities.

(** ** Deduplication in [getRealFacilities] *)

(** [`${facility.displayName?.text}-${facility.formattedAddress}`] *)
Definition placeId (facility : Place) : string :=
  JS.template (displayName facility) ++ "-" ++ JS.template (formattedAddress facility).

(** The loop over [allFacilities] with the [seenPlaces] set; the result is
    [uniqueFacilities] in the order of the pushes. *)
Fixpoint removeDuplicatesFrom (seenPlaces : gset string) (allFacilities : list Place)
  : list Place :=
  match allFacilities with
  | [] => []
  | facility :: rest =>
      if decide (placeId facility ∈ seenPlaces)
      then removeDuplicatesFrom seenPlaces rest
      else facility :: removeDuplicatesFrom ({[ placeId facility ]} ∪ seenPlaces) rest
  end.

Definition removeDuplicates (allFacilities : list Place) : list Place :=
  removeDuplicatesFrom ∅ allFacilities.

(** The oldest copy of the router compares the two fields instead:
    [allFacilities.filter((facility, index, self) =>
       index === self.findIndex(f => f.displayName?.text === facility.displayName?.text
                                     && f.formattedAddress === facility.formattedAddress))]. *)
Definition sameNameAndAddress (facility f : Place) : bool :=
  bool_decide (displayName f = displayName facility)
  && bool_decide (formattedAddress f = formattedAddress facility).

Definition removeDuplicatesByFields (allFacilities : list Place) : list Place :=
  JS.filterWithIndex
    (fun facility index =>
       (index =? JS.findIndex (sameNameAndAddress facility) allFacilities)%Z)
    allFacilities.

(** ** The distance between two points: [calculateDistance]

    The function as it is written.  [+], [-], [*], [/] and [Math.sqrt] are
    the IEEE operations on doubles; [Math.sin], [Math.cos], [Math.atan2] and
    [Math.round] are the engine's and stay parameters.  [==] on two numbers
    is [PrimFloat.eqb]. *)

Module Haversine.

Section Math.

#[local] Open Scope float_scope.

Variables sin cos round : float -> float.
Variable atan2 : float -> float -> float.

(** [Math.PI] *)
Definition PI : float := 0x1.921fb54442d18p+1.

Definition toRadians (degrees : float) : float := degrees * (PI / 180).

(** [const a], the haversine of the central angle. *)
Definition a (lat1 lon1 lat2 lon2 : float) : float :=
  let dLat := toRadians (lat2 - lat1) in
  let dLon := toRadians (lon2 - lon1) in
  sin (dLat / 2) * sin (dLat / 2)
  + cos (toRadians lat1) * cos (toRadians lat2) * sin (dLon / 2) * sin (dLon / 2).

Definition calculateDistance (lat1 lon1 lat2 lon2 : float) (unit : DistanceUnit) : float :=
  let R := match unit with UnitMiles => 3959 | UnitKm => 6371 end in
  let a := a lat1 lon1 lat2 lon2 in
  let c := 2 * atan2 (PrimFloat.sqrt a) (PrimFloat.sqrt (1 - a)) in
  let distance := R * c in
  round (distance * 10) / 10.

End Math.

End Haversine.

(** ** Distance and directions attached to a place *)

Section Details.

(** What the pipeline does not compute: percent-encoding, the printing of
    a number inside a template literal, and the distance, which it carries
    as a [Rounded]. *)
Variable encodeURIComponent : string -> string.
Variable numberToString : float -> string.
Variable calculateDistance : float -> float -> float -> float -> DistanceUnit -> Rounded.

Definition generateDirectionsUrls
  (facilityAddress facilityName userLocation : string) (facilityCoords : option LatLng)
  : Directions :=
  let origin := encodeURIComponent userLocation in
  let destination := encodeURIComponent facilityAddress in
  let googleMaps :=
    {| driving := "https://www.google.com/maps/dir/" ++ origin ++ "/" ++ destination;
       general := "https://www.google.com/maps/search/" ++ destination |} in
  let appleMaps :=
    match facilityCoords with
    | Some c =>
        let latitude := numberToString (latitude c) in
        let longitude := numberToString (longitude c) in
        {| driving := "https://maps.apple.com/?daddr=" ++ latitude ++ "," ++ longitude
                      ++ "&dirflg=d";
           general := "https://maps.apple.com/?ll=" ++ latitude ++ "," ++ longitude
                      ++ "&q=" ++ encodeURIComponent facilityName |}
    | None =>
        {| driving := "https://maps.apple.com/?daddr=" ++ destination ++ "&dirflg=d";
           general := "https://maps.apple.com/?q=" ++ destination |}
    end in
  {| google := googleMaps; apple := appleMaps |}.

(** [place.location], read before the parameter [location] (the text the
    user typed) hides the field's name. *)
Definition locationOf (place : Place) : option LatLng := location place.

(** The callback of [filteredFacilities.map] in [getRealFacilities]. *)
Definition addDetails (location : string) (userCoords : option GeoPoint) (place : Place)
  : Facility :=
  let facilityCoords := locationOf place in
  let distance :=
    match userCoords, facilityCoords with
    | Some u, Some c =>
        Some {| km := calculateDistance (lat u) (lng u) (latitude c) (longitude c) UnitKm;
                miles := calculateDistance (lat u) (lng u) (latitude c) (longitude c)
                           UnitMiles |}
    | _, _ => None
    end in
  let directions :=
    if JS.truthy (formattedAddress place)
    then Some (generateDirectionsUrls
                 (JS.orElse (formattedAddress place) "")
                 (JS.orElse (displayName place) "Medical Facility")
                 location facilityCoords)
    else None in
  {| place := place; distance := distance; directions := directions |}.

End Details.

(** ** Scoring and ranking in [getRealFacilities] *)

(** [aIsHospital], [bIsHospital]: the points for a hospital. *)
Definition hospitalPoints (name : string) : Z :=
  if (JS.includes name "hospital" || JS.includes name "medical center")
     && negb (JS.includes name "urgent")
     && negb (JS.includes name "eye")
     && negb (JS.includes name "dental")
     && negb (JS.includes name "skin")
     && negb (JS.includes name "ent")
  then 8 else 0.

(** The priority score the comparator computes for each of its two
    arguments when [emergency] is requested ([aScore], [bScore]). *)
Definition emergencyScore (name : string) : Z :=
  let isStrokeCenter := if JS.includes name "stroke" then 10 else 0 in
  let isHospital := hospitalPoints name in
  let isEmergency :=
    if JS.includes name "emergency" && negb (JS.includes name "urgent") then 6 else 0 in
  let isTrauma := if JS.includes name "trauma" then 7 else 0 in
  let isUrgentCare := if JS.includes name "urgent" then 3 else 0 in
  isStrokeCenter + isHospital + isEmergency + isTrauma + isUrgentCare.

(** The older copies of the router give the points for a hospital without
    looking at the specialty words. *)
Definition hospitalPointsOlder (name : string) : Z :=
  if (JS.includes name "hospital" || JS.includes name "medical center")
     && negb (JS.includes name "urgent")
  then 8 else 0.

Definition emergencyScoreOlder (name : string) : Z :=
  let isStrokeCenter := if JS.includes name "stroke" then 10 else 0 in
  let isHospital := hospitalPointsOlder name in
  let isEmergency :=
    if JS.includes name "emergency" && negb (JS.includes name "urgent") then 6 else 0 in
  let isTrauma := if JS.includes name "trauma" then 7 else 0 in
  let isUrgentCare := if JS.includes name "urgent" then 3 else 0 in
  isStrokeCenter + isHospital + isEmergency + isTrauma + isUrgentCare.

(** [x - y] on two distances, as the sort reads the value of its
    comparator: the difference of the tenths, which has the sign of the
    difference, and [+0] where the difference is NaN. *)
Definition difference (x y : Rounded) : Z :=
  match x, y with
  | Tenths n, Tenths m => n - m
  | _, _ => 0
  end.

(** [if (a.distance && b.distance) return a.distance.miles - b.distance.miles;
     return 0;] *)
Definition compareDistance (a b : option Distance) : Z :=
  match a, b with
  | Some da, Some db => difference (miles da) (miles db)
  | _, _ => 0
  end.

(** The comparator handed to [facilitiesWithDetails.sort]. *)
Definition compareFacilities (needTypes : list string) (a b : Facility) : Z :=
  let aName := lowerName (place a) in
  let bName := lowerName (place b) in
  if JS.arrayIncludes needTypes "emergency" then
    let aScore := emergencyScore aName in
    let bScore := emergencyScore bName in
    if negb (aScore =? bScore)%Z then bScore - aScore
    else compareDistance (distance a) (distance b)
  else compareDistance (distance a) (distance b).

(** The comparator of [src/server.js] and of the intermediate router: the
    same, with the points for a hospital of those copies. *)
Definition compareFacilitiesOlder (needTypes : list string) (a b : Facility) : Z :=
  let aName := lowerName (place a) in
  let bName := lowerName (place b) in
  if JS.arrayIncludes needTypes "emergency" then
    let aScore := emergencyScoreOlder aName in
    let bScore := emergencyScoreOlder bName in
    if negb (aScore =? bScore)%Z then bScore - aScore
    else compareDistance (distance a) (distance b)
  else compareDistance (distance a) (distance b).

(** [needTypes.includes('support-groups') ? 50 : 31], in miles. *)
Definition maxDistance (needTypes : list string) : Z :=
  if JS.arrayIncludes needTypes "support-groups" then 50 else 31.

(** Truthiness of a number: zero and NaN are falsy. *)
Definition truthyNumber (x : Rounded) : bool :=
  match x with
  | Tenths n => negb (n =? 0)%Z
  | NaN => false
  end.

(** [x <= maxMiles]; a comparison with NaN is false. *)
Definition atMost (x : Rounded) (maxMiles : Z) : bool :=
  match x with
  | Tenths n => (n <=? 10 * maxMiles)%Z
  | NaN => false
  end.

(** The callback of the last [filter]:
    [if (facility.distance && facility.distance.miles)
       return facility.distance.miles <= maxDistance;
     return true;] *)
Definition withinMaxDistance (maxMiles : Z) (facility : Facility) : bool :=
  match distance facility with
  | Some d => if truthyNumber (miles d) then atMost (miles d) maxMiles else true
  | None => true
  end.

(** Sorting and the radius cut, on facilities that carry their details. *)
Definition rankFacilities (needTypes : list string) (facilitiesWithDetails : list Facility)
  : list Facility :=
  let sortedFacilities := JS.sort (compareFacilities needTypes) facilitiesWithDetails in
  List.filter (withinMaxDistance (maxDistance needTypes)) sortedFacilities.

(** The same two steps in [src/server.js]. *)
Definition rankFacilitiesOlder (needTypes : list string)
  (facilitiesWithDetails : list Facility) : list Facility :=
  let sortedFacilities := JS.sort (compareFacilitiesOlder needTypes) facilitiesWithDetails in
  List.filter (withinMaxDistance (maxDistance needTypes)) sortedFacilities.

Section GetRealFacilities.

Variable encodeURIComponent : string -> string.
Variable numberToString : float -> string.
Variable calculateDistance : float -> float -> float -> float -> DistanceUnit -> Rounded.

(** [getRealFacilities(location, needTypes)] after its awaited calls:
    [userCoords] is the geocoder's answer and [allFacilities] the places
    collected from the queries, in the order they were pushed. *)
Definition getRealFacilities
  (location : string) (needTypes : list string)
  (userCoords : option GeoPoint) (allFacilities : list Place) : list Facility :=
  let uniqueFacilities := removeDuplicates allFacilities in
  let filteredFacilities := filterFacilitiesByServiceType uniqueFacilities needTypes in
  let facilitiesWithDetails :=
    map (addDetails encodeURIComponent numberToString calculateDistance
           location userCoords)
      filteredFacilities in
  rankFacilities needTypes facilitiesWithDetails.

(** [getRealFacilities] of [src/server.js]: the same function but for the
    points for a hospital in its comparator. *)
Definition getRealFacilitiesOlder
  (location : string) (needTypes : list string)
  (userCoords : option GeoPoint) (allFacilities : list Place) : list Facility :=
  let uniqueFacilities := removeDuplicates allFacilities in
  let filteredFacilities := filterFacilitiesByServiceType uniqueFacilities needTypes in
  let facilitiesWithDetails :=
    map (addDetails encodeURIComponent numberToString calculateDistance
           location userCoords)
      filteredFacilities in
  rankFacilitiesOlder needTypes facilitiesWithDetails.

End GetRealFacilities.

(** ** Enrichment: [enhanceWithChatGPT] *)

(** What an object may carry under the names of the properties that the
    response takes from the place: [name], [address], [phone], [website],
    [rating], [userRatingCount], [distance], [directions] and [types],
    each taken to be of the type of the property it replaces.  A property
    the object does not have is [None]; [distance: null] and
    [directions: null] are [Some None]. *)
Record PlaceKeys := {
  keyName : option string;
  keyAddress : option string;
  keyPhone : option string;
  keyWebsite : option string;
  keyRating : option (float + string);
  keyUserRatingCount : option Z;
  keyDistance : option (option Distance);
  keyDirections : option (option Directions);
  keyTypes : option (list string)
}.

Definition noPlaceKeys : PlaceKeys :=
  {| keyName := None; keyAddress := None; keyPhone := None; keyWebsite := None;
     keyRating := None; keyUserRatingCount := None; keyDistance := None;
     keyDirections := None; keyTypes := None |}.

(** The insight fields of one facility.  A field the chat completion left
    out of its object is [None].  An object of the completion is whatever
    the model wrote, and may have properties beside the six: [placeKeys]
    holds those that the response has a property for, which the spread
    [...aiInsights] then replaces.  The objects the code builds itself have
    none. *)
Record Insights := {
  medical_relevance : option string;
  language_support : option string;
  language_note : option string;
  service_match : option string;
  specialty_note : option string;
  facility_type : option string;
  placeKeys : PlaceKeys
}.

(** [aiAnalysis.patterns] *)
Record Patterns := {
  hospital_language_support : option string;
  urgent_care_language_support : option string;
  clinic_language_support : option string;
  general_language_note : option string
}.

(** The parsed completion: [analysisFacilities] is [aiAnalysis.facilities]
    (an entry [None] is a [null]), [analysisPatterns] is
    [aiAnalysis.patterns]. *)
Record AIAnalysis := {
  analysisFacilities : option (list (option Insights));
  analysisPatterns : option Patterns
}.

Definition mkInsights (relevance support note serviceMatch specialty kind : string)
  : Insights :=
  {| medical_relevance := Some relevance;
     language_support := Some support;
     language_note := Some note;
     service_match := Some serviceMatch;
     specialty_note := Some specialty;
     facility_type := Some kind;
     placeKeys := noPlaceKeys |}.

(** The three assignments [insights.medical_relevance = ...;
    insights.specialty_note = ...; insights.service_match = ...]. *)
Definition rate (relevance specialty serviceMatch : string) (insights : Insights)
  : Insights :=
  {| medical_relevance := Some relevance;
     language_support := language_support insights;
     language_note := language_note insights;
     service_match := Some serviceMatch;
     specialty_note := Some specialty;
     facility_type := facility_type insights;
     placeKeys := placeKeys insights |}.

Definition setLanguageSupport (support : option string) (insights : Insights) : Insights :=
  {| medical_relevance := medical_relevance insights;
     language_support := support;
     language_note := language_note insights;
     service_match := service_match insights;
     specialty_note := specialty_note insights;
     facility_type := facility_type insights;
     placeKeys := placeKeys insights |}.

Definition setLanguageNote (note : option string) (insights : Insights) : Insights :=
  {| medical_relevance := medical_relevance insights;
     language_support := language_support insights;
     language_note := note;
     service_match := service_match insights;
     specialty_note := specialty_note insights;
     facility_type := facility_type insights;
     placeKeys := placeKeys insights |}.

Definition getFacilityType (facility : Place) : string :=
  let name := lowerName facility in
  let typesStr := lowerTypes facility in
  if JS.includes name "hospital" || JS.includes typesStr "hospital" then "hospital"
  else if JS.includes name "urgent care" || JS.includes name "urgent" then "urgent_care"
  else if JS.includes name "clinic" || JS.includes typesStr "clinic" then "clinic"
  else if JS.includes name "center"
          && (JS.includes name "stroke" || JS.includes name "heart"
              || JS.includes name "neuro") then "specialty_center"
  else "other".

Definition specialtyOverride (specialty : string) : Insights :=
  mkInsights "Low" "Unknown" "Language support not assessed" "Poor" specialty
    "specialty_hospital".

(** Any of the four therapy need types. *)
Definition wantsTherapy (needTypes : list string) : bool :=
  JS.arrayIncludes needTypes "rehabilitation"
  || JS.arrayIncludes needTypes "speech-therapy"
  || JS.arrayIncludes needTypes "physical-therapy"
  || JS.arrayIncludes needTypes "occupational-therapy".

(** The service-specific manual override at the head of [applyAIInsights]:
    [Some] record when one of the three [return]s is taken. *)
Definition manualOverride (needTypes : list string) (name : string) : option Insights :=
  if JS.arrayIncludes needTypes "emergency"
     && (JS.includes name "eye" || JS.includes name "dental" || JS.includes name "skin"
         || JS.includes name "ent" || JS.includes name "dermat"
         || JS.includes name "ophthalm")
  then Some (specialtyOverride "Specialty hospital - not equipped for stroke emergencies")
  else if wantsTherapy needTypes
          && (JS.includes name "eye" || JS.includes name "dental")
  then Some (specialtyOverride "Specialty hospital - not relevant for stroke rehabilitation")
  else if JS.arrayIncludes needTypes "support-groups"
          && (JS.includes name "eye" || JS.includes name "dental"
              || JS.includes name "skin")
  then Some (specialtyOverride
               "Specialty hospital - not relevant for stroke support services")
  else None.

(** [aiAnalysis && aiAnalysis.facilities && aiAnalysis.facilities[index]] *)
Definition directAnalysis (aiAnalysis : option AIAnalysis) (index : nat) : option Insights :=
  match aiAnalysis with
  | Some analysis =>
      match analysisFacilities analysis with
      | Some entries => mjoin (entries !! index)
      | None => None
      end
  | None => None
  end.

(** [if (aiAnalysis && aiAnalysis.patterns) { ... }] *)
Definition applyPatterns (aiAnalysis : option AIAnalysis) (facilityType : string)
  (insights : Insights) : Insights :=
  match aiAnalysis with
  | Some {| analysisPatterns := Some patterns |} =>
      let insights :=
        if String.eqb facilityType "hospital"
           && JS.truthy (hospital_language_support patterns)
        then setLanguageSupport (hospital_language_support patterns) insights
        else if String.eqb facilityType "urgent_care"
                && JS.truthy (urgent_care_language_support patterns)
        then setLanguageSupport (urgent_care_language_support patterns) insights
        else if String.eqb facilityType "clinic"
                && JS.truthy (clinic_language_support patterns)
        then setLanguageSupport (clinic_language_support patterns) insights
        else insights in
      if JS.truthy (general_language_note patterns)
      then setLanguageNote (general_language_note patterns) insights
      else insights
  | _ => insights
  end.

(** The rule-based relevance for [emergency]. *)
Definition emergencyRules (needTypes : list string) (name facilityType : string)
  (insights : Insights) : Insights :=
  if JS.arrayIncludes needTypes "emergency" then
    if JS.includes name "stroke" || JS.includes name "trauma"
    then rate "High" "Specialized for stroke/trauma care" "Excellent" insights
    else if String.eqb facilityType "hospital"
            && negb (JS.includes name "eye")
            && negb (JS.includes name "dental")
            && negb (JS.includes name "skin")
    then rate "High" "Hospital with emergency department" "Excellent" insights
    else if String.eqb facilityType "urgent_care"
    then rate "Medium" "Urgent care facility, not specialized for stroke emergencies"
           "Fair" insights
    else insights
  else insights.

(** The rule-based relevance for the therapy need types: five [if]s in a
    row, a later one overwriting an earlier one. *)
Definition therapyRules (needTypes : list string) (name facilityType : string)
  (insights : Insights) : Insights :=
  if wantsTherapy needTypes then
    let insights :=
      if JS.includes name "speech" && JS.arrayIncludes needTypes "speech-therapy"
      then rate "High" "Specialized speech therapy services" "Excellent" insights
      else insights in
    let insights :=
      if (JS.includes name "physical therapy" || JS.includes name "physiotherapy")
         && JS.arrayIncludes needTypes "physical-therapy"
      then rate "High" "Specialized physical therapy services" "Excellent" insights
      else insights in
    let insights :=
      if JS.includes name "occupational"
         && JS.arrayIncludes needTypes "occupational-therapy"
      then rate "High" "Specialized occupational therapy services" "Excellent" insights
      else insights in
    let insights :=
      if (JS.includes name "rehabilitation" || JS.includes name "rehab")
         && JS.arrayIncludes needTypes "rehabilitation"
      then rate "High" "Specialized rehabilitation services" "Excellent" insights
      else insights in
    if String.eqb facilityType "hospital"
       && negb (JS.includes name "eye") && negb (JS.includes name "dental")
    then rate "High" "Hospital with rehabilitation services" "Good" insights
    else insights
  else insights.

(** [if (insights.language_support === 'Unknown' && languageContext === 'en')] *)
Definition defaultLanguage (languageContext : string) (insights : Insights) : Insights :=
  if bool_decide (language_support insights = Some "Unknown")
     && String.eqb languageContext "en"
  then setLanguageNote (Some "English is the primary language spoken")
         (setLanguageSupport (Some "Confirmed") insights)
  else insights.

(** The pattern branch of [applyAIInsights], taken when there is neither an
    override nor a direct analysis for the facility. *)
Definition patternInsights (needTypes : list string) (languageContext : string)
  (aiAnalysis : option AIAnalysis) (facility : Place) : Insights :=
  let name := JS.toLowerCase (default "" (displayName facility)) in
  let facilityType := getFacilityType facility in
  let insights :=
    mkInsights "Medium" "Unknown" "Language support not assessed" "Good"
      "Medical facility" facilityType in
  let insights := applyPatterns aiAnalysis facilityType insights in
  let insights := emergencyRules needTypes name facilityType insights in
  let insights := therapyRules needTypes name facilityType insights in
  defaultLanguage languageContext insights.

(** [applyAIInsights(facility, index)] of the current router. *)
Definition applyAIInsights (needTypes : list string) (languageContext : string)
  (aiAnalysis : option AIAnalysis) (facility : Place) (index : nat) : Insights :=
  let name := JS.toLowerCase (default "" (displayName facility)) in
  match manualOverride needTypes name with
  | Some override => override
  | None =>
      match directAnalysis aiAnalysis index with
      | Some direct => direct
      | None => patternInsights needTypes languageContext aiAnalysis facility
      end
  end.

(** The intermediate router has the same [applyAIInsights] without the
    override and without the rules for the therapy need types; its rule for
    a hospital does not look at the specialty words. *)
Definition emergencyRulesIntermediate (needTypes : list string) (name facilityType : string)
  (insights : Insights) : Insights :=
  if JS.arrayIncludes needTypes "emergency" then
    if JS.includes (JS.toLowerCase name) "stroke"
       || JS.includes (JS.toLowerCase name) "trauma"
    then rate "High" "Specialized for stroke/trauma care" "Excellent" insights
    else if String.eqb facilityType "hospital"
    then rate "High" "Hospital with emergency department" "Excellent" insights
    else if String.eqb facilityType "urgent_care"
    then rate "Medium" "Urgent care facility, not specialized for stroke emergencies"
           "Fair" insights
    else insights
  else insights.

Definition applyAIInsightsIntermediate (needTypes : list string) (languageContext : string)
  (aiAnalysis : option AIAnalysis) (facility : Place) (index : nat) : Insights :=
  match directAnalysis aiAnalysis index with
  | Some direct => direct
  | None =>
      let facilityType := getFacilityType facility in
      let name := default "" (displayName facility) in
      let insights :=
        mkInsights "Medium" "Unknown" "Language support not assessed" "Good"
          "Medical facility" facilityType in
      let insights := applyPatterns aiAnalysis facilityType insights in
      let insights := emergencyRulesIntermediate needTypes name facilityType insights in
      defaultLanguage languageContext insights
  end.

(** One element of the [facilities] array of the response.  The object
    spreads the insight fields ([...aiInsights]); the record keeps the six
    of them together under [insights].  A property of the spread object that
    the response has no place for is not kept. *)
Record EnhancedFacility := {
  name : string;
  address : string;
  phone : string;
  website : string;
  enhancedRating : float + string;
  enhancedRatingCount : Z;
  enhancedDistance : option Distance;
  enhancedDirections : option Directions;
  enhancedTypes : list string;
  insights : Insights;
  likely_services : list string
}.

(** [facility.rating || 'Not available']: zero and NaN are falsy. *)
Definition ratingOrDefault (r : option float) : float + string :=
  match r with
  | Some x => if PrimFloat.is_nan x || PrimFloat.eqb x 0%float
              then inr "Not available" else inl x
  | None => inr "Not available"
  end.

(** [facility.userRatingCount || 0] *)
Definition ratingCountOrDefault (n : option Z) : Z := default 0 n.

Definition likelyServices (needTypes : list string) : list string :=
  if JS.arrayIncludes needTypes "emergency"
  then ["Emergency care"; "Stroke treatment"]
  else if JS.arrayIncludes needTypes "rehabilitation"
  then ["Rehabilitation services"; "Therapy programs"]
  else if JS.arrayIncludes needTypes "speech-therapy"
  then ["Speech therapy"; "Language therapy"]
  else if JS.arrayIncludes needTypes "physical-therapy"
  then ["Physical therapy"; "Motor rehabilitation"]
  else if JS.arrayIncludes needTypes "occupational-therapy"
  then ["Occupational therapy"; "Daily living skills"]
  else ["Medical services"].

(** [{ name: ..., ..., types: ..., ...aiInsights, likely_services: ... }]:
    the properties written before the spread are replaced by those of the
    same name that the spread object has; [likely_services] is written after
    it. *)
Definition spread (aiInsights : Insights) (fromPlace : EnhancedFacility) : EnhancedFacility :=
  let keys := placeKeys aiInsights in
  {| name := default (name fromPlace) (keyName keys);
     address := default (address fromPlace) (keyAddress keys);
     phone := default (phone fromPlace) (keyPhone keys);
     website := default (website fromPlace) (keyWebsite keys);
     enhancedRating := default (enhancedRating fromPlace) (keyRating keys);
     enhancedRatingCount := default (enhancedRatingCount fromPlace) (keyUserRatingCount keys);
     enhancedDistance := default (enhancedDistance fromPlace) (keyDistance keys);
     enhancedDirections := default (enhancedDirections fromPlace) (keyDirections keys);
     enhancedTypes := default (enhancedTypes fromPlace) (keyTypes keys);
     insights := aiInsights;
     likely_services := likely_services fromPlace |}.

(** The callback of [realFacilities.map((facility, index) => ...)]. *)
Definition enhanceFacility (needTypes : list string) (languageContext : string)
  (aiAnalysis : option AIAnalysis) (index : nat) (facility : Facility)
  : EnhancedFacility :=
  let aiInsights :=
    applyAIInsights needTypes languageContext aiAnalysis (place facility) index in
  spread aiInsights
    {| name := JS.orElse (displayName (place facility)) "Unknown";
       address := JS.orElse (formattedAddress (place facility)) "Address not available";
       phone := JS.orElse (internationalPhoneNumber (place facility)) "Not available";
       website := JS.orElse (websiteUri (place facility)) "Not available";
       enhancedRating := ratingOrDefault (rating (place facility));
       enhancedRatingCount := ratingCountOrDefault (userRatingCount (place facility));
       enhancedDistance := distance facility;
       enhancedDirections := directions facility;
       enhancedTypes := default [] (types (place facility));
       insights := aiInsights;
       likely_services := likelyServices needTypes |}.

(** What [enhanceWithChatGPT] returns, without the constant fields. *)
Record EnhancedResults := {
  success : bool;
  facilities : list EnhancedFacility;
  total_facilities_found : nat;
  ai_analyzed_count : nat;
  pattern_applied_count : nat
}.

(** [enhanceWithChatGPT(realFacilities, location, needTypes, language,
    detectedLocalLanguage)] after its awaited call: [aiAnalysis] is the
    parsed completion, [None] when the call or [JSON.parse] threw. *)
Definition enhanceWithChatGPT (realFacilities : list Facility) (needTypes : list string)
  (language detectedLocalLanguage : string) (aiAnalysis : option AIAnalysis)
  : EnhancedResults :=
  let languageContext :=
    if String.eqb language "local" then detectedLocalLanguage else language in
  match realFacilities with
  | [] => {| success := false; facilities := []; total_facilities_found := 0;
             ai_analyzed_count := 0; pattern_applied_count := 0 |}
  | _ =>
      let maxFacilitiesForAI := 15%nat in
      let facilitiesForAI := take maxFacilitiesForAI realFacilities in
      let enhancedFacilities :=
        imap (enhanceFacility needTypes languageContext aiAnalysis) realFacilities in
      {| success := true;
         facilities := enhancedFacilities;
         total_facilities_found := length realFacilities;
         ai_analyzed_count := length facilitiesForAI;
         pattern_applied_count := length enhancedFacilities - length facilitiesForAI |}
  end.

(** The older copy of the router merges the completion field by field,
    [chatgptData.medical_relevance || 'Medium'] and so on, over
    [analysis.facilities?.[index] || {}]; when the call throws, every
    facility gets the constant record of the [catch] branch. *)
Definition mergeInsightsOlder (analysis : option AIAnalysis) (index : nat) : Insights :=
  match analysis with
  | Some _ =>
      let chatgptData :=
        default {| medical_relevance := None; language_support := None;
                   language_note := None; service_match := None;
                   specialty_note := None; facility_type := None;
                   placeKeys := noPlaceKeys |}
          (directAnalysis analysis index) in
      {| medical_relevance := Some (JS.orElse (medical_relevance chatgptData) "Medium");
         language_support := Some (JS.orElse (language_support chatgptData) "Unknown");
         language_note := Some (JS.orElse (language_note chatgptData) "");
         service_match := Some (JS.orElse (service_match chatgptData) "Good");
         specialty_note :=
           Some (JS.orElse (specialty_note chatgptData)
                   "Medical facility with general services");
         facility_type := None;
         placeKeys := noPlaceKeys |}
  | None =>
      {| medical_relevance := Some "Not analyzed";
         language_support := Some "Unknown";
         language_note := Some "Language support assessment unavailable";
         service_match := Some "Not analyzed";
         specialty_note := Some "Real facility from Google Places";
         facility_type := None;
         placeKeys := noPlaceKeys |}
  end.

(** ** The [/search/sort] endpoint

    The facilities of the request body are those of an earlier response,
    sent back by the client as JSON.  [res.json] writes a NaN as [null], and
    [null - x] is [0 - x]: a distance that was NaN counts as 0 here. *)

Definition fromJson (x : Rounded) : Z :=
  match x with
  | Tenths n => n
  | NaN => 0
  end.

(** [if (a.distance && b.distance) return a.distance.miles - b.distance.miles;
     return 0;] on two facilities of a request body. *)
Definition compareJsonDistance (a b : option Distance) : Z :=
  match a, b with
  | Some da, Some db => fromJson (miles da) - fromJson (miles db)
  | _, _ => 0
  end.

(** [relevanceScore[f.medical_relevance] || 1] *)
Definition relevanceScore (relevance : option string) : Z :=
  match relevance with
  | Some r =>
      if String.eqb r "High" then 3
      else if String.eqb r "Medium" then 2
      else 1
  | None => 1
  end.

Definition compareByDistance (a b : EnhancedFacility) : Z :=
  compareJsonDistance (enhancedDistance a) (enhancedDistance b).

Definition compareByRelevance (a b : EnhancedFacility) : Z :=
  let aScore := relevanceScore (medical_relevance (insights a)) in
  let bScore := relevanceScore (medical_relevance (insights b)) in
  if negb (aScore =? bScore)%Z then bScore - aScore
  else compareJsonDistance (enhancedDistance a) (enhancedDistance b).

(** [let sortedFacilities = [...facilities]; if (sortBy === 'distance') ...
    else if (sortBy === 'relevance') ...] *)
Definition sortFacilities (facilities : list EnhancedFacility) (sortBy : string)
  : list EnhancedFacility :=
  if String.eqb sortBy "distance" then JS.sort compareByDistance facilities
  else if String.eqb sortBy "relevance" then JS.sort compareByRelevance facilities
  else facilities.

Inductive SortResponse :=
| BadRequest (error : string)
| SortOk (sortedFacilities : list EnhancedFacility) (sorted_by : string).

(** The handler of [POST /search/sort]; [facilities] is [None] when the
    body has no array under that key. *)
Definition searchSort (facilities : option (list EnhancedFacility)) (sortBy : string)
  : SortResponse :=
  match facilities with
  | None => BadRequest "Invalid facilities data"
  | Some facilities => SortOk (sortFacilities facilities sortBy) sortBy
  end.

(** ** Notions the specification uses to talk about the pipeline *)

(** The identity of a candidate: its name and address as they are. *)
Definition nameAndAddress (facility : Place) : option string * option string :=
  (displayName facility, formattedAddress facility).

(** The identity the specification speaks of: name and address with the
    case normalized. *)
Definition normalizedNameAndAddress (facility : Place) : option string * option string :=
  (JS.toLowerCase <$> displayName facility, JS.toLowerCase <$> formattedAddress facility).

(** The first occurrences of a list of candidates, by position: going
    through [rest], whose candidates stand after those of [earlier], a
    candidate is kept when no candidate before it, kept or not, has its
    name and address. *)
Fixpoint firstOccurrencesAfter (earlier rest : list Place) : list Place :=
  match rest with
  | [] => []
  | facility :: rest' =>
      if bool_decide (nameAndAddress facility ∈ nameAndAddress <$> earlier)
      then firstOccurrencesAfter (earlier ++ [facility]) rest'
      else facility :: firstOccurrencesAfter (earlier ++ [facility]) rest'
  end.

Definition firstOccurrences (all : list Place) : list Place :=
  firstOccurrencesAfter [] all.

(** No two candidates of the list differ in name or address and yet have
    the same [name-address] string. *)
Definition noJoinedCollision (all : list Place) : Prop :=
  forall a b, a ∈ all -> b ∈ all -> placeId a = placeId b ->
              nameAndAddress a = nameAndAddress b.

(** The words of a name, split at the spaces. *)
Fixpoint wordsFrom (current s : string) : list string :=
  match s with
  | EmptyString => [current]
  | String c r =>
      if Ascii.eqb c " " then current :: wordsFrom "" r
      else wordsFrom (current ++ String c "") r
  end.

Definition words (s : string) : list string := wordsFrom "" s.

(** ENT-qualified, as the specification means it: the name has the word
    [ent], for ear, nose and throat. *)
Definition entQualified (name : string) : bool :=
  existsb (String.eqb "ent") (words name).

(** The score table as the specification lists it: a word of the table is
    looked for anywhere in the lowered name, and [ENT-qualified] is read as
    above. *)
Definition specifiedEmergencyScore (name : string) : Z :=
  (if JS.includes name "stroke" then 10 else 0)
  + (if (JS.includes name "hospital" || JS.includes name "medical center")
        && negb (JS.includes name "eye" || JS.includes name "dental"
                 || JS.includes name "skin" || entQualified name)
     then 8 else 0)
  + (if JS.includes name "trauma" then 7 else 0)
  + (if JS.includes name "emergency" && negb (JS.includes name "urgent") then 6 else 0)
  + (if JS.includes name "urgent" then 3 else 0).

(** The score the comparator ranks a facility by: the emergency score when
    [emergency] is requested; no score is computed otherwise. *)
Definition priorityScore (needTypes : list string) (facility : Facility) : Z :=
  if JS.arrayIncludes needTypes "emergency"
  then emergencyScore (lowerName (place facility))
  else 0.

(** The same for the comparator of [src/server.js]. *)
Definition priorityScoreOlder (needTypes : list string) (facility : Facility) : Z :=
  if JS.arrayIncludes needTypes "emergency"
  then emergencyScoreOlder (lowerName (place facility))
  else 0.

(** The distance of a candidate in tenths of a mile, when it has distance
    data and the distance is a number. *)
Definition knownMiles (facility : Facility) : option Z :=
  match distance facility with
  | Some d =>
      match miles d with
      | Tenths n => Some n
      | NaN => None
      end
  | None => None
  end.

(** The candidates of score [s] whose distance in miles is [d], [None] for
    no known distance: the comparator returns 0 on any two of them. *)
Definition sameRank (needTypes : list string) (s : Z) (d : option Z)
  (facility : Facility) : bool :=
  (priorityScore needTypes facility =? s)%Z
  && bool_decide (knownMiles facility = d).

(** A name that matches one of the single-specialty words. *)
Definition isSingleSpecialty (name : string) : bool :=
  JS.includes name "eye" || JS.includes name "dental"
  || JS.includes name "skin" || JS.includes name "ent".

(** The insight fields the rules decide, the two language fields left out. *)
Definition ruleFields (i : Insights)
  : option string * option string * option string * option string :=
  (medical_relevance i, service_match i, specialty_note i, facility_type i).

(** The score the sort by relevance ranks a facility of the request body
    by. *)
Definition relevanceOf (facility : EnhancedFacility) : Z :=
  relevanceScore (medical_relevance (insights facility)).

(** The facilities of a request body whose distance in miles is [d], [None]
    for no distance data: the comparators return 0 on any two of them. *)
Definition sameDistance (d : option Z) (facility : EnhancedFacility) : bool :=
  bool_decide ((fromJson ∘ miles) <$> enhancedDistance facility = d).

(** ** Sample data *)

Definition mkPlace (text address : string) (kinds : list string) (coords : option LatLng)
  : Place :=
  {| displayName := Some text;
     formattedAddress := Some address;
     internationalPhoneNumber := None;
     websiteUri := None;
     rating := None;
     userRatingCount := None;
     types := Some kinds;
     businessStatus := None;
     location := coords |}.

Definition kathmandu : GeoPoint :=
  {| lat := 27.75%float; lng := 85.25%float; country := "NP" |}.

Definition somewhere : LatLng :=
  {| latitude := 27.5%float; longitude := 85.5%float |}.

Definition cityHospital : Place :=
  mkPlace "City Hospital" "1 Main St" ["hospital"] (Some somewhere).

Definition cityHospitalUpper : Place :=
  mkPlace "CITY HOSPITAL" "1 MAIN ST" ["hospital"] (Some somewhere).

Definition civilServiceHospital : Place :=
  mkPlace "Civil Service Hospital" "Minbhawan Marg" ["hospital"] (Some somewhere).

Definition nepalEyeHospital : Place :=
  mkPlace "Nepal Eye Hospital" "Tripureshwor" ["hospital"] (Some somewhere).

Definition cityHospitalNoCoords : Place :=
  mkPlace "City Hospital" "1 Main St" ["hospital"] None.

Definition medicalCenter : Place :=
  mkPlace "Vanderbilt Medical Center" "1211 Medical Center Dr" ["hospital"]
    (Some somewhere).

Definition urgentCareHospital : Place :=
  mkPlace "Urgent Care Hospital" "7 Market St" ["hospital"] (Some somewhere).

Definition urgentCare : Place :=
  mkPlace "QuickCare Urgent Care" "9 Market St" ["doctor"] (Some somewhere).

Definition strokeRehab : Place :=
  mkPlace "Valley Stroke Rehabilitation" "2 Ring Rd" ["physiotherapist"] None.

Definition vetClinic : Place :=
  mkPlace "Happy Paws Veterinary Hospital" "3 Ring Rd" ["veterinary_care"; "hospital"]
    (Some somewhere).

(** Two places whose names and addresses differ and whose [placeId]s agree. *)
Definition careOnCall : Place :=
  mkPlace "Care" "On-Call, 5 Elm St" ["doctor"] None.

Definition careOn : Place :=
  mkPlace "Care-On" "Call, 5 Elm St" ["doctor"] None.

Definition allNeedTypes : list string :=
  ["emergency"; "rehabilitation"; "speech-therapy"; "physical-therapy";
   "occupational-therapy"; "support-groups"].

Definition withDistance (p : Place) (tenthsOfMiles : Z) : Facility :=
  {| place := p;
     distance := Some {| km := Tenths (tenthsOfMiles * 16 / 10);
                         miles := Tenths tenthsOfMiles |};
     directions := None |}.

Definition withoutDistance (p : Place) : Facility :=
  {| place := p; distance := None; directions := None |}.

(** Stand-ins for the three functions the embedding does not compute, used
    where a statement is checked on sample data. *)
Definition sampleEncode (s : string) : string := s.
Definition sampleNumberToString (x : float) : string := "0".
Definition sampleDistance (lat1 lon1 lat2 lon2 : float) (unit : DistanceUnit) : Rounded :=
  match unit with
  | UnitKm => Tenths 19
  | UnitMiles => Tenths 12
  end.

(** A completion that covers the first facility only and carries patterns. *)
Definition partialAnalysis : AIAnalysis :=
  {| analysisFacilities :=
       Some [Some (mkInsights "High" "Likely" "Staff speak Nepali and English"
                     "Excellent" "General hospital with an emergency department"
                     "hospital")];
     analysisPatterns :=
       Some {| hospital_language_support := Some "Likely";
               urgent_care_language_support := None;
               clinic_language_support := None;
               general_language_note := Some "Nepali is the working language" |} |}.

(** A completion of the wrong shape: no [facilities] array. *)
Definition patternsOnlyAnalysis : AIAnalysis :=
  {| analysisFacilities := None;
     analysisPatterns := analysisPatterns partialAnalysis |}.

(** A completion that names the relevance of the first facility and
    nothing else. *)
Definition relevanceOnlyAnalysis : AIAnalysis :=
  {| analysisFacilities :=
       Some [Some {| medical_relevance := Some "High"; language_support := None;
                     language_note := None; service_match := None;
                     specialty_note := None; facility_type := None;
                     placeKeys := noPlaceKeys |}];
     analysisPatterns := None |}.

(** A completion whose object for the first facility carries a name and a
    distance of its own. *)
Definition renamingAnalysis : AIAnalysis :=
  {| analysisFacilities :=
       Some [Some {| medical_relevance := Some "High"; language_support := None;
                     language_note := None; service_match := None;
                     specialty_note := None; facility_type := None;
                     placeKeys :=
                       {| keyName := Some "Nepal Eye Hospital"; keyAddress := None;
                          keyPhone := None; keyWebsite := None; keyRating := None;
                          keyUserRatingCount := None; keyDistance := Some None;
                          keyDirections := None; keyTypes := None |} |}];
     analysisPatterns := None |}.

(** A completion that rates every facility it is shown [High]. *)
Definition flatteringAnalysis : AIAnalysis :=
  {| analysisFacilities :=
       Some (replicate 15
               (Some (mkInsights "High" "Confirmed" "" "Excellent" "Hospital" "hospital")));
     analysisPatterns := None |}.

(** ** The queries of [getRealFacilities] and the collection of their answers *)

(** [searchQueries] after the pushes: the queries of each requested need
    type, in the order of the [if]s, then the two general ones. *)
Definition searchQueries (location : string) (needTypes : list string) : list string :=
  ((if JS.arrayIncludes needTypes "emergency"
    then ["stroke center near " +:+ location;
          "hospital emergency room near " +:+ location;
          "trauma center near " +:+ location;
          "comprehensive stroke center near " +:+ location]
    else [])
   ++ (if JS.arrayIncludes needTypes "rehabilitation"
       then ["stroke rehabilitation center near " +:+ location;
             "neurological rehabilitation hospital near " +:+ location;
             "inpatient rehabilitation facility near " +:+ location;
             "stroke recovery center near " +:+ location]
       else [])
   ++ (if JS.arrayIncludes needTypes "speech-therapy"
       then ["speech therapy clinic near " +:+ location;
             "speech language pathologist near " +:+ location]
       else [])
   ++ (if JS.arrayIncludes needTypes "physical-therapy"
       then ["physical therapy clinic near " +:+ location;
             "neurological physical therapy near " +:+ location]
       else [])
   ++ (if JS.arrayIncludes needTypes "occupational-therapy"
       then ["occupational therapy near " +:+ location;
             "occupational therapist near " +:+ location]
       else [])
   ++ (if JS.arrayIncludes needTypes "support-groups"
       then ["stroke support group near " +:+ location;
             "stroke survivor group near " +:+ location;
             "brain injury support center near " +:+ location;
             "community health center near " +:+ location]
       else [])
   ++ ["hospital near " +:+ location; "medical center near " +:+ location])%list.

(** What the awaited [axios.post] of one query comes to: it threw, or it
    answered with [response.data.places], which may be absent. *)
Inductive QueryAnswer :=
| QueryFailed
| QueryAnswered (places : option (list Place)).

(** The body of the loop over the queries:
    [if (response.data.places && response.data.places.length > 0)
       allFacilities.push(...response.data.places);]
    with [catch { continue; }] around it. *)
Definition pushAnswer (allFacilities : list Place) (answer : QueryAnswer) : list Place :=
  match answer with
  | QueryAnswered (Some (p :: places)) => (allFacilities ++ p :: places)%list
  | QueryAnswered (Some []) | QueryAnswered None | QueryFailed => allFacilities
  end.

(** [allFacilities] after the loop, from the answers in the order of the
    queries. *)
Definition collectPlaces (answers : list QueryAnswer) : list Place :=
  fold_left pushAnswer answers [].

(** ** The route [POST /search] *)

(** [languageMap], an object used as a map from country code to language. *)
Definition languageMap : gmap string string :=
  list_to_map
    [("US", "en"); ("CA", "en"); ("GB", "en"); ("AU", "en"); ("NZ", "en");
     ("NP", "ne");
     ("MX", "es"); ("ES", "es"); ("AR", "es"); ("CO", "es"); ("PE", "es");
     ("FR", "fr"); ("BE", "fr"); ("CH", "fr");
     ("DE", "de"); ("AT", "de");
     ("IT", "it");
     ("BR", "pt"); ("PT", "pt");
     ("CN", "zh"); ("TW", "zh");
     ("JP", "ja");
     ("KR", "ko");
     ("IN", "hi");
     ("RU", "ru")].

(** [languageMap[countryCode] || 'en'], on the object's own keys (a country
    code that is the name of a property every object inherits, such as
    [constructor], is not a country code the geocoder returns). *)
Definition getLocalLanguage (countryCode : string) : string :=
  default "en" (languageMap !! countryCode).

Inductive SearchResponse :=
| SearchBadRequest (error : string)
| SearchNothingFound (error suggestion detected_language : string)
| SearchFound (results : EnhancedResults) (search_radius : string).

Section SearchRoute.

Variable encodeURIComponent : string -> string.
Variable numberToString : float -> string.
Variable calculateDistance : float -> float -> float -> float -> DistanceUnit -> Rounded.

(** The handler of [POST /search] after its awaited calls.  The body's
    [location], [needTypes] and [language] may be absent.  The geocoder is
    asked twice, once by the handler ([userCoords]) and once by
    [getRealFacilities] ([userCoordsAgain]).  An absent [language] takes part
    in two comparisons only, with ['local'] and with ['en'], and is carried
    as the empty string. *)
Definition searchRoute
  (location : option string) (needTypes : option (list string)) (language : option string)
  (userCoords userCoordsAgain : option GeoPoint) (allFacilities : list Place)
  (aiAnalysis : option AIAnalysis) : SearchResponse :=
  match location, needTypes with
  | Some (String c rest), Some (needType :: others) =>
      let location := String c rest in
      let needTypes := needType :: others in
      let detectedLocalLanguage :=
        match userCoords with
        | Some coords => getLocalLanguage (country coords)
        | None => "en"
        end in
      let language :=
        if bool_decide (language = Some "local") then detectedLocalLanguage
        else default "" language in
      let googleResults :=
        getRealFacilities encodeURIComponent numberToString calculateDistance
          location needTypes userCoordsAgain allFacilities in
      match googleResults with
      | [] =>
          SearchNothingFound "No medical facilities found in your area"
            "Try searching for a larger city or different location"
            detectedLocalLanguage
      | _ =>
          SearchFound
            (enhanceWithChatGPT googleResults needTypes language detectedLocalLanguage
               aiAnalysis)
            (if JS.arrayIncludes needTypes "support-groups"
             then "50 miles (80 km)" else "31 miles (50 km)")
      end
  | _, _ => SearchBadRequest "Missing required fields: location and needTypes are required."
  end.

End SearchRoute.

(** ** The validation middleware, the cache service and the cached search

    The first design of the server, kept in the repository next to the
    router: [validateSearchInput] runs before the handler of [POST /] and
    rewrites [req.body]; the handler answers from [searchCache] when it can. *)

Module SearchInput.

(** The fields of [req.body] the middleware and the handler read.  A field
    that is present is a string. *)
Record Body := {
  location : option string;
  needType : option string;
  urgency : option string;
  language : option string;
  insurance : option string;
  additionalNeeds : option string
}.

(** The white space and line terminators of [String.prototype.trim] among
    the ASCII characters: tab, line feed, vertical tab, form feed, carriage
    return and space. *)
Definition isWhiteSpace (c : ascii) : bool :=
  let n := nat_of_ascii c in
  ((9 <=? n)%nat && (n <=? 13)%nat) || (n =? 32)%nat.

Fixpoint trimStart (s : string) : string :=
  match s with
  | EmptyString => EmptyString
  | String c r => if isWhiteSpace c then trimStart r else s
  end.

Fixpoint trimEnd (s : string) : string :=
  match s with
  | EmptyString => EmptyString
  | String c r =>
      match trimEnd r with
      | EmptyString => if isWhiteSpace c then EmptyString else String c EmptyString
      | rest => String c rest
      end
  end.

(** [s.trim()] *)
Definition trim (s : string) : string := trimEnd (trimStart s).

(** [!field || field.trim().length === 0] *)
Definition missing (field : option string) : bool :=
  match field with
  | Some s => negb (JS.truthy (Some s)) || (String.length (trim s) =? 0)%nat
  | None => true
  end.

Definition validUrgency : list string := ["emergency"; "urgent"; "scheduled"].

(** What the middleware does with the request: it answers 400 itself, or
    it calls [next()] with [req.body] rewritten. *)
Inductive Outcome :=
| Reject (error field : string)
| Next (body : Body).

Definition validateSearchInput (body : Body) : Outcome :=
  if missing (location body) then Reject "Location is required" "location"
  else if missing (needType body) then Reject "Need type is required" "needType"
  else
    let location' := trim <$> location body in
    let needType' := trim <$> needType body in
    let additionalNeeds' :=
      if JS.truthy (additionalNeeds body) then trim <$> additionalNeeds body
      else additionalNeeds body in
    let urgency' :=
      if JS.truthy (urgency body)
         && negb (JS.arrayIncludes validUrgency (default "" (urgency body)))
      then Some "scheduled"
      else urgency body in
    Next {| location := location';
            needType := needType';
            urgency := urgency';
            language := language body;
            insurance := insurance body;
            additionalNeeds := additionalNeeds' |}.

(** [searchData] of the handler: the body with the two defaults. *)
Definition searchData (body : Body) : Body :=
  {| location := location body;
     needType := needType body;
     urgency := Some (JS.orElse (urgency body) "scheduled");
     language := Some (JS.orElse (language body) "en");
     insurance := insurance body;
     additionalNeeds := additionalNeeds body |}.

End SearchInput.

(** [class SimpleCache].  A timer handle is the number of the [setTimeout]
    call that returned it.  [pending] is the part of the event loop the
    class writes to: the timeouts it has set that have neither fired nor been
    cleared, each with the key its callback closes over and the delay the
    runtime gave it.  A [ttl] is a whole number of milliseconds. *)
Module SimpleCache.

Section Cache.

Context {V : Type}.

Record State := {
  cache : gmap string V;
  timers : gmap string nat;
  pending : gmap nat (string * Z);
  issued : nat
}.

(** [new SimpleCache()] *)
Definition new : State :=
  {| cache := ∅; timers := ∅; pending := ∅; issued := 0 |}.

Definition clearTimeout (timer : nat) (timeouts : gmap nat (string * Z))
  : gmap nat (string * Z) :=
  base.delete timer timeouts.

(** The delay [setTimeout(callback, delay)] runs with: a delay below 1 or
    above 2147483647 is replaced by 1. *)
Definition timeoutDelay (delay : Z) : Z :=
  if ((1 <=? delay) && (delay <=? 2147483647))%Z then delay else 1%Z.

(** [set(key, value, ttl = 600000)] *)
Definition set (key : string) (value : V) (ttl : option Z) (s : State) : State :=
  let ttl := default 600000%Z ttl in
  let timeouts :=
    match timers s !! key with
    | Some timer => clearTimeout timer (pending s)
    | None => pending s
    end in
  let timer := issued s in
  {| cache := <[key := value]> (cache s);
     timers := <[key := timer]> (timers s);
     pending := <[timer := (key, timeoutDelay ttl)]> timeouts;
     issued := S (issued s) |}.

(** [get(key)]; [None] is [undefined]. *)
Definition get (key : string) (s : State) : option V := cache s !! key.

(** [delete(key)] *)
Definition delete (key : string) (s : State) : State :=
  match timers s !! key with
  | Some timer =>
      {| cache := base.delete key (cache s);
         timers := base.delete key (timers s);
         pending := clearTimeout timer (pending s);
         issued := issued s |}
  | None =>
      {| cache := base.delete key (cache s);
         timers := timers s;
         pending := pending s;
         issued := issued s |}
  end.

(** [clear()]: [this.timers.forEach(timer => clearTimeout(timer))], then
    both maps are emptied. *)
Definition clear (s : State) : State :=
  {| cache := ∅;
     timers := ∅;
     pending := foldr clearTimeout (pending s) ((map_to_list (timers s)).*2);
     issued := issued s |}.

(** [size()] *)
Definition size (s : State) : nat := base.size (cache s).

(** The event loop runs the callback of a pending timeout:
    [this.cache.delete(key); this.timers.delete(key);].  A handle that is
    not pending has no callback left to run. *)
Definition fire (timer : nat) (s : State) : State :=
  match pending s !! timer with
  | Some (key, _) =>
      {| cache := base.delete key (cache s);
         timers := base.delete key (timers s);
         pending := base.delete timer (pending s);
         issued := issued s |}
  | None => s
  end.

(** What can happen to a cache: a call of one of its methods that write,
    or one of its timeouts firing. *)
Inductive Event :=
| CallSet (key : string) (value : V) (ttl : option Z)
| CallDelete (key : string)
| CallClear
| TimeoutFires (timer : nat).

Definition step (s : State) (e : Event) : State :=
  match e with
  | CallSet key value ttl => set key value ttl s
  | CallDelete key => delete key s
  | CallClear => clear s
  | TimeoutFires timer => fire timer s
  end.

(** The cache after a history of events, from [new SimpleCache()]. *)
Definition run (history : list Event) : State := fold_left step history new.

End Cache.

Arguments State : clear implicits.
Arguments Event : clear implicits.

End SimpleCache.

(** The handler of [POST /] after its awaited calls: [computed] is the
    enriched response the generative model's answer leads to, [None] when
    one of the calls threw.  The handler looks the request up in
    [searchCache] at once; it stores the computed response after the awaited
    calls, when other requests and timeouts may have changed the cache, which
    is then [later].  [JSON.stringify] and the truthiness of a cached
    response (a completion may parse to [0] or [false]) are not computed by
    the embedding.  The search log is written to a file and read nowhere. *)
Section CachedSearch.

Context {Response : Type}.
Variable stringify : SearchInput.Body -> string.
Variable truthyResponse : Response -> bool.

Inductive Reply :=
| Json (response : Response) (cached : bool)
| SearchFailed
| Invalid (error field : string).

(** [searchData.urgency === 'emergency' ? 300000 : 1800000] *)
Definition cacheTime (searchData : SearchInput.Body) : Z :=
  if bool_decide (SearchInput.urgency searchData = Some "emergency")
  then 300000%Z else 1800000%Z.

Definition cacheKey (searchData : SearchInput.Body) : string :=
  "search_" ++ stringify searchData.

Definition cachedSearch (body : SearchInput.Body) (computed : option Response)
  (searchCache later : SimpleCache.State Response)
  : Reply * SimpleCache.State Response :=
  let searchData := SearchInput.searchData body in
  let compute :=
    match computed with
    | Some enrichedResponse =>
        (Json enrichedResponse false,
         SimpleCache.set (cacheKey searchData) enrichedResponse
           (Some (cacheTime searchData)) later)
    | None => (SearchFailed, later)
    end in
  match SimpleCache.get (cacheKey searchData) searchCache with
  | Some cachedResult =>
      if truthyResponse cachedResult then (Json cachedResult true, searchCache)
      else compute
  | None => compute
  end.

(** [router.post('/', validateSearchInput, async (req, res) => ...)] *)
Definition postSearch (body : SearchInput.Body) (computed : option Response)
  (searchCache later : SimpleCache.State Response)
  : Reply * SimpleCache.State Response :=
  match SearchInput.validateSearchInput body with
  | SearchInput.Reject error field => (Invalid error field, searchCache)
  | SearchInput.Next body => cachedSearch body computed searchCache later
  end.

End CachedSearch.

(** ** More notions and sample data *)

(** The names every JavaScript object inherits from [Object.prototype].
    Looked up in an object literal that serves as a table, one of them finds
    the inherited member and not an entry of the table. *)
Definition inheritedNames : list string :=
  ["constructor"; "__proto__"; "hasOwnProperty"; "isPrototypeOf";
   "propertyIsEnumerable"; "toLocaleString"; "toString"; "valueOf";
   "__defineGetter__"; "__defineSetter__"; "__lookupGetter__"; "__lookupSetter__"].

(** A value that is looked up in a table as one of its entries or as
    nothing: absent, or a string other than the inherited names. *)
Definition tableKey (key : option string) : bool :=
  match key with
  | Some k => negb (JS.arrayIncludes inheritedNames k)
  | None => true
  end.

Definition strokeCenter : Place :=
  mkPlace "Valley Comprehensive Stroke Center" "4 Ring Rd" ["hospital"] (Some somewhere).

(** A facility of a request body, with its distance in tenths of a mile if
    it has one. *)
Definition listed (p : Place) (tenthsOfMiles : option Z) : EnhancedFacility :=
  {| name := JS.orElse (displayName p) "Unknown";
     address := JS.orElse (formattedAddress p) "Address not available";
     phone := "Not available";
     website := "Not available";
     enhancedRating := inr "Not available";
     enhancedRatingCount := 0;
     enhancedDistance :=
       (fun n => {| km := Tenths (n * 16 / 10); miles := Tenths n |}) <$> tenthsOfMiles;
     enhancedDirections := None;
     enhancedTypes := default [] (types p);
     insights := mkInsights "High" "Unknown" "Language support not assessed" "Good"
                   "Medical facility" "hospital";
     likely_services := ["Emergency care"; "Stroke treatment"] |}.

(** An enriched facility with the given rating and distance in tenths of a
    mile. *)
Definition rated (p : Place) (relevance : string) (tenthsOfMiles : Z) : EnhancedFacility :=
  {| name := JS.orElse (displayName p) "Unknown";
     address := JS.orElse (formattedAddress p) "Address not available";
     phone := "Not available";
     website := "Not available";
     enhancedRating := inr "Not available";
     enhancedRatingCount := 0;
     enhancedDistance := distance (withDistance p tenthsOfMiles);
     enhancedDirections := None;
     enhancedTypes := default [] (types p);
     insights := mkInsights relevance "Unknown" "Language support not assessed" "Good"
                   "Medical facility" "hospital";
     likely_services := ["Emergency care"; "Stroke treatment"] |}.

(** The cache and its timeouts fit together: a key holds a value exactly
    when it has a timer; the timer of a key is a pending timeout whose
    callback is for that key, and every pending timeout is the timer of its
    key; the handles in use were all issued. *)
Definition cacheConsistent {V : Type} (s : SimpleCache.State V) : Prop :=
  (forall key, is_Some (SimpleCache.cache s !! key) <-> is_Some (SimpleCache.timers s !! key))
  /\ (forall key timer,
        SimpleCache.timers s !! key = Some timer
        <-> exists ttl, SimpleCache.pending s !! timer = Some (key, ttl))
  /\ (forall timer, is_Some (SimpleCache.pending s !! timer) ->
                    (timer < SimpleCache.issued s)%nat).

(** A request body as a client may send it, and stand-ins for
    [JSON.stringify] and for the responses, used where a statement is checked
    on sample data. *)
Definition sampleBody : SearchInput.Body :=
  {| SearchInput.location := Some "  Kathmandu ";
     SearchInput.needType := Some "emergency";
     SearchInput.urgency := Some "asap";
     SearchInput.language := None;
     SearchInput.insurance := None;
     SearchInput.additionalNeeds := Some " wheelchair " |}.

Definition sampleStringify (searchData : SearchInput.Body) : string :=
  JS.template (SearchInput.location searchData) ++ "|"
  ++ JS.template (SearchInput.needType searchData) ++ "|"
  ++ JS.template (SearchInput.urgency searchData) ++ "|"
  ++ JS.template (SearchInput.language searchData) ++ "|"
  ++ JS.template (SearchInput.insurance searchData) ++ "|"
  ++ JS.template (SearchInput.additionalNeeds searchData).

Definition sampleTruthy (response : string) : bool := JS.truthy (Some response).

(** ** The enrichment of the running server

    [server.js] carries an earlier [enhanceWithChatGPT]: it analyses and
    returns the first ten facilities only, merges the completion field by
    field ([mergeInsightsOlder]) and has no facility type. *)

Record OlderFacility := {
  olderName : string;
  olderAddress : string;
  olderPhone : string;
  olderWebsite : string;
  olderRating : float + string;
  olderRatingCount : Z;
  olderDistance : option Distance;
  olderDirections : option Directions;
  olderInsights : Insights;
  olderLikelyServices : list string
}.

(** What it returns, without the constant fields.  The answer for an empty
    ranking has no counts; the record holds 0 there. *)
Record OlderResults := {
  olderSuccess : bool;
  olderFacilities : list OlderFacility;
  older_total_facilities_found : nat;
  analyzed_count : nat
}.

(** [likely_services], in the merge and in the [catch] branch. *)
Definition likelyServicesOlder (analysis : option AIAnalysis) (needTypes : list string)
  : list string :=
  match analysis with
  | Some _ =>
      if JS.arrayIncludes needTypes "emergency"
      then ["Emergency care"; "Stroke treatment"]
      else if JS.arrayIncludes needTypes "rehabilitation"
      then ["Rehabilitation services"; "Therapy programs"]
      else ["Medical services"]
  | None => ["Medical services available"]
  end.

(** The callback of [facilitiesToAnalyze.map], in the merge and in the
    [catch] branch. *)
Definition enhanceFacilityOlder (needTypes : list string) (analysis : option AIAnalysis)
  (index : nat) (facility : Facility) : OlderFacility :=
  {| olderName := JS.orElse (displayName (place facility)) "Unknown";
     olderAddress := JS.orElse (formattedAddress (place facility)) "Address not available";
     olderPhone := JS.orElse (internationalPhoneNumber (place facility)) "Not available";
     olderWebsite := JS.orElse (websiteUri (place facility)) "Not available";
     olderRating := ratingOrDefault (rating (place facility));
     olderRatingCount := ratingCountOrDefault (userRatingCount (place facility));
     olderDistance := distance facility;
     olderDirections := directions facility;
     olderInsights := mergeInsightsOlder analysis index;
     olderLikelyServices := likelyServicesOlder analysis needTypes |}.

(** [enhanceWithChatGPT] of [server.js] after its awaited call: [analysis]
    is the parsed completion, [None] when the call, [JSON.parse] or the
    merge threw. *)
Definition enhanceWithChatGPTOlder (realFacilities : list Facility)
  (needTypes : list string) (analysis : option AIAnalysis) : OlderResults :=
  match realFacilities with
  | [] => {| olderSuccess := false; olderFacilities := [];
             older_total_facilities_found := 0; analyzed_count := 0 |}
  | _ =>
      let maxFacilities := 10%nat in
      let facilitiesToAnalyze := take maxFacilities realFacilities in
      {| olderSuccess := true;
         olderFacilities := imap (enhanceFacilityOlder needTypes analysis) facilitiesToAnalyze;
         older_total_facilities_found := length realFacilities;
         analyzed_count := length facilitiesToAnalyze |}
  end.

(** ** The location bias of the oldest router: [getExtendedLocationBias] *)

Inductive LocationBias :=
| Circle (center : LatLng) (radius : float)
| Rectangle (low high : LatLng).

(** [Math.max] and [Math.min] on two numbers: NaN if either is NaN, and
    [+0] above [-0]. *)
Definition mathMax (a b : float) : float :=
  if PrimFloat.is_nan a || PrimFloat.is_nan b then PrimFloat.nan
  else if PrimFloat.ltb a b then b
  else if PrimFloat.ltb b a then a
  else if PrimFloat.is_zero a && PrimFloat.get_sign a then b
  else a.

Definition mathMin (a b : float) : float :=
  if PrimFloat.is_nan a || PrimFloat.is_nan b then PrimFloat.nan
  else if PrimFloat.ltb a b then a
  else if PrimFloat.ltb b a then b
  else if PrimFloat.is_zero a && PrimFloat.get_sign a then a
  else b.

(** [cityCoordinates], in the order of the object literal, which is the
    order [Object.entries] walks it in.  A decimal literal is the double
    nearest to it, in JavaScript and here. *)
#[warnings="-inexact-float"]
Definition cityCoordinates : list (string * (float * float)) :=
  [("kathmandu", (27.7172, 85.3240)%float);
   ("new york", (40.7128, -74.0060)%float);
   ("london", (51.5074, -0.1278)%float);
   ("tokyo", (35.6762, 139.6503)%float);
   ("sydney", (-33.8688, 151.2093)%float);
   ("toronto", (43.6532, -79.3832)%float);
   ("mumbai", (19.0760, 72.8877)%float);
   ("delhi", (28.7041, 77.1025)%float);
   ("paris", (48.8566, 2.3522)%float);
   ("berlin", (52.5200, 13.4050)%float);
   ("madrid", (40.4168, -3.7038)%float);
   ("rome", (41.9028, 12.4964)%float);
   ("beijing", (39.9042, 116.4074)%float);
   ("shanghai", (31.2304, 121.4737)%float);
   ("seoul", (37.5665, 126.9780)%float);
   ("bangkok", (13.7563, 100.5018)%float);
   ("singapore", (1.3521, 103.8198)%float);
   ("hong kong", (22.3193, 114.1694)%float);
   ("dubai", (25.2048, 55.2708)%float);
   ("cairo", (30.0444, 31.2357)%float);
   ("lagos", (6.5244, 3.3792)%float);
   ("johannesburg", (-26.2041, 28.0473)%float);
   ("cape town", (-33.9249, 18.4241)%float);
   ("sao paulo", (-23.5505, -46.6333)%float);
   ("mexico city", (19.4326, -99.1332)%float);
   ("buenos aires", (-34.6118, -58.3960)%float);
   ("east lansing", (42.7370, -84.4839)%float);
   ("lansing", (42.3314, -84.5467)%float);
   ("michigan", (44.3467, -84.8554)%float);
   ("detroit", (42.3314, -83.0458)%float);
   ("chicago", (41.8781, -87.6298)%float);
   ("los angeles", (34.0522, -118.2437)%float);
   ("boston", (42.3601, -71.0589)%float);
   ("miami", (25.7617, -80.1918)%float);
   ("seattle", (47.6062, -122.3321)%float);
   ("denver", (39.7392, -104.9903)%float)].

(** The rectangle around the coordinates of a city. *)
#[warnings="-inexact-float"]
Definition cityRectangle (coords : float * float) : LocationBias :=
  let radius := 0.4%float in
  let lowLat := mathMax (fst coords - radius) (-85) in
  let highLat := mathMin (fst coords + radius) 85 in
  let lowLng := mathMax (snd coords - radius) (-179) in
  let highLng := mathMin (snd coords + radius) 179 in
  Rectangle {| latitude := lowLat; longitude := lowLng |}
    {| latitude := highLat; longitude := highLng |}.

Definition getExtendedLocationBias (location : string) (userCoords : option GeoPoint)
  : LocationBias :=
  match userCoords with
  | Some coords =>
      Circle {| latitude := lat coords; longitude := lng coords |} 80467
  | None =>
      let locationLower := JS.toLowerCase location in
      match List.find (fun entry => JS.includes locationLower (fst entry)) cityCoordinates with
      | Some (_, coords) => cityRectangle coords
      | None =>
          Rectangle {| latitude := -85; longitude := -179 |}
            {| latitude := 85; longitude := 179 |}
      end
  end.

(** A rectangle the place search accepts as a viewport: low is not above
    high, latitudes are within 85 degrees of the equator and longitudes
    within 179 degrees of the prime meridian. *)
Definition withinBounds (bias : LocationBias) : bool :=
  match bias with
  | Circle _ _ => true
  | Rectangle low high =>
      PrimFloat.leb (-85) (latitude low) && PrimFloat.leb (latitude low) (latitude high)
      && PrimFloat.leb (latitude high) 85
      && PrimFloat.leb (-179) (longitude low)
      && PrimFloat.leb (longitude low) (longitude high)
      && PrimFloat.leb (longitude high) 179
  end.

(** ** Two points opposite each other on the globe *)

(** A point in Andalusia and its antipode, off the Bay of Plenty. *)
#[warnings="-inexact-float"]
Definition andalusia : LatLng := {| latitude := 36.97; longitude := -3.7 |}.

#[warnings="-inexact-float"]
Definition bayOfPlenty : LatLng := {| latitude := -36.97; longitude := 176.3 |}.

(** The angles that [calculateDistance] hands to [Math.sin] and [Math.cos]
    for the two points: [toRadians(36.97)], which is also half of
    [toRadians(73.94)], and [toRadians(180) / 2]. *)
Definition latitudeAngle : float := 0x1.4a5df9abbc3e1p-1.
Definition quarterTurn : float := 0x1.921fb54442d18p+0.

(** The doubles nearest to the sine and the cosine of [latitudeAngle]. *)
Definition latitudeSine : float := 0x1.33ea473a8ae05p-1.
Definition latitudeCosine : float := 0x1.99100a909434cp-1.

(** Stand-ins for the engine's functions, with these values at these
    angles, used where a statement is checked on the two points. *)
Definition sampleSin (x : float) : float :=
  if PrimFloat.eqb (PrimFloat.abs x) latitudeAngle
  then (if PrimFloat.ltb x 0 then - latitudeSine else latitudeSine)%float
  else if PrimFloat.eqb (PrimFloat.abs x) quarterTurn
  then (if PrimFloat.ltb x 0 then -1 else 1)%float
  else x.

Definition sampleCos (x : float) : float :=
  if PrimFloat.eqb (PrimFloat.abs x) latitudeAngle then latitudeCosine else 1%float.

Definition sampleAtan2 (y x : float) : float :=
  if PrimFloat.is_nan x then PrimFloat.nan
  else if PrimFloat.is_nan y then PrimFloat.nan
  else y.

Definition sampleRound (x : float) : float := x.

(** * Properties *)

(** ** Strings *)

Lemma append_cons (c : ascii) (a b : string) : String c a ++ b = String c (a ++ b).
Proof. reflexivity. Qed.

Lemma append_assoc (a b c : string) : (a ++ b) ++ c = a ++ b ++ c.
Proof.
  induction a as [|x a IH]; [reflexivity|].
  rewrite !append_cons, IH. reflexivity.
Qed.

Lemma prefix_split (sub s : string) :
  String.prefix sub s = true <-> exists post, s = sub ++ post.
Proof.
  revert s. induction sub as [|c sub IH]; intros s.
  - split; [intros _; exists s; reflexivity | intros _; destruct s; reflexivity].
  - destruct s as [|d s]; simpl.
    + split; [discriminate | intros [post Hpost]; discriminate].
    + destruct (Ascii.ascii_dec c d) as [->|Hne].
      * rewrite IH. split; intros [post Hpost]; exists post;
          rewrite append_cons in *; congruence.
      * split; [discriminate|].
        intros [post Hpost]. rewrite append_cons in Hpost. congruence.
Qed.

Lemma includes_split (s sub : string) :
  JS.includes s sub = true <-> exists pre post, s = pre ++ sub ++ post.
Proof.
  induction s as [|c s IH].
  - cbn [JS.includes]. rewrite orb_false_r, prefix_split. split.
    + intros [post Hpost]. exists "", post. exact Hpost.
    + intros [pre [post Hs]]. destruct pre; [exists post; exact Hs | discriminate].
  - cbn [JS.includes]. rewrite orb_true_iff, IH, prefix_split. split.
    + intros [[post Hpost] | [pre [post Hs]]].
      * exists "", post. exact Hpost.
      * exists (String c pre), post. rewrite append_cons. congruence.
    + intros [pre [post Hs]]. destruct pre as [|d pre].
      * left. exists post. exact Hs.
      * right. exists pre, post. rewrite append_cons in Hs. congruence.
Qed.

(** A substring of a substring is a substring. *)
Lemma includes_trans (s mid sub : string) :
  JS.includes s mid = true -> JS.includes mid sub = true -> JS.includes s sub = true.
Proof.
  rewrite !includes_split. intros [p [q Hs]] [p' [q' Hmid]].
  exists (p ++ p'), (q' ++ q). subst s mid.
  rewrite !append_assoc. reflexivity.
Qed.

(** The word [urgent] ends in [ent]: a name that contains the first contains
    the second. *)
Lemma urgent_includes_ent (name : string) :
  JS.includes name "urgent" = true -> JS.includes name "ent" = true.
Proof. intros H. apply (includes_trans _ _ _ H). reflexivity. Qed.

(** So does [medical center], and [center]. *)
Lemma medical_center_includes_ent (name : string) :
  JS.includes name "medical center" = true -> JS.includes name "ent" = true.
Proof. intros H. apply (includes_trans _ _ _ H). reflexivity. Qed.

(** ** The sort *)

Section SortFacts.
Context {A : Type} (comparefn : A -> A -> Z).
#[local] Open Scope list_scope.

#[local] Abbreviation insertSorted := (JS.insertSorted comparefn).
#[local] Abbreviation sortRev := (JS.sortRev comparefn).
#[local] Abbreviation sort := (JS.sort comparefn).
#[local] Abbreviation inOrder := (JS.inOrder comparefn).

Lemma insertSorted_Permutation (x : A) (l : list A) :
  Permutation (insertSorted x l) (x :: l).
Proof.
  induction l as [|y l IH]; simpl; [reflexivity|].
  destruct (0 <? comparefn y x)%Z; [|reflexivity].
  rewrite IH. apply perm_swap.
Qed.

Lemma fold_insertSorted_Permutation (l acc : list A) :
  Permutation (fold_left (fun prefixRev x => insertSorted x prefixRev) l acc) (l ++ acc).
Proof.
  revert acc. induction l as [|x l IH]; intros acc; simpl; [reflexivity|].
  rewrite IH, insertSorted_Permutation. symmetry. apply Permutation_middle.
Qed.

(** The sorted array holds the elements of the array, each as often. *)
Lemma sort_Permutation (l : list A) : Permutation (sort l) l.
Proof.
  unfold JS.sort, JS.sortRev. rewrite reverse_Permutation.
  rewrite fold_insertSorted_Permutation, app_nil_r. reflexivity.
Qed.

Lemma sort_elem_of (l : list A) (x : A) : x ∈ sort l <-> x ∈ l.
Proof. rewrite (sort_Permutation l). reflexivity. Qed.

Lemma sort_length (l : list A) : length (sort l) = length l.
Proof. apply Permutation_length, sort_Permutation. Qed.

(** An array whose neighbours are all in order comes back as it is. *)
Lemma Sorted_app_r (R : A -> A -> Prop) (l1 l2 : list A) :
  Sorted R (l1 ++ l2) -> Sorted R l2.
Proof.
  induction l1 as [|a l1 IH]; simpl; [trivial|].
  intros H. apply Sorted_inv in H as [H _]. auto.
Qed.

Lemma fold_insertSorted_fixed (l acc : list A) :
  Sorted inOrder (reverse acc ++ l) ->
  fold_left (fun prefixRev x => insertSorted x prefixRev) l acc = reverse l ++ acc.
Proof.
  revert acc. induction l as [|x l IH]; intros acc Hs; simpl; [reflexivity|].
  assert (Hins : insertSorted x acc = x :: acc).
  { destruct acc as [|y r]; [reflexivity|]. simpl.
    rewrite reverse_cons, <- app_assoc in Hs. simpl in Hs.
    apply Sorted_app_r, Sorted_inv in Hs as [_ Hhd].
    apply HdRel_inv in Hhd. unfold JS.inOrder in Hhd.
    destruct (Z.ltb_spec 0 (comparefn y x)); [lia | reflexivity]. }
  rewrite Hins, IH.
  - rewrite reverse_cons, <- app_assoc. reflexivity.
  - rewrite reverse_cons, <- app_assoc. exact Hs.
Qed.

Lemma sort_fixed (l : list A) : Sorted inOrder l -> sort l = l.
Proof.
  intros Hs. unfold JS.sort, JS.sortRev.
  rewrite fold_insertSorted_fixed by (rewrite reverse_nil; exact Hs).
  rewrite app_nil_r. apply reverse_involutive.
Qed.

(** Stability: elements that pairwise tie keep their order.  An element
    only ever moves in front of one the comparator puts strictly after it. *)
Lemma insertSorted_filter (P : A -> bool) (x : A) (acc : list A) :
  (forall a b, P a = true -> P b = true -> comparefn a b <= 0) ->
  List.filter P (reverse (insertSorted x acc)) = List.filter P (reverse acc ++ [x]).
Proof.
  intros Htie. induction acc as [|y r IH]; simpl; [reflexivity|].
  destruct (Z.ltb_spec 0 (comparefn y x)) as [Hlt|Hle].
  - rewrite !reverse_cons, !List.filter_app, IH, List.filter_app, <- !app_assoc.
    f_equal. simpl.
    destruct (P x) eqn:Px, (P y) eqn:Py; try reflexivity.
    specialize (Htie y x Py Px). lia.
  - rewrite !reverse_cons. reflexivity.
Qed.

Lemma fold_insertSorted_filter (P : A -> bool) (l acc : list A) :
  (forall a b, P a = true -> P b = true -> comparefn a b <= 0) ->
  List.filter P (reverse (fold_left (fun prefixRev x => insertSorted x prefixRev) l acc))
  = List.filter P (reverse acc ++ l).
Proof.
  intros Htie. revert acc. induction l as [|x l IH]; intros acc; simpl.
  - rewrite app_nil_r. reflexivity.
  - rewrite IH, List.filter_app, insertSorted_filter, <- List.filter_app by exact Htie.
    rewrite <- app_assoc. reflexivity.
Qed.

Lemma sort_stable (P : A -> bool) (l : list A) :
  (forall a b, P a = true -> P b = true -> comparefn a b <= 0) ->
  List.filter P (sort l) = List.filter P l.
Proof.
  intros Htie. unfold JS.sort, JS.sortRev.
  rewrite fold_insertSorted_filter by exact Htie.
  rewrite reverse_nil. reflexivity.
Qed.

(** From here on the comparator is antisymmetric: when it puts [a] strictly
    after [b] it does not also put [b] strictly after [a]. *)
Hypothesis comparefn_antisym : forall a b, 0 < comparefn a b -> comparefn b a <= 0.

Lemma insertSorted_HdRel (y x : A) (r : list A) :
  HdRel (flip inOrder) y r -> inOrder x y -> HdRel (flip inOrder) y (insertSorted x r).
Proof.
  intros Hhd Hxy. destruct r as [|z r]; simpl.
  - constructor. exact Hxy.
  - destruct (0 <? comparefn z x)%Z; constructor.
    + apply HdRel_inv in Hhd. exact Hhd.
    + exact Hxy.
Qed.

Lemma insertSorted_Sorted (x : A) (acc : list A) :
  Sorted (flip inOrder) acc -> Sorted (flip inOrder) (insertSorted x acc).
Proof.
  induction acc as [|y r IH]; intros Hs; simpl.
  - repeat constructor.
  - apply Sorted_inv in Hs as [Hr Hhd].
    destruct (Z.ltb_spec 0 (comparefn y x)) as [Hlt|Hle].
    + constructor; [auto|]. apply insertSorted_HdRel; [exact Hhd|].
      apply comparefn_antisym. exact Hlt.
    + constructor; [constructor; assumption|]. constructor. exact Hle.
Qed.

Lemma fold_insertSorted_Sorted (l acc : list A) :
  Sorted (flip inOrder) acc ->
  Sorted (flip inOrder) (fold_left (fun prefixRev x => insertSorted x prefixRev) l acc).
Proof.
  revert acc. induction l as [|x l IH]; intros acc Hs; simpl; [exact Hs|].
  apply IH, insertSorted_Sorted, Hs.
Qed.

(** In the sorted array every two neighbours are in order. *)
Lemma sort_Sorted (l : list A) : Sorted inOrder (sort l).
Proof.
  unfold JS.sort, JS.sortRev.
  apply (Sorted_reverse (flip inOrder)), fold_insertSorted_Sorted. constructor.
Qed.

(** Sorting a sorted array changes nothing. *)
Lemma sort_idempotent (l : list A) : sort (sort l) = sort l.
Proof. apply sort_fixed, sort_Sorted. Qed.

End SortFacts.

(** ** The relevance filter *)

Lemma filter_sublist {A : Type} (p : A -> bool) (l : list A) :
  sublist (List.filter p l) l.
Proof.
  induction l as [|x l IH]; simpl; [constructor|].
  destruct (p x); [apply sublist_skip | apply sublist_cons]; exact IH.
Qed.

Lemma elem_of_filter_bool {A : Type} (p : A -> bool) (l : list A) (x : A) :
  x ∈ List.filter p l <-> x ∈ l /\ p x = true.
Proof. rewrite !list_elem_of_In. apply List.filter_In. Qed.

(** C10. The relevance filter returns a subsequence of its input: the
    records it keeps are input records, unchanged and in their input order,
    and they are exactly the ones its callback accepts. *)
Theorem filter_returns_subsequence (facilities : list Place) (needTypes : list string) :
  sublist (filterFacilitiesByServiceType facilities needTypes) facilities
  /\ (forall facility,
        facility ∈ filterFacilitiesByServiceType facilities needTypes
        <-> facility ∈ facilities /\ keepFacility needTypes facility = true).
Proof.
  unfold filterFacilitiesByServiceType. split.
  - apply filter_sublist.
  - intros facility. apply elem_of_filter_bool.
Qed.

Lemma toLowerCase_append (a b : string) :
  JS.toLowerCase (a ++ b) = JS.toLowerCase a ++ JS.toLowerCase b.
Proof.
  induction a as [|c a IH]; [reflexivity|].
  rewrite append_cons. cbn [JS.toLowerCase]. rewrite IH, append_cons. reflexivity.
Qed.

(** A word found in a name is found, lowered, in the lowered name. *)
Lemma includes_toLowerCase (s sub : string) :
  JS.includes s sub = true ->
  JS.includes (JS.toLowerCase s) (JS.toLowerCase sub) = true.
Proof.
  rewrite !includes_split. intros [pre [post ->]].
  exists (JS.toLowerCase pre), (JS.toLowerCase post).
  rewrite !toLowerCase_append. reflexivity.
Qed.

Lemma veterinary_name_isVeterinary (facility : Place) (text : string) :
  displayName facility = Some text ->
  JS.includes text "veterinary" = true ->
  isVeterinary (lowerName facility) (lowerTypes facility) = true.
Proof.
  intros Hname Hinc. unfold isVeterinary, lowerName. rewrite Hname.
  apply includes_toLowerCase in Hinc. change (JS.toLowerCase "veterinary") with "veterinary" in Hinc.
  rewrite Hinc. rewrite orb_true_r. reflexivity.
Qed.

(** C6. Whatever the need types, a candidate whose name contains
    [veterinary], as written or once lowered, or that the exclusion test
    otherwise takes for veterinary or animal care (the words [pet], [animal],
    [vet ] in the name, [veterinary] among the category tags), is not in the
    filter's output. *)
Theorem veterinary_is_excluded
  (facilities : list Place) (needTypes : list string) (facility : Place) :
  (exists text, displayName facility = Some text /\ JS.includes text "veterinary" = true)
  \/ JS.includes (lowerName facility) "veterinary" = true
  \/ isVeterinary (lowerName facility) (lowerTypes facility) = true ->
  facility ∉ filterFacilitiesByServiceType facilities needTypes.
Proof.
  intros Hvet Hin.
  apply elem_of_filter_bool in Hin as [_ Hkeep].
  assert (Hex : isVeterinary (lowerName facility) (lowerTypes facility) = true).
  { destruct Hvet as [[text [Hname Hinc]] | [Hname | Hex]].
    - eapply veterinary_name_isVeterinary; eassumption.
    - unfold isVeterinary. rewrite Hname, orb_true_r. reflexivity.
    - exact Hex. }
  unfold keepFacility in Hkeep. rewrite Hex in Hkeep. discriminate.
Qed.

Lemma veterinary_is_excluded_witness :
  JS.includes (lowerName vetClinic) "veterinary" = true
  /\ vetClinic ∉ filterFacilitiesByServiceType [cityHospital; vetClinic] allNeedTypes.
Proof.
  split; [reflexivity|].
  apply veterinary_is_excluded. right. left. reflexivity.
Defined.

(** ** Deduplication *)

(** Candidates with the same name and address have the same [placeId]. *)
Lemma placeId_nameAndAddress (a b : Place) :
  nameAndAddress a = nameAndAddress b -> placeId a = placeId b.
Proof. unfold nameAndAddress, placeId. intros [= -> ->]. reflexivity. Qed.

Section Dedup.
#[local] Open Scope list_scope.
#[local] Open Scope Z_scope.

Lemma removeDuplicatesFrom_sublist (seen : gset string) (l : list Place) :
  sublist (removeDuplicatesFrom seen l) l.
Proof.
  revert seen. induction l as [|f l IH]; intros seen; simpl; [constructor|].
  destruct (decide (placeId f ∈ seen)); [apply sublist_cons | apply sublist_skip]; apply IH.
Qed.

(** What is kept was not seen before. *)
Lemma removeDuplicatesFrom_fresh (seen : gset string) (l : list Place) (g : Place) :
  g ∈ removeDuplicatesFrom seen l -> placeId g ∉ seen.
Proof.
  revert seen. induction l as [|f l IH]; intros seen; simpl.
  - intros H. inversion H.
  - destruct (decide (placeId f ∈ seen)) as [Hin|Hnin].
    + apply IH.
    + intros H. apply elem_of_cons in H as [-> | H]; [exact Hnin|].
      apply IH in H. set_solver.
Qed.

Lemma removeDuplicatesFrom_NoDup (seen : gset string) (l : list Place) :
  NoDup (placeId <$> removeDuplicatesFrom seen l).
Proof.
  revert seen. induction l as [|f l IH]; intros seen; simpl; [constructor|].
  destruct (decide (placeId f ∈ seen)) as [Hin|Hnin]; [apply IH|].
  rewrite fmap_cons. constructor; [|apply IH].
  intros Hdup. apply list_elem_of_fmap in Hdup as [g [Hid Hg]].
  apply removeDuplicatesFrom_fresh in Hg. set_solver.
Qed.

(** The older form: [findIndex] finds the first element with the same two
    fields. *)
Lemma sameNameAndAddress_true (facility f : Place) :
  sameNameAndAddress facility f = true <-> nameAndAddress f = nameAndAddress facility.
Proof.
  unfold sameNameAndAddress, nameAndAddress.
  rewrite andb_true_iff, !bool_decide_eq_true. split.
  - intros [-> ->]. reflexivity.
  - intros [= -> ->]. split; reflexivity.
Qed.

Lemma findIndexFrom_skip {A : Type} (p : A -> bool) (i : Z) (pre rest : list A) :
  (forall g, g ∈ pre -> p g = false) ->
  JS.findIndexFrom i p (pre ++ rest) = JS.findIndexFrom (i + Z.of_nat (length pre)) p rest.
Proof.
  revert i. induction pre as [|h pre IH]; intros i Hpre; simpl.
  - f_equal. lia.
  - rewrite (Hpre h) by left. rewrite IH by (intros g Hg; apply Hpre; right; exact Hg).
    f_equal. lia.
Qed.

Lemma findIndexFrom_early {A : Type} (p : A -> bool) (i : Z) (pre rest : list A) (g : A) :
  g ∈ pre -> p g = true ->
  JS.findIndexFrom i p (pre ++ rest) < i + Z.of_nat (length pre).
Proof.
  revert i. induction pre as [|h pre IH]; intros i Hg Hp; simpl.
  - inversion Hg.
  - destruct (p h) eqn:Hh; [lia|].
    apply elem_of_cons in Hg as [-> | Hg]; [congruence|].
    specialize (IH (i + 1) Hg Hp). lia.
Qed.

(** The test of the [filter] callback at position [length pre]. *)
Lemma isFirstIndex_spec (pre post : list Place) (f : Place) :
  (Z.of_nat (length pre) =? JS.findIndex (sameNameAndAddress f) (pre ++ f :: post)) = true
  <-> forall g, g ∈ pre -> nameAndAddress g <> nameAndAddress f.
Proof.
  rewrite Z.eqb_eq. unfold JS.findIndex. split.
  - intros Heq g Hg Hsame.
    apply sameNameAndAddress_true in Hsame.
    pose proof (findIndexFrom_early _ 0 pre (f :: post) g Hg Hsame). lia.
  - intros Hpre. rewrite findIndexFrom_skip.
    + simpl. replace (sameNameAndAddress f f) with true; [lia|].
      symmetry. apply sameNameAndAddress_true. reflexivity.
    + intros g Hg. destruct (sameNameAndAddress f g) eqn:Hs; [|reflexivity].
      apply sameNameAndAddress_true in Hs. exfalso. exact (Hpre g Hg Hs).
Qed.

Lemma filterWithIndexFrom_sublist {A : Type} (p : A -> Z -> bool) (i : Z) (l : list A) :
  sublist (JS.filterWithIndexFrom i p l) l.
Proof.
  revert i. induction l as [|x l IH]; intros i; simpl; [constructor|].
  destruct (p x i); [apply sublist_skip | apply sublist_cons]; apply IH.
Qed.

(** The tail of the older deduplication, started after [pre]. *)
Lemma byFields_fresh (all pre l : list Place) (g : Place) :
  all = pre ++ l ->
  g ∈ JS.filterWithIndexFrom (Z.of_nat (length pre))
        (fun facility index => index =? JS.findIndex (sameNameAndAddress facility) all) l ->
  forall h, h ∈ pre -> nameAndAddress h <> nameAndAddress g.
Proof.
  revert pre. induction l as [|f l IH]; intros pre Hall; simpl.
  - intros H. inversion H.
  - assert (Hnext : all = (pre ++ [f]) ++ l) by (rewrite <- app_assoc; exact Hall).
    assert (Hlen : Z.of_nat (length pre) + 1 = Z.of_nat (length (pre ++ [f])))
      by (rewrite length_app; simpl; lia).
    rewrite Hlen.
    destruct (Z.of_nat (length pre) =? JS.findIndex (sameNameAndAddress f) all) eqn:Hfirst.
    + intros Hg. apply elem_of_cons in Hg as [-> | Hg].
      * subst all. exact (proj1 (isFirstIndex_spec pre l f) Hfirst).
      * intros h Hh. apply (IH _ Hnext Hg). apply elem_of_app. left. exact Hh.
    + intros Hg h Hh. apply (IH _ Hnext Hg). apply elem_of_app. left. exact Hh.
Qed.

Lemma byFields_NoDup (all pre l : list Place) :
  all = pre ++ l ->
  NoDup (nameAndAddress <$>
         JS.filterWithIndexFrom (Z.of_nat (length pre))
           (fun facility index => index =? JS.findIndex (sameNameAndAddress facility) all) l).
Proof.
  revert pre. induction l as [|f l IH]; intros pre Hall; simpl; [constructor|].
  assert (Hnext : all = (pre ++ [f]) ++ l) by (rewrite <- app_assoc; exact Hall).
  assert (Hlen : Z.of_nat (length pre) + 1 = Z.of_nat (length (pre ++ [f])))
    by (rewrite length_app; simpl; lia).
  rewrite Hlen.
  destruct (Z.of_nat (length pre) =? JS.findIndex (sameNameAndAddress f) all);
    [|apply IH; exact Hnext].
  rewrite fmap_cons. constructor; [|apply IH; exact Hnext].
  intros Hdup. apply list_elem_of_fmap in Hdup as [g [Hid Hg]].
  eapply (byFields_fresh all (pre ++ [f]) l g Hnext Hg f); [|exact Hid].
  apply elem_of_app. right. left.
Qed.

(** The oldest deduplication keeps the candidates that are the first with
    their name and address. *)
Lemma byFields_firstOccurrences (all pre l : list Place) :
  all = pre ++ l ->
  JS.filterWithIndexFrom (Z.of_nat (length pre))
    (fun facility index => index =? JS.findIndex (sameNameAndAddress facility) all) l
  = firstOccurrencesAfter pre l.
Proof.
  revert pre. induction l as [|f l IH]; intros pre Hall; [reflexivity|].
  assert (Hnext : all = (pre ++ [f]) ++ l) by (rewrite <- app_assoc; exact Hall).
  assert (Hlen : Z.of_nat (length pre) + 1 = Z.of_nat (length (pre ++ [f])))
    by (rewrite length_app; simpl; lia).
  cbn [JS.filterWithIndexFrom firstOccurrencesAfter]. rewrite Hlen, (IH _ Hnext).
  destruct (bool_decide_reflect (nameAndAddress f ∈ nameAndAddress <$> pre))
    as [Hseen | Hfresh].
  - replace (Z.of_nat (length pre) =? JS.findIndex (sameNameAndAddress f) all) with false;
      [reflexivity|].
    symmetry. apply not_true_is_false. intros Hfirst.
    apply list_elem_of_fmap in Hseen as (g & Hkey & Hg).
    subst all. exact (proj1 (isFirstIndex_spec pre l f) Hfirst g Hg (eq_sym Hkey)).
  - replace (Z.of_nat (length pre) =? JS.findIndex (sameNameAndAddress f) all) with true;
      [reflexivity|].
    symmetry. subst all. apply (proj2 (isFirstIndex_spec pre l f)).
    intros g Hg Hkey. apply Hfresh. apply list_elem_of_fmap. exists g. split; [|exact Hg].
    symmetry. exact Hkey.
Qed.

Lemma removeDuplicatesByFields_firstOccurrences (all : list Place) :
  removeDuplicatesByFields all = firstOccurrences all.
Proof. apply (byFields_firstOccurrences all [] all). reflexivity. Qed.

(** One more candidate at the end of the list goes to the end of the
    result, or is dropped. *)
Lemma firstOccurrencesAfter_snoc (earlier rest : list Place) (f : Place) :
  firstOccurrencesAfter earlier (rest ++ [f])
  = firstOccurrencesAfter earlier rest
    ++ (if bool_decide (nameAndAddress f ∈ nameAndAddress <$> earlier ++ rest)
        then [] else [f]).
Proof.
  revert earlier. induction rest as [|g rest IH]; intros earlier.
  - cbn [app firstOccurrencesAfter]. rewrite app_nil_r.
    by destruct (bool_decide (nameAndAddress f ∈ nameAndAddress <$> earlier)).
  - cbn [app firstOccurrencesAfter]. rewrite IH, <- app_assoc. cbn [app].
    by destruct (bool_decide (nameAndAddress g ∈ nameAndAddress <$> earlier)).
Qed.

(** Every name and address of the list is the name and address of a
    candidate that is kept. *)
Lemma firstOccurrencesAfter_represents (earlier rest : list Place) (f : Place) :
  f ∈ rest ->
  nameAndAddress f ∈ nameAndAddress <$> earlier
  \/ exists kept, kept ∈ firstOccurrencesAfter earlier rest
                  /\ nameAndAddress kept = nameAndAddress f.
Proof.
  revert earlier. induction rest as [|g rest IH]; intros earlier Hin.
  - inversion Hin.
  - cbn [firstOccurrencesAfter].
    assert (Hhead : nameAndAddress g ∈ nameAndAddress <$> earlier
                    \/ exists kept,
                         kept ∈ (if bool_decide (nameAndAddress g
                                                  ∈ nameAndAddress <$> earlier)
                                 then firstOccurrencesAfter (earlier ++ [g]) rest
                                 else g :: firstOccurrencesAfter (earlier ++ [g]) rest)
                         /\ nameAndAddress kept = nameAndAddress g).
    { destruct (bool_decide_reflect (nameAndAddress g ∈ nameAndAddress <$> earlier))
        as [Hseen | Hfresh]; [left; exact Hseen | right].
      exists g. split; [left | reflexivity]. }
    apply elem_of_cons in Hin as [-> | Hin]; [exact Hhead|].
    destruct (IH (earlier ++ [g]) Hin) as [Hseen | (kept & Hkept & Hkey)].
    + rewrite fmap_app in Hseen. apply elem_of_app in Hseen as [Hseen | Hseen];
        [left; exact Hseen|].
      apply list_elem_of_singleton in Hseen. rewrite Hseen. exact Hhead.
    + right. exists kept. split; [|exact Hkey].
      destruct (bool_decide (nameAndAddress g ∈ nameAndAddress <$> earlier));
        [exact Hkept | right; exact Hkept].
Qed.

(** The two forms side by side, after the candidates [pre] whose keys are
    [seen]. *)
Lemma removeDuplicates_byFields (all pre l : list Place) (seen : gset string) :
  all = pre ++ l ->
  (forall k, k ∈ seen <-> exists g, g ∈ pre /\ placeId g = k) ->
  sublist (removeDuplicatesFrom seen l)
    (JS.filterWithIndexFrom (Z.of_nat (length pre))
       (fun facility index => index =? JS.findIndex (sameNameAndAddress facility) all) l)
  /\ ((forall a b, a ∈ all -> b ∈ all -> placeId a = placeId b ->
                   nameAndAddress a = nameAndAddress b) ->
      removeDuplicatesFrom seen l
      = JS.filterWithIndexFrom (Z.of_nat (length pre))
          (fun facility index => index =? JS.findIndex (sameNameAndAddress facility) all)
          l).
Proof.
  revert pre seen. induction l as [| f l IH]; intros pre seen Hall Hseen.
  { split; [constructor | done]. }
  assert (Hnext : all = (pre ++ [f]) ++ l) by (rewrite <- app_assoc; exact Hall).
  assert (Hlen : Z.of_nat (length pre) + 1 = Z.of_nat (length (pre ++ [f])))
    by (rewrite length_app; simpl; lia).
  cbn [removeDuplicatesFrom JS.filterWithIndexFrom]. rewrite Hlen.
  destruct (decide (placeId f ∈ seen)) as [Hin | Hnin].
  - assert (Hseen' : forall k, k ∈ seen <-> exists g, g ∈ pre ++ [f] /\ placeId g = k).
    { intros k. rewrite Hseen. split.
      - intros (g & Hg & Hk). exists g. split; [| exact Hk].
        apply elem_of_app. by left.
      - intros (g & Hg & Hk). apply elem_of_app in Hg as [Hg | Hg]; [by exists g |].
        apply list_elem_of_singleton in Hg. subst g k. by apply Hseen. }
    destruct (IH _ _ Hnext Hseen') as [Hsub Heq]. split.
    + destruct (Z.of_nat (length pre) =? JS.findIndex (sameNameAndAddress f) all);
        [by apply sublist_cons | exact Hsub].
    + intros Hinj. rewrite (Heq Hinj).
      replace (Z.of_nat (length pre) =? JS.findIndex (sameNameAndAddress f) all)
        with false; [done |].
      symmetry. apply not_true_is_false. intros Hfirst.
      apply Hseen in Hin as (g & Hg & Hk).
      subst all. apply (proj1 (isFirstIndex_spec pre l f) Hfirst g Hg).
      apply Hinj; [| | exact Hk].
      * apply elem_of_app. by left.
      * apply elem_of_app. right. left.
  - assert (Hseen' : forall k,
               k ∈ ({[ placeId f ]} ∪ seen : gset string)
               <-> exists g, g ∈ pre ++ [f] /\ placeId g = k).
    { intros k. rewrite elem_of_union, elem_of_singleton, Hseen. split.
      - intros [-> | (g & Hg & Hk)].
        + exists f. split; [| done]. apply elem_of_app. right. left.
        + exists g. split; [| exact Hk]. apply elem_of_app. by left.
      - intros (g & Hg & Hk). apply elem_of_app in Hg as [Hg | Hg].
        + right. by exists g.
        + apply list_elem_of_singleton in Hg. subst g. by left. }
    replace (Z.of_nat (length pre) =? JS.findIndex (sameNameAndAddress f) all) with true.
    + destruct (IH _ _ Hnext Hseen') as [Hsub Heq]. split.
      * by apply sublist_skip.
      * intros Hinj. by rewrite (Heq Hinj).
    + symmetry. subst all. apply (proj2 (isFirstIndex_spec pre l f)).
      intros g Hg Hsame. apply Hnin. apply Hseen. exists g. split; [exact Hg |].
      by apply placeId_nameAndAddress.
Qed.

End Dedup.

(** The converse fails: the hyphen that joins name and address may as well
    belong to either. *)
Example placeId_collision :
  nameAndAddress careOnCall <> nameAndAddress careOn
  /\ placeId careOnCall = placeId careOn
  /\ removeDuplicates [careOnCall; careOn] = [careOnCall]
  /\ removeDuplicatesByFields [careOnCall; careOn] = [careOnCall; careOn].
Proof. repeat split; [discriminate | vm_compute; reflexivity..]. Qed.

(** C1, as the specification states it, fails: the two sample places differ
    only in the case of their letters, their normalized names and addresses
    are equal, and both forms of the deduplication keep the two of them. *)
Lemma deduplication_is_case_sensitive :
  normalizedNameAndAddress cityHospital = normalizedNameAndAddress cityHospitalUpper
  /\ removeDuplicates [cityHospital; cityHospitalUpper] = [cityHospital; cityHospitalUpper]
  /\ removeDuplicatesByFields [cityHospital; cityHospitalUpper]
     = [cityHospital; cityHospitalUpper].
Proof. repeat split; vm_compute; reflexivity. Qed.

(** The amended statement at work: four candidates, the third a repetition
    of the first, no two with the same [name-address] string unless they
    have the same name and address. *)
Example deduplication_sample :
  noJoinedCollision [cityHospital; civilServiceHospital; cityHospital; nepalEyeHospital]
  /\ removeDuplicates [cityHospital; civilServiceHospital; cityHospital; nepalEyeHospital]
     = [cityHospital; civilServiceHospital; nepalEyeHospital]
  /\ firstOccurrences [cityHospital; civilServiceHospital; cityHospital; nepalEyeHospital]
     = [cityHospital; civilServiceHospital; nepalEyeHospital].
Proof.
  split; [|split; vm_compute; reflexivity].
  intros a b Ha Hb Hid.
  repeat (apply elem_of_cons in Ha as [-> | Ha]);
    try (by apply elem_of_nil in Ha);
    repeat (apply elem_of_cons in Hb as [-> | Hb]);
    try (by apply elem_of_nil in Hb);
    first [reflexivity | vm_compute in Hid; discriminate Hid].
Qed.

(** C1, amended. The deduplication keeps the candidates that are the first
    with their name and address, as written, in the order in which they were
    collected: a candidate is dropped exactly when a candidate before it has
    the same name and the same address.  So no two kept candidates have the
    same name and address, and every name and address that was collected is
    that of a kept candidate; a candidate collected after all the others
    goes to the end of the result or is dropped.  The oldest router does
    this for every list;
    the current router and the running server do it for every list in which
    no two candidates that differ in name or address have the same
    [name-address] string. *)
Theorem deduplication_keeps_first_occurrences (allFacilities : list Place) :
  removeDuplicatesByFields allFacilities = firstOccurrences allFacilities
  /\ (noJoinedCollision allFacilities ->
      removeDuplicates allFacilities = firstOccurrences allFacilities)
  /\ sublist (firstOccurrences allFacilities) allFacilities
  /\ NoDup (nameAndAddress <$> firstOccurrences allFacilities)
  /\ (forall facility,
        facility ∈ allFacilities ->
        exists kept, kept ∈ firstOccurrences allFacilities
                     /\ nameAndAddress kept = nameAndAddress facility)
  /\ (forall facility,
        firstOccurrences (allFacilities ++ [facility])
        = firstOccurrences allFacilities
          ++ (if bool_decide (nameAndAddress facility ∈ nameAndAddress <$> allFacilities)
              then [] else [facility]))%list.
Proof.
  pose proof (removeDuplicatesByFields_firstOccurrences allFacilities) as Hfields.
  split; [exact Hfields|]. split; [|split; [|split; [|split]]];
    [..| intros facility; apply (firstOccurrencesAfter_snoc [] allFacilities facility)].
  - intros Hinj. rewrite <- Hfields.
    apply (removeDuplicates_byFields allFacilities [] allFacilities ∅);
      [reflexivity | | exact Hinj].
    intros k. split; [set_solver|].
    intros (g & Hg & _). by apply elem_of_nil in Hg.
  - rewrite <- Hfields. apply filterWithIndexFrom_sublist.
  - rewrite <- Hfields. apply (byFields_NoDup allFacilities [] allFacilities). reflexivity.
  - intros facility Hin.
    destruct (firstOccurrencesAfter_represents [] allFacilities facility Hin)
      as [Hseen | Hkept]; [|exact Hkept].
    by apply elem_of_nil in Hseen.
Qed.

(** ** Scoring, ranking and the radius cut *)

Section Ranking.
#[local] Open Scope list_scope.
#[local] Open Scope Z_scope.

Lemma difference_antisym (x y : Rounded) : difference y x = - difference x y.
Proof. destruct x, y; cbn; lia. Qed.

Lemma compareDistance_antisym (a b : option Distance) :
  0 < compareDistance a b -> compareDistance b a <= 0.
Proof.
  unfold compareDistance. destruct a as [da|], b as [db|]; try lia.
  rewrite (difference_antisym (miles da) (miles db)). lia.
Qed.

Lemma compareDistance_known (a b : Facility) (x y : Z) :
  knownMiles a = Some x -> knownMiles b = Some y ->
  compareDistance (distance a) (distance b) = x - y.
Proof.
  unfold knownMiles, compareDistance.
  destruct (distance a) as [da|]; [|discriminate].
  destruct (distance b) as [db|]; [|destruct (miles da); discriminate].
  destruct (miles da), (miles db); try discriminate.
  intros [= ->] [= ->]. reflexivity.
Qed.

Lemma compareDistance_unknown (a b : Facility) :
  knownMiles a = None \/ knownMiles b = None ->
  compareDistance (distance a) (distance b) = 0.
Proof.
  unfold knownMiles, compareDistance.
  destruct (distance a) as [da|], (distance b) as [db|]; try reflexivity.
  destruct (miles da), (miles db); cbn; intros [H | H]; try discriminate; reflexivity.
Qed.

Lemma compareFacilities_antisym (needTypes : list string) (a b : Facility) :
  0 < compareFacilities needTypes a b -> compareFacilities needTypes b a <= 0.
Proof.
  unfold compareFacilities.
  destruct (JS.arrayIncludes needTypes "emergency"); [|apply compareDistance_antisym].
  destruct (Z.eqb_spec (emergencyScore (lowerName (place a)))
              (emergencyScore (lowerName (place b)))) as [Heq|Hne]; simpl.
  - rewrite Heq, Z.eqb_refl. simpl. apply compareDistance_antisym.
  - destruct (Z.eqb_spec (emergencyScore (lowerName (place b)))
                (emergencyScore (lowerName (place a)))); simpl; [congruence | lia].
Qed.

(** When the scores differ the comparator returns their difference. *)
Lemma compareFacilities_by_score (needTypes : list string) (a b : Facility) :
  priorityScore needTypes a <> priorityScore needTypes b ->
  compareFacilities needTypes a b = priorityScore needTypes b - priorityScore needTypes a.
Proof.
  unfold compareFacilities, priorityScore.
  destruct (JS.arrayIncludes needTypes "emergency"); [|congruence].
  intros Hne. apply Z.eqb_neq in Hne. rewrite Hne. reflexivity.
Qed.

(** When they are equal it compares the distances. *)
Lemma compareFacilities_by_distance (needTypes : list string) (a b : Facility) :
  priorityScore needTypes a = priorityScore needTypes b ->
  compareFacilities needTypes a b = compareDistance (distance a) (distance b).
Proof.
  unfold compareFacilities, priorityScore.
  destruct (JS.arrayIncludes needTypes "emergency"); [|reflexivity].
  intros Heq. apply Z.eqb_eq in Heq. rewrite Heq. reflexivity.
Qed.

Lemma inOrder_score (needTypes : list string) (a b : Facility) :
  JS.inOrder (compareFacilities needTypes) a b ->
  priorityScore needTypes b <= priorityScore needTypes a.
Proof.
  unfold JS.inOrder. intros H.
  destruct (Z.eq_dec (priorityScore needTypes a) (priorityScore needTypes b)) as [Heq|Hne].
  - lia.
  - rewrite compareFacilities_by_score in H by exact Hne. lia.
Qed.

Lemma inOrder_distance (needTypes : list string) (a b : Facility) (x y : Z) :
  JS.inOrder (compareFacilities needTypes) a b ->
  priorityScore needTypes a = priorityScore needTypes b ->
  knownMiles a = Some x -> knownMiles b = Some y ->
  x <= y.
Proof.
  unfold JS.inOrder. intros H Heq Ha Hb.
  rewrite compareFacilities_by_distance, (compareDistance_known a b x y Ha Hb) in H
    by exact Heq.
  lia.
Qed.

Lemma Sorted_weaken {A : Type} (R1 R2 : A -> A -> Prop) (l : list A) :
  (forall x y, R1 x y -> R2 x y) -> Sorted R1 l -> Sorted R2 l.
Proof.
  intros Himp. induction 1 as [|x l Hs IH Hhd]; constructor; [exact IH|].
  destruct Hhd; constructor. auto.
Qed.

Lemma StronglySorted_filter_bool {A : Type} (R : A -> A -> Prop) (p : A -> bool)
  (l : list A) :
  StronglySorted R l -> StronglySorted R (List.filter p l).
Proof.
  induction 1 as [|x l Hs IH Hall]; simpl; [constructor|].
  destruct (p x); [|exact IH].
  constructor; [exact IH|].
  apply List.Forall_forall. intros y Hy. apply List.filter_In in Hy as [Hy _].
  rewrite List.Forall_forall in Hall. auto.
Qed.

(** The scores never increase along the sorted array. *)
Lemma sort_scores_descending (needTypes : list string) (l : list Facility) :
  StronglySorted (fun a b => priorityScore needTypes b <= priorityScore needTypes a)
    (JS.sort (compareFacilities needTypes) l).
Proof.
  apply Sorted_StronglySorted.
  - intros a b c Hab Hbc. lia.
  - eapply Sorted_weaken; [apply inOrder_score|].
    apply sort_Sorted, compareFacilities_antisym.
Qed.

Lemma rank_scores_descending (needTypes : list string) (l : list Facility) :
  StronglySorted (fun a b => priorityScore needTypes b <= priorityScore needTypes a)
    (rankFacilities needTypes l).
Proof. apply StronglySorted_filter_bool, sort_scores_descending. Qed.

Lemma maxDistance_values (needTypes : list string) :
  maxDistance needTypes = if JS.arrayIncludes needTypes "support-groups" then 50 else 31.
Proof. reflexivity. Qed.

Lemma withinMaxDistance_known (maxMiles : Z) (facility : Facility) (n : Z) :
  0 <= maxMiles ->
  withinMaxDistance maxMiles facility = true ->
  knownMiles facility = Some n ->
  n <= 10 * maxMiles.
Proof.
  unfold withinMaxDistance, knownMiles. intros Hpos Hin Hn.
  destruct (distance facility) as [d|]; [|discriminate].
  destruct (miles d) as [m|]; [|discriminate].
  injection Hn as ->. cbn in Hin.
  destruct (Z.eqb_spec n 0) as [Hz|Hnz]; simpl in Hin; lia.
Qed.

Lemma withinMaxDistance_unknown (maxMiles : Z) (facility : Facility) :
  knownMiles facility = None -> withinMaxDistance maxMiles facility = true.
Proof.
  unfold withinMaxDistance, knownMiles.
  destruct (distance facility) as [d|]; [|reflexivity].
  destruct (miles d); [discriminate | reflexivity].
Qed.

Lemma knownMiles_no_distance (facility : Facility) :
  distance facility = None -> knownMiles facility = None.
Proof. unfold knownMiles. intros ->. reflexivity. Qed.

Lemma rank_elem_of (needTypes : list string) (l : list Facility) (f : Facility) :
  f ∈ rankFacilities needTypes l
  <-> f ∈ l /\ withinMaxDistance (maxDistance needTypes) f = true.
Proof.
  unfold rankFacilities. rewrite elem_of_filter_bool, sort_elem_of. reflexivity.
Qed.

(** The comparator of [src/server.js]. *)
Lemma compareFacilitiesOlder_antisym (needTypes : list string) (a b : Facility) :
  0 < compareFacilitiesOlder needTypes a b -> compareFacilitiesOlder needTypes b a <= 0.
Proof.
  unfold compareFacilitiesOlder.
  destruct (JS.arrayIncludes needTypes "emergency"); [|apply compareDistance_antisym].
  destruct (Z.eqb_spec (emergencyScoreOlder (lowerName (place a)))
              (emergencyScoreOlder (lowerName (place b)))) as [Heq|Hne]; simpl.
  - rewrite Heq, Z.eqb_refl. simpl. apply compareDistance_antisym.
  - destruct (Z.eqb_spec (emergencyScoreOlder (lowerName (place b)))
                (emergencyScoreOlder (lowerName (place a)))); simpl; [congruence | lia].
Qed.

Lemma compareFacilitiesOlder_by_score (needTypes : list string) (a b : Facility) :
  priorityScoreOlder needTypes a <> priorityScoreOlder needTypes b ->
  compareFacilitiesOlder needTypes a b
  = priorityScoreOlder needTypes b - priorityScoreOlder needTypes a.
Proof.
  unfold compareFacilitiesOlder, priorityScoreOlder.
  destruct (JS.arrayIncludes needTypes "emergency"); [|congruence].
  intros Hne. apply Z.eqb_neq in Hne. rewrite Hne. reflexivity.
Qed.

Lemma inOrder_scoreOlder (needTypes : list string) (a b : Facility) :
  JS.inOrder (compareFacilitiesOlder needTypes) a b ->
  priorityScoreOlder needTypes b <= priorityScoreOlder needTypes a.
Proof.
  unfold JS.inOrder. intros H.
  destruct (Z.eq_dec (priorityScoreOlder needTypes a) (priorityScoreOlder needTypes b))
    as [Heq|Hne].
  - lia.
  - rewrite compareFacilitiesOlder_by_score in H by exact Hne. lia.
Qed.

Lemma rankOlder_scores_descending (needTypes : list string) (l : list Facility) :
  StronglySorted
    (fun a b => priorityScoreOlder needTypes b <= priorityScoreOlder needTypes a)
    (rankFacilitiesOlder needTypes l).
Proof.
  apply StronglySorted_filter_bool, Sorted_StronglySorted.
  - intros a b c Hab Hbc. lia.
  - eapply Sorted_weaken; [apply inOrder_scoreOlder|].
    apply sort_Sorted, compareFacilitiesOlder_antisym.
Qed.

Lemma rankOlder_elem_of (needTypes : list string) (l : list Facility) (f : Facility) :
  f ∈ rankFacilitiesOlder needTypes l
  <-> f ∈ l /\ withinMaxDistance (maxDistance needTypes) f = true.
Proof.
  unfold rankFacilitiesOlder. rewrite elem_of_filter_bool, sort_elem_of. reflexivity.
Qed.

End Ranking.

Section Pipeline.
#[local] Open Scope list_scope.
#[local] Open Scope Z_scope.

Variable encodeURIComponent : string -> string.
Variable numberToString : float -> string.
Variable calculateDistance : float -> float -> float -> float -> DistanceUnit -> Rounded.

#[local] Abbreviation addDetails' :=
  (addDetails encodeURIComponent numberToString calculateDistance).
#[local] Abbreviation getRealFacilities' :=
  (getRealFacilities encodeURIComponent numberToString calculateDistance).

#[local] Abbreviation getRealFacilitiesOlder' :=
  (getRealFacilitiesOlder encodeURIComponent numberToString calculateDistance).

(** C2. With the radius of the request, 31 miles, or 50 when
    [support-groups] is among the need types, no facility of the final
    result has a known distance above the radius, and every facility that
    passed the relevance filter and has no known distance is in the final
    result.  A distance is known when the facility has distance data and the
    distance is a number; a facility has no distance data when the user or
    the place could not be located.  The same holds in [src/server.js]. *)
Theorem radius_cutoff
  (location : string) (needTypes : list string)
  (userCoords : option GeoPoint) (allFacilities : list Place) :
  let radius := if JS.arrayIncludes needTypes "support-groups" then 50 else 31 in
  let passed := filterFacilitiesByServiceType (removeDuplicates allFacilities) needTypes in
  let retained finalResults :=
    (forall facility n,
        facility ∈ finalResults -> knownMiles facility = Some n -> n <= 10 * radius)
    /\ (forall place,
          place ∈ passed ->
          knownMiles (addDetails' location userCoords place) = None ->
          addDetails' location userCoords place ∈ finalResults)
    /\ (forall place,
          place ∈ passed ->
          userCoords = None \/ locationOf place = None ->
          addDetails' location userCoords place ∈ finalResults) in
  retained (getRealFacilities' location needTypes userCoords allFacilities)
  /\ retained (getRealFacilitiesOlder' location needTypes userCoords allFacilities).
Proof.
  cbv zeta.
  assert (Hradius : 0 <= maxDistance needTypes)
    by (unfold maxDistance; destruct (JS.arrayIncludes needTypes "support-groups"); lia).
  assert (Hno : forall place,
             userCoords = None \/ locationOf place = None ->
             knownMiles (addDetails' location userCoords place) = None).
  { intros place Hnone. apply knownMiles_no_distance. cbn [addDetails distance].
    destruct Hnone as [-> | ->]; [reflexivity | by destruct userCoords]. }
  split.
  - unfold getRealFacilities. split; [|split].
    + intros facility n Hin Hn.
      apply rank_elem_of in Hin as [_ Hwithin].
      rewrite <- maxDistance_values.
      by apply (withinMaxDistance_known _ facility).
    + intros place Hin Hnone.
      apply rank_elem_of. split.
      * apply list_elem_of_fmap. exists place. split; [reflexivity | exact Hin].
      * apply withinMaxDistance_unknown, Hnone.
    + intros place Hin Hnone.
      apply rank_elem_of. split.
      * apply list_elem_of_fmap. exists place. split; [reflexivity | exact Hin].
      * apply withinMaxDistance_unknown, Hno, Hnone.
  - unfold getRealFacilitiesOlder. split; [|split].
    + intros facility n Hin Hn.
      apply rankOlder_elem_of in Hin as [_ Hwithin].
      rewrite <- maxDistance_values.
      by apply (withinMaxDistance_known _ facility).
    + intros place Hin Hnone.
      apply rankOlder_elem_of. split.
      * apply list_elem_of_fmap. exists place. split; [reflexivity | exact Hin].
      * apply withinMaxDistance_unknown, Hnone.
    + intros place Hin Hnone.
      apply rankOlder_elem_of. split.
      * apply list_elem_of_fmap. exists place. split; [reflexivity | exact Hin].
      * apply withinMaxDistance_unknown, Hno, Hnone.
Qed.

Lemma wordsFrom_includes (s current w : string) :
  In w (wordsFrom current s) -> JS.includes (current ++ s)%string w = true.
Proof.
  revert current. induction s as [|c r IH]; intros current; cbn [wordsFrom].
  - intros [<- | []]. apply includes_split. exists "", "". reflexivity.
  - destruct (Ascii.eqb c " ").
    + intros [<- | Hin].
      * apply includes_split. exists "", (String c r). reflexivity.
      * apply (IH "") in Hin. apply includes_split in Hin as (pre & post & Hr).
        change ("" ++ r)%string with r in Hr.
        apply includes_split. exists (current ++ String c pre)%string, post.
        rewrite Hr, append_assoc, append_cons. reflexivity.
    + intros Hin. apply IH in Hin.
      rewrite append_assoc, append_cons in Hin. exact Hin.
Qed.

(** A name with the word [ent] has the letters [ent]. *)
Lemma entQualified_includes_ent (name : string) :
  entQualified name = true -> JS.includes name "ent" = true.
Proof.
  unfold entQualified, words. intros H.
  apply existsb_exists in H as (w & Hin & Heq).
  apply String.eqb_eq in Heq. subst w.
  apply wordsFrom_includes in Hin. exact Hin.
Qed.

Lemma emergencyScore_sum (name : string) :
  emergencyScore name
  = (if JS.includes name "stroke" then 10 else 0)
    + hospitalPoints name
    + (if JS.includes name "trauma" then 7 else 0)
    + (if JS.includes name "emergency" && negb (JS.includes name "urgent") then 6 else 0)
    + (if JS.includes name "urgent" then 3 else 0).
Proof. unfold emergencyScore. cbv zeta. lia. Qed.

Lemma hospitalPoints_values (name : string) :
  hospitalPoints name = 8 \/ hospitalPoints name = 0.
Proof. unfold hospitalPoints. destruct (_ && _); [left | right]; reflexivity. Qed.

(** The points are given only to a hospital or medical center that is
    neither urgent care nor one of the four specialties. *)
Lemma hospitalPoints_only_if (name : string) :
  hospitalPoints name = 8 ->
  JS.includes name "hospital" || JS.includes name "medical center" = true
  /\ JS.includes name "urgent" = false
  /\ JS.includes name "eye" = false
  /\ JS.includes name "dental" = false
  /\ JS.includes name "skin" = false
  /\ entQualified name = false.
Proof.
  unfold hospitalPoints.
  destruct (_ && _) eqn:Hcond; [|discriminate]. intros _.
  rewrite !andb_true_iff, !negb_true_iff in Hcond.
  destruct Hcond as [[[[[Hh Hu] He] Hd] Hs] Hent].
  repeat split; try assumption.
  destruct (entQualified name) eqn:Hq; [|reflexivity].
  apply entQualified_includes_ent in Hq. congruence.
Qed.

(** They are given to every such name without the letters [ent]. *)
Lemma hospitalPoints_if (name : string) :
  JS.includes name "ent" = false ->
  JS.includes name "hospital" || JS.includes name "medical center" = true ->
  JS.includes name "eye" = false ->
  JS.includes name "dental" = false ->
  JS.includes name "skin" = false ->
  hospitalPoints name = 8.
Proof.
  intros Hent Hh He Hd Hs. unfold hospitalPoints.
  destruct (JS.includes name "urgent") eqn:Hu.
  - apply urgent_includes_ent in Hu. congruence.
  - rewrite Hh, He, Hd, Hs, Hent. reflexivity.
Qed.

Lemma emergencyScoreOlder_sum (name : string) :
  emergencyScoreOlder name
  = (if JS.includes name "stroke" then 10 else 0)
    + hospitalPointsOlder name
    + (if JS.includes name "trauma" then 7 else 0)
    + (if JS.includes name "emergency" && negb (JS.includes name "urgent") then 6 else 0)
    + (if JS.includes name "urgent" then 3 else 0).
Proof. unfold emergencyScoreOlder. cbv zeta. lia. Qed.

(** In [src/server.js] the points go to the hospitals and medical centers
    that are not urgent care, whatever their specialty. *)
Lemma hospitalPointsOlder_iff (name : string) :
  (hospitalPointsOlder name = 8
   <-> JS.includes name "hospital" || JS.includes name "medical center" = true
       /\ JS.includes name "urgent" = false)
  /\ (hospitalPointsOlder name = 8 \/ hospitalPointsOlder name = 0).
Proof.
  unfold hospitalPointsOlder.
  destruct (JS.includes name "hospital" || JS.includes name "medical center"),
    (JS.includes name "urgent"); cbn; intuition (try discriminate; try lia).
Qed.

(** C3, amended. When [emergency] is requested, the score the comparator
    ranks a candidate by is the sum of the contributions for [stroke] (10),
    [trauma] (7), [emergency] without [urgent] (6) and [urgent] (3), computed
    from the lowered name, and of the 8 points for a hospital.  In the
    current router these are given only to a name that contains [hospital]
    or [medical center] and none of [urgent], [eye], [dental], [skin], and
    that is not ENT-qualified; they are given to every such name in which
    the letters [ent] do not occur.  In [src/server.js] they are given to
    exactly the names that contain [hospital] or [medical center] and not
    [urgent], whatever the specialty.  In both, the scores never increase
    along the ranked output. *)
Theorem emergency_ranking_by_score
  (location : string) (needTypes : list string)
  (userCoords : option GeoPoint) (allFacilities : list Place) :
  JS.arrayIncludes needTypes "emergency" = true ->
  ((forall facility,
       let name := lowerName (place facility) in
       priorityScore needTypes facility
       = (if JS.includes name "stroke" then 10 else 0)
         + hospitalPoints name
         + (if JS.includes name "trauma" then 7 else 0)
         + (if JS.includes name "emergency" && negb (JS.includes name "urgent")
            then 6 else 0)
         + (if JS.includes name "urgent" then 3 else 0))
   /\ (forall name, hospitalPoints name = 8 \/ hospitalPoints name = 0)
   /\ (forall name,
         hospitalPoints name = 8 ->
         JS.includes name "hospital" || JS.includes name "medical center" = true
         /\ JS.includes name "urgent" = false
         /\ JS.includes name "eye" = false
         /\ JS.includes name "dental" = false
         /\ JS.includes name "skin" = false
         /\ entQualified name = false)
   /\ (forall name,
         JS.includes name "ent" = false ->
         JS.includes name "hospital" || JS.includes name "medical center" = true ->
         JS.includes name "eye" = false ->
         JS.includes name "dental" = false ->
         JS.includes name "skin" = false ->
         hospitalPoints name = 8)
   /\ (forall a b,
         priorityScore needTypes a <> priorityScore needTypes b ->
         compareFacilities needTypes a b
         = priorityScore needTypes b - priorityScore needTypes a)
   /\ StronglySorted
        (fun a b => priorityScore needTypes b <= priorityScore needTypes a)
        (getRealFacilities' location needTypes userCoords allFacilities))
  /\ ((forall facility,
         let name := lowerName (place facility) in
         priorityScoreOlder needTypes facility
         = (if JS.includes name "stroke" then 10 else 0)
           + hospitalPointsOlder name
           + (if JS.includes name "trauma" then 7 else 0)
           + (if JS.includes name "emergency" && negb (JS.includes name "urgent")
              then 6 else 0)
           + (if JS.includes name "urgent" then 3 else 0))
      /\ (forall name, hospitalPointsOlder name = 8 \/ hospitalPointsOlder name = 0)
      /\ (forall name,
            hospitalPointsOlder name = 8
            <-> JS.includes name "hospital" || JS.includes name "medical center" = true
                /\ JS.includes name "urgent" = false)
      /\ (forall a b,
            priorityScoreOlder needTypes a <> priorityScoreOlder needTypes b ->
            compareFacilitiesOlder needTypes a b
            = priorityScoreOlder needTypes b - priorityScoreOlder needTypes a)
      /\ StronglySorted
           (fun a b => priorityScoreOlder needTypes b <= priorityScoreOlder needTypes a)
           (getRealFacilitiesOlder' location needTypes userCoords allFacilities)).
Proof.
  intros Hemergency. split; repeat apply conj.
  - intros facility. cbv zeta. unfold priorityScore. rewrite Hemergency.
    apply emergencyScore_sum.
  - apply hospitalPoints_values.
  - apply hospitalPoints_only_if.
  - apply hospitalPoints_if.
  - apply compareFacilities_by_score.
  - unfold getRealFacilities. apply rank_scores_descending.
  - intros facility. cbv zeta. unfold priorityScoreOlder. rewrite Hemergency.
    apply emergencyScoreOlder_sum.
  - intros name. apply hospitalPointsOlder_iff.
  - intros name. apply hospitalPointsOlder_iff.
  - apply compareFacilitiesOlder_by_score.
  - unfold getRealFacilitiesOlder. apply rankOlder_scores_descending.
Qed.

End Pipeline.

Lemma emergency_ranking_by_score_witness :
  JS.arrayIncludes ["emergency"] "emergency" = true
  /\ priorityScore ["emergency"] (withoutDistance cityHospital) = 8%Z
  /\ priorityScoreOlder ["emergency"] (withoutDistance nepalEyeHospital) = 8%Z
  /\ StronglySorted
       (fun a b => priorityScore ["emergency"] b <= priorityScore ["emergency"] a)%Z
       (getRealFacilities sampleEncode sampleNumberToString sampleDistance
          "Kathmandu" ["emergency"] (Some kathmandu)
          [nepalEyeHospital; cityHospital; vetClinic; strokeRehab]).
Proof.
  split; [reflexivity|]. split; [reflexivity|]. split; [reflexivity|].
  apply (emergency_ranking_by_score sampleEncode sampleNumberToString sampleDistance
           "Kathmandu" ["emergency"] (Some kathmandu)
           [nepalEyeHospital; cityHospital; vetClinic; strokeRehab]).
  reflexivity.
Defined.

(** C3, as the specification states it, fails: its table gives an urgent-care
    hospital 8 points for the hospital and 3 for [urgent]; the comparator
    withholds the 8 from every name that contains [urgent], in the current
    router and in [src/server.js] alike. *)
Lemma urgent_hospital_gets_no_hospital_points :
  let name := lowerName urgentCareHospital in
  JS.includes name "hospital" = true
  /\ entQualified name = false
  /\ specifiedEmergencyScore name = 11%Z
  /\ emergencyScore name = 3%Z
  /\ emergencyScoreOlder name = 3%Z
  /\ priorityScore ["emergency"] (withoutDistance urgentCareHospital) = 3%Z
  /\ priorityScoreOlder ["emergency"] (withoutDistance urgentCareHospital) = 3%Z.
Proof. cbv zeta. repeat split; vm_compute; reflexivity. Qed.

(** The test for ear-nose-throat hospitals, [!aName.includes('ent')], is
    true of no name that contains [center], nor of many others: a medical
    center gets no points for the hospital, where the table and the older
    copies of the router give it 8, and an urgent-care clinic five miles away
    is ranked ahead of a medical center one mile away. *)
Example medical_center_gets_no_hospital_points :
  JS.includes (lowerName medicalCenter) "medical center" = true
  /\ entQualified (lowerName medicalCenter) = false
  /\ specifiedEmergencyScore (lowerName medicalCenter) = 8%Z
  /\ emergencyScore (lowerName medicalCenter) = 0%Z
  /\ emergencyScoreOlder (lowerName medicalCenter) = 8%Z
  /\ emergencyScore (lowerName urgentCare) = 3%Z
  /\ rankFacilities ["emergency"]
       [withDistance medicalCenter 10; withDistance urgentCare 50]
     = [withDistance urgentCare 50; withDistance medicalCenter 10].
Proof. repeat split; vm_compute; reflexivity. Qed.

(** The older copies give the hospital points to a single-specialty
    hospital as well. *)
Example emergencyScoreOlder_ignores_specialty :
  emergencyScore "nepal eye hospital" = 0%Z
  /\ emergencyScoreOlder "nepal eye hospital" = 8%Z.
Proof. split; reflexivity. Qed.


(** ** Ties: distance, missing distance, stability *)

Section Ties.
#[local] Open Scope list_scope.
#[local] Open Scope Z_scope.

Variable needTypes : list string.

#[local] Abbreviation compare := (compareFacilities needTypes).
#[local] Abbreviation score := (priorityScore needTypes).

(** Along a run of neighbours in order that all have the same score and all
    have a known distance, the distance does not decrease. *)
Lemma equal_score_run_ascending
  (s : Z) (between after : list Facility) (a b : Facility) (x y : Z) :
  Sorted (JS.inOrder compare) (a :: between ++ b :: after) ->
  (forall f, f ∈ between -> score f = s /\ knownMiles f <> None) ->
  score a = s -> score b = s ->
  knownMiles a = Some x -> knownMiles b = Some y ->
  x <= y.
Proof.
  revert a x. induction between as [|c between IH]; intros a x Hs Hbetween Ha Hb Hx Hy.
  - simpl in Hs. apply Sorted_inv in Hs as [_ Hhd]. apply HdRel_inv in Hhd.
    eapply inOrder_distance; [exact Hhd | congruence | exact Hx | exact Hy].
  - simpl in Hs. apply Sorted_inv in Hs as [Hs Hhd]. apply HdRel_inv in Hhd.
    destruct (Hbetween c) as [Hc Hdc]; [left|].
    destruct (knownMiles c) as [z|] eqn:Ez; [|congruence].
    assert (x <= z)
      by (eapply inOrder_distance; [exact Hhd | congruence | exact Hx | exact Ez]).
    assert (z <= y).
    { eapply (IH c z); [exact Hs | | exact Hc | exact Hb | exact Ez | exact Hy].
      intros f Hf. apply Hbetween. right. exact Hf. }
    lia.
Qed.

(** Between two elements of equal score of a list with descending scores,
    every element has that score. *)
Lemma equal_score_squeeze
  (before between after : list Facility) (a b f : Facility) :
  StronglySorted (fun x y => score y <= score x)
    (before ++ a :: between ++ b :: after) ->
  score a = score b -> f ∈ between -> score f = score a.
Proof.
  intros Hs Heq Hf.
  apply StronglySorted_app in Hs as (_ & _ & Hs).
  apply StronglySorted_inv in Hs as [Hs Ha].
  rewrite List.Forall_forall in Ha.
  assert (score f <= score a).
  { apply Ha. apply list_elem_of_In, elem_of_app. left. exact Hf. }
  apply StronglySorted_app in Hs as (Hcross & _ & _).
  assert (score b <= score f) by (apply Hcross; [exact Hf | left]).
  lia.
Qed.

Lemma filter_filter_bool {A : Type} (p q : A -> bool) (l : list A) :
  List.filter p (List.filter q l) = List.filter (fun x => q x && p x) l.
Proof.
  induction l as [|x l IH]; simpl; [reflexivity|].
  destruct (q x); simpl; [destruct (p x)|]; rewrite IH; reflexivity.
Qed.

(** Two candidates of equal score stand in ascending order of distance
    when every candidate of that score has a known distance. *)
Lemma equal_score_ascending (facilities before between after : list Facility)
  (a b : Facility) (x y : Z) :
  rankFacilities needTypes facilities = before ++ a :: between ++ b :: after ->
  score a = score b ->
  (forall f, f ∈ facilities -> score f = score a -> knownMiles f <> None) ->
  knownMiles a = Some x -> knownMiles b = Some y ->
  x <= y.
Proof.
  unfold rankFacilities. intros Hranked Hscore Hall Hx Hy.
  pose proof (filter_sublist (withinMaxDistance (maxDistance needTypes))
                (JS.sort compare facilities)) as Hsub.
  rewrite Hranked in Hsub.
  apply sublist_app_l in Hsub as (k1 & k2 & Hsorted & _ & Hsub).
  apply sublist_cons_l in Hsub as (k3 & k4 & -> & Hsub).
  apply sublist_app_l in Hsub as (k5 & k6 & -> & _ & Hsub).
  apply sublist_cons_l in Hsub as (k7 & k8 & -> & _).
  assert (Hshape : JS.sort compare facilities
                   = (k1 ++ k3) ++ a :: (k5 ++ k7) ++ b :: k8).
  { rewrite Hsorted, <- !app_assoc. reflexivity. }
  pose proof (sort_scores_descending needTypes facilities) as Hdesc.
  pose proof (sort_Sorted compare (compareFacilities_antisym needTypes) facilities)
    as Hlocal.
  rewrite Hshape in Hdesc, Hlocal.
  apply Sorted_app_r in Hlocal.
  eapply (equal_score_run_ascending (score a) (k5 ++ k7) k8 a b x y);
    [exact Hlocal | | reflexivity | congruence | exact Hx | exact Hy].
  intros f Hf.
  assert (Hsf : score f = score a)
    by (eapply equal_score_squeeze; [exact Hdesc | exact Hscore | exact Hf]).
  split; [exact Hsf|].
  apply Hall; [|exact Hsf].
  apply (sort_elem_of compare). rewrite Hshape.
  apply elem_of_app. right. right. apply elem_of_app. left. exact Hf.
Qed.

Lemma sameRank_tie (s : Z) (d : option Z) (a b : Facility) :
  sameRank needTypes s d a = true -> sameRank needTypes s d b = true ->
  compare a b <= 0.
Proof.
  unfold sameRank. rewrite !andb_true_iff, !Z.eqb_eq, !bool_decide_eq_true.
  intros [Hsa Hda] [Hsb Hdb].
  rewrite compareFacilities_by_distance by congruence.
  destruct d as [n|].
  - rewrite (compareDistance_known a b n n Hda Hdb). lia.
  - rewrite (compareDistance_unknown a b (or_introl Hda)). lia.
Qed.

(** C4, amended. A candidate without a known distance, one that has no
    distance data or whose distance is not a number, ties with every
    candidate of its score: the comparator does not ask for it to come after
    the ones that have a known distance.  When, within each score, either
    every candidate has a known distance or none has, the ranked output is in
    descending order of score, candidates of equal score are in ascending
    order of distance, and candidates equal in both keep their input order:
    the sort is stable. *)
Theorem ranking_breaks_ties_by_distance (facilities : list Facility) :
  let ranked := rankFacilities needTypes facilities in
  let cut := List.filter (withinMaxDistance (maxDistance needTypes)) in
  (forall a b,
      score a = score b -> knownMiles a = None \/ knownMiles b = None ->
      compare a b = 0 /\ compare b a = 0)
  /\ ((forall a b,
         a ∈ facilities -> b ∈ facilities -> score a = score b ->
         knownMiles a = None -> knownMiles b = None) ->
      (forall before a between b after,
          ranked = before ++ a :: between ++ b :: after ->
          score b <= score a
          /\ (score a = score b -> compareDistance (distance a) (distance b) <= 0))
      /\ (forall s d,
            List.filter (sameRank needTypes s d) ranked
            = List.filter (sameRank needTypes s d) (cut facilities))).
Proof.
  cbv zeta. split; [|intros Hconsistent; split].
  - intros a b Hscore Hnone.
    rewrite !compareFacilities_by_distance by congruence.
    rewrite (compareDistance_unknown a b Hnone).
    rewrite (compareDistance_unknown b a) by tauto. split; reflexivity.
  - intros before a between b after Hranked. split.
    + pose proof (rank_scores_descending needTypes facilities) as Hdesc.
      rewrite Hranked in Hdesc.
      apply StronglySorted_app in Hdesc as (_ & _ & Hdesc).
      apply StronglySorted_inv in Hdesc as [_ Ha].
      rewrite List.Forall_forall in Ha. apply Ha.
      apply list_elem_of_In, elem_of_app. right. left.
    + intros Hscore.
      destruct (knownMiles a) as [x|] eqn:Hx;
        [|rewrite (compareDistance_unknown a b (or_introl Hx)); lia].
      destruct (knownMiles b) as [y|] eqn:Hy;
        [|rewrite (compareDistance_unknown a b (or_intror Hy)); lia].
      rewrite (compareDistance_known a b x y Hx Hy).
      assert (x <= y); [|lia].
      eapply (equal_score_ascending facilities before between after a b x y);
        try eassumption.
      intros f Hf Hsf Hnone.
      assert (Ha : a ∈ facilities).
      { apply (rank_elem_of needTypes facilities a). rewrite Hranked.
        apply elem_of_app. right. left. }
      rewrite (Hconsistent f a Hf Ha Hsf Hnone) in Hx. discriminate.
  - intros s d. unfold rankFacilities. rewrite !filter_filter_bool.
    apply sort_stable. intros a b Ha Hb.
    apply andb_true_iff in Ha as [_ Ha]. apply andb_true_iff in Hb as [_ Hb].
    eapply sameRank_tie; eassumption.
Qed.

End Ties.

(** C4, as the specification states it, fails: two hospitals with the same
    score, the first without distance data and the second with, stay in
    that order.  The comparator returns 0 for the pair either way, so every
    conforming sort leaves them as they are. *)
Lemma facility_without_distance_stays_ahead :
  let first := withoutDistance cityHospitalNoCoords in
  let second := withDistance civilServiceHospital 12 in
  priorityScore ["emergency"] first = priorityScore ["emergency"] second
  /\ distance first = None
  /\ distance second <> None
  /\ compareFacilities ["emergency"] first second = 0%Z
  /\ compareFacilities ["emergency"] second first = 0%Z
  /\ rankFacilities ["emergency"] [first; second] = [first; second]
  /\ distance <$> getRealFacilities sampleEncode sampleNumberToString sampleDistance
                    "Kathmandu" ["emergency"] (Some kathmandu)
                    [cityHospitalNoCoords; civilServiceHospital]
     = [None; Some {| km := Tenths 19; miles := Tenths 12 |}].
Proof. cbv zeta. repeat split; try discriminate; vm_compute; reflexivity. Qed.

(** The theorem at work on a list where every candidate has distance data:
    score first, then distance, then input order. *)
Example ranking_with_distances :
  lowerName <$> (place <$>
    rankFacilities ["emergency"]
      [withDistance civilServiceHospital 50; withDistance nepalEyeHospital 5;
       withDistance cityHospital 12; withDistance cityHospitalUpper 12;
       withDistance urgentCare 400])
  = ["city hospital"; "city hospital"; "civil service hospital"; "nepal eye hospital"]
  /\ displayName <$> (place <$>
        rankFacilities ["emergency"]
          [withDistance cityHospital 12; withDistance cityHospitalUpper 12])
      = [Some "City Hospital"; Some "CITY HOSPITAL"].
Proof. split; vm_compute; reflexivity. Qed.

(** ** Enrichment *)

Lemma manualOverride_emergency (needTypes : list string) (name : string) :
  JS.arrayIncludes needTypes "emergency" = true ->
  isSingleSpecialty name = true ->
  manualOverride needTypes name
  = Some (specialtyOverride "Specialty hospital - not equipped for stroke emergencies").
Proof.
  unfold manualOverride, isSingleSpecialty. intros -> Hspecialty. simpl.
  replace (JS.includes name "eye" || JS.includes name "dental" || JS.includes name "skin"
           || JS.includes name "ent" || JS.includes name "dermat"
           || JS.includes name "ophthalm") with true; [reflexivity|].
  rewrite Hspecialty. reflexivity.
Qed.

Lemma manualOverride_placeKeys (needTypes : list string) (name : string)
  (override : Insights) :
  manualOverride needTypes name = Some override -> placeKeys override = noPlaceKeys.
Proof. unfold manualOverride. repeat case_match; intros [= <-]; reflexivity. Qed.

Lemma placeKeys_applyPatterns (aiAnalysis : option AIAnalysis) (facilityType : string)
  (i : Insights) :
  placeKeys (applyPatterns aiAnalysis facilityType i) = placeKeys i.
Proof. unfold applyPatterns. by repeat case_match. Qed.

Lemma placeKeys_emergencyRules (needTypes : list string) (name facilityType : string)
  (i : Insights) :
  placeKeys (emergencyRules needTypes name facilityType i) = placeKeys i.
Proof. unfold emergencyRules. by repeat case_match. Qed.

Lemma placeKeys_therapyRules (needTypes : list string) (name facilityType : string)
  (i : Insights) :
  placeKeys (therapyRules needTypes name facilityType i) = placeKeys i.
Proof. unfold therapyRules. by repeat case_match. Qed.

Lemma placeKeys_defaultLanguage (languageContext : string) (i : Insights) :
  placeKeys (defaultLanguage languageContext i) = placeKeys i.
Proof. unfold defaultLanguage. by repeat case_match. Qed.

(** A record the code builds itself has none of the response's own keys. *)
Lemma applyAIInsights_placeKeys (needTypes : list string) (languageContext : string)
  (aiAnalysis : option AIAnalysis) (facility : Place) (index : nat) :
  is_Some (manualOverride needTypes
             (JS.toLowerCase (default "" (displayName facility))))
  \/ directAnalysis aiAnalysis index = None ->
  placeKeys (applyAIInsights needTypes languageContext aiAnalysis facility index)
  = noPlaceKeys.
Proof.
  intros Hown. unfold applyAIInsights.
  destruct (manualOverride needTypes _) as [override|] eqn:Hoverride.
  - by apply manualOverride_placeKeys in Hoverride.
  - destruct Hown as [Hsome | ->]; [by apply is_Some_None in Hsome|].
    unfold patternInsights.
    by rewrite placeKeys_defaultLanguage, placeKeys_therapyRules,
      placeKeys_emergencyRules, placeKeys_applyPatterns.
Qed.

(** Its entry in the response then has the properties of the place. *)
Lemma enhanceFacility_fromPlace (needTypes : list string) (languageContext : string)
  (aiAnalysis : option AIAnalysis) (index : nat) (facility : Facility) :
  placeKeys (applyAIInsights needTypes languageContext aiAnalysis (place facility) index)
  = noPlaceKeys ->
  let enhanced := enhanceFacility needTypes languageContext aiAnalysis index facility in
  name enhanced = JS.orElse (displayName (place facility)) "Unknown"
  /\ address enhanced
     = JS.orElse (formattedAddress (place facility)) "Address not available"
  /\ enhancedDistance enhanced = distance facility
  /\ enhancedDirections enhanced = directions facility.
Proof.
  intros Hkeys. cbv zeta. unfold enhanceFacility, spread. rewrite Hkeys. by cbn.
Qed.

Lemma lowerName_default (facility : Place) :
  lowerName facility = JS.toLowerCase (default "" (displayName facility)).
Proof. unfold lowerName. by destruct (displayName facility). Qed.

(** C7, amended. In the current router, when [emergency] is requested,
    every facility that the place search names with one of the
    single-specialty words (eye, dental, skin, ent), a facility named
    [Nepal Eye Hospital] among them, is listed under its own name with
    [medical_relevance = "Low"], and its entry is the one it has when the
    generative call failed: what the generative service returned makes no
    difference.  [src/server.js] and the intermediate router have no such
    override: there a facility that the generative service gave a record for
    carries the rating of that record, whatever its name. *)
Theorem single_specialty_is_low
  (realFacilities : list Facility) (needTypes : list string)
  (language detectedLocalLanguage : string) (aiAnalysis : option AIAnalysis)
  (index : nat) (facility : Facility) :
  JS.arrayIncludes needTypes "emergency" = true ->
  realFacilities !! index = Some facility ->
  isSingleSpecialty (lowerName (place facility)) = true ->
  (exists enhanced,
      facilities (enhanceWithChatGPT realFacilities needTypes language
                    detectedLocalLanguage aiAnalysis) !! index = Some enhanced
      /\ name enhanced = JS.orElse (displayName (place facility)) "Unknown"
      /\ medical_relevance (insights enhanced) = Some "Low"
      /\ facilities (enhanceWithChatGPT realFacilities needTypes language
                       detectedLocalLanguage None) !! index = Some enhanced)
  /\ (forall direct languageContext,
        directAnalysis aiAnalysis index = Some direct ->
        applyAIInsightsIntermediate needTypes languageContext aiAnalysis
          (place facility) index = direct
        /\ medical_relevance (mergeInsightsOlder aiAnalysis index)
           = Some (JS.orElse (medical_relevance direct) "Medium")).
Proof.
  intros Hemergency Hlookup Hspecialty. rewrite lowerName_default in Hspecialty.
  pose proof (manualOverride_emergency _ _ Hemergency Hspecialty) as Hoverride.
  split.
  - unfold enhanceWithChatGPT.
    destruct realFacilities as [|first rest]; [discriminate Hlookup|].
    cbn [facilities]. rewrite !list_lookup_imap, Hlookup. cbn [fmap option_fmap option_map].
    eexists. split; [reflexivity|].
    assert (Hinsights : forall analysis,
               applyAIInsights needTypes
                 (if String.eqb language "local" then detectedLocalLanguage else language)
                 analysis (place facility) index
               = specialtyOverride
                   "Specialty hospital - not equipped for stroke emergencies").
    { intros analysis. unfold applyAIInsights. by rewrite Hoverride. }
    unfold enhanceFacility. rewrite !Hinsights. repeat split.
  - intros direct languageContext Hdirect. split.
    + unfold applyAIInsightsIntermediate. by rewrite Hdirect.
    + destruct aiAnalysis as [analysis|]; [|discriminate Hdirect].
      cbn [mergeInsightsOlder medical_relevance]. by rewrite Hdirect.
Qed.

Lemma single_specialty_is_low_witness :
  JS.arrayIncludes ["emergency"] "emergency" = true
  /\ directAnalysis (Some flatteringAnalysis) 0
     = Some (mkInsights "High" "Confirmed" "" "Excellent" "Hospital" "hospital")
  /\ exists enhanced,
       facilities (enhanceWithChatGPT [withDistance nepalEyeHospital 12] ["emergency"]
                     "local" "ne" (Some flatteringAnalysis)) !! 0%nat = Some enhanced
       /\ name enhanced = "Nepal Eye Hospital"
       /\ medical_relevance (insights enhanced) = Some "Low".
Proof.
  split; [reflexivity|]. split; [reflexivity|].
  destruct (single_specialty_is_low [withDistance nepalEyeHospital 12] ["emergency"]
              "local" "ne" (Some flatteringAnalysis) 0 (withDistance nepalEyeHospital 12)
              eq_refl eq_refl eq_refl)
    as [(enhanced & Hentry & Hname & Hlow & _) _].
  exists enhanced. split; [exact Hentry|]. split; [exact Hname | exact Hlow].
Defined.

(** The same facility when the call failed. *)
Example nepal_eye_hospital_without_analysis :
  medical_relevance
    (applyAIInsights ["emergency"] "ne" None nepalEyeHospital 0) = Some "Low".
Proof. reflexivity. Qed.

(** C7, as the specification states it, fails of [src/server.js] and of the
    intermediate router, which have no override: the eye hospital gets what
    the completion says, and when the call failed [Not analyzed] in the one
    and the rating of every hospital, [High], in the other. *)
Lemma nepal_eye_hospital_older :
  isSingleSpecialty (lowerName nepalEyeHospital) = true
  /\ (olderName <$> olderFacilities
                      (enhanceWithChatGPTOlder [withDistance nepalEyeHospital 12]
                         ["emergency"] (Some flatteringAnalysis)),
      (medical_relevance ∘ olderInsights)
        <$> olderFacilities
              (enhanceWithChatGPTOlder [withDistance nepalEyeHospital 12]
                 ["emergency"] (Some flatteringAnalysis)))
     = (["Nepal Eye Hospital"], [Some "High"])
  /\ (medical_relevance ∘ olderInsights)
       <$> olderFacilities
             (enhanceWithChatGPTOlder [withDistance nepalEyeHospital 12]
                ["emergency"] None)
     = [Some "Not analyzed"]
  /\ medical_relevance
       (applyAIInsightsIntermediate ["emergency"] "ne" (Some flatteringAnalysis)
          nepalEyeHospital 0) = Some "High"
  /\ medical_relevance
       (applyAIInsightsIntermediate ["emergency"] "ne" None nepalEyeHospital 0)
     = Some "High".
Proof. repeat split; vm_compute; reflexivity. Qed.

(** In the current router the entries are matched to the facilities by
    position, and the name an entry shows need not be the facility's: an
    object of the completion that has a [name] or a [distance] of its own
    replaces the ones taken from the place. *)
Example completion_can_rename :
  let enhanced :=
    enhanceFacility ["emergency"] "ne" (Some renamingAnalysis) 0
      (withDistance cityHospital 12) in
  name enhanced = "Nepal Eye Hospital"
  /\ enhancedDistance enhanced = None
  /\ address enhanced = "1 Main St"
  /\ medical_relevance (insights enhanced) = Some "High".
Proof. cbv zeta. repeat split; vm_compute; reflexivity. Qed.

Section Provenance.

Variable needTypes : list string.
Variable languageContext : string.

Lemma ruleFields_rate (relevance specialty serviceMatch : string) (i : Insights) :
  ruleFields (rate relevance specialty serviceMatch i)
  = (Some relevance, Some serviceMatch, Some specialty, facility_type i).
Proof. reflexivity. Qed.

Lemma facility_type_ruleFields (i1 i2 : Insights) :
  ruleFields i1 = ruleFields i2 -> facility_type i1 = facility_type i2.
Proof. unfold ruleFields. congruence. Qed.

Lemma ruleFields_applyPatterns (aiAnalysis : option AIAnalysis) (facilityType : string)
  (i : Insights) :
  ruleFields (applyPatterns aiAnalysis facilityType i) = ruleFields i.
Proof.
  unfold applyPatterns.
  destruct aiAnalysis as [[entries [patterns|]]|]; try reflexivity.
  repeat match goal with
         | |- context [if ?c then _ else _] => destruct c
         end; reflexivity.
Qed.

Lemma ruleFields_emergencyRules (name facilityType : string) (i1 i2 : Insights) :
  ruleFields i1 = ruleFields i2 ->
  ruleFields (emergencyRules needTypes name facilityType i1)
  = ruleFields (emergencyRules needTypes name facilityType i2).
Proof.
  intros H. pose proof (facility_type_ruleFields _ _ H) as Hty.
  unfold emergencyRules.
  repeat match goal with
         | |- context [if ?c then _ else _] => destruct c
         end; rewrite ?ruleFields_rate, ?Hty; auto.
Qed.

Lemma ruleFields_therapyRules (name facilityType : string) (i1 i2 : Insights) :
  ruleFields i1 = ruleFields i2 ->
  ruleFields (therapyRules needTypes name facilityType i1)
  = ruleFields (therapyRules needTypes name facilityType i2).
Proof.
  intros H. pose proof (facility_type_ruleFields _ _ H) as Hty.
  unfold therapyRules. cbv zeta.
  repeat match goal with
         | |- context [if ?c then _ else _] => destruct c
         end; rewrite ?ruleFields_rate; cbn [facility_type rate]; rewrite ?Hty; auto.
Qed.

Lemma ruleFields_defaultLanguage (i : Insights) :
  ruleFields (defaultLanguage languageContext i) = ruleFields i.
Proof. unfold defaultLanguage. destruct (_ && _); reflexivity. Qed.

(** The fields the rules decide do not depend on the completion. *)
Lemma patternInsights_ruleFields (aiAnalysis : option AIAnalysis) (facility : Place) :
  ruleFields (patternInsights needTypes languageContext aiAnalysis facility)
  = ruleFields (patternInsights needTypes languageContext None facility).
Proof.
  unfold patternInsights. cbv zeta.
  rewrite !ruleFields_defaultLanguage.
  apply ruleFields_therapyRules, ruleFields_emergencyRules.
  rewrite ruleFields_applyPatterns. reflexivity.
Qed.

(** Without patterns the rule-based record is the one of a failed call. *)
Lemma patternInsights_without_patterns (analysis : AIAnalysis) (facility : Place) :
  analysisPatterns analysis = None ->
  patternInsights needTypes languageContext (Some analysis) facility
  = patternInsights needTypes languageContext None facility.
Proof.
  intros Hnone. unfold patternInsights, applyPatterns.
  destruct analysis as [entries patterns]. simpl in Hnone. subst patterns. reflexivity.
Qed.

(** When the override applies, the completion makes no difference. *)
Lemma applyAIInsights_override (aiAnalysis : option AIAnalysis) (facility : Place)
  (index : nat) (override : Insights) :
  manualOverride needTypes (JS.toLowerCase (default "" (displayName facility)))
  = Some override ->
  applyAIInsights needTypes languageContext aiAnalysis facility index = override.
Proof. intros Hoverride. unfold applyAIInsights. by rewrite Hoverride. Qed.

(** C8, amended. In the current router the insight fields of a facility
    come from one of three places.  When the service-specific override
    matches the name they are the override's, the same whatever the
    generative pass returned.  Otherwise, when the generative pass has a
    record at the facility's position, they are that record, taken whole.
    Otherwise they are the rule table's: its [medical_relevance],
    [service_match], [specialty_note] and [facility_type] are those of a
    failed call, while [language_support] and [language_note] may come from
    the [patterns] of the generative output; when the call failed or its
    output has no patterns, the whole record is the one of a failed call.
    In [src/server.js] the fields are merged one by one: each of the five is
    the value the generative record has for it when that is a non-empty
    text, and its own default otherwise, also when the output has no record
    for the facility; only when the call or the parsing fails do all five
    have the values of the fallback. *)
Theorem insights_provenance
  (aiAnalysis : option AIAnalysis) (facility : Place) (index : nat) :
  let name := JS.toLowerCase (default "" (displayName facility)) in
  let result := applyAIInsights needTypes languageContext aiAnalysis facility index in
  let ruleBased := applyAIInsights needTypes languageContext None facility index in
  match manualOverride needTypes name with
  | Some override => result = override /\ result = ruleBased
  | None =>
      match directAnalysis aiAnalysis index with
      | Some direct => result = direct
      | None =>
          ruleFields result = ruleFields ruleBased
          /\ ((forall analysis,
                  aiAnalysis = Some analysis -> analysisPatterns analysis = None) ->
              result = ruleBased)
      end
  end
  /\ (forall analysis,
        let chatgptData := directAnalysis (Some analysis) index in
        let merged := mergeInsightsOlder (Some analysis) index in
        medical_relevance merged
        = Some (JS.orElse (chatgptData ≫= medical_relevance) "Medium")
        /\ language_support merged
           = Some (JS.orElse (chatgptData ≫= language_support) "Unknown")
        /\ language_note merged = Some (JS.orElse (chatgptData ≫= language_note) "")
        /\ service_match merged = Some (JS.orElse (chatgptData ≫= service_match) "Good")
        /\ specialty_note merged
           = Some (JS.orElse (chatgptData ≫= specialty_note)
                     "Medical facility with general services"))
  /\ (let fallback := mergeInsightsOlder None index in
      medical_relevance fallback = Some "Not analyzed"
      /\ language_support fallback = Some "Unknown"
      /\ language_note fallback = Some "Language support assessment unavailable"
      /\ service_match fallback = Some "Not analyzed"
      /\ specialty_note fallback = Some "Real facility from Google Places").
Proof.
  cbv zeta. split; [|split].
  - destruct (manualOverride needTypes _) as [override|] eqn:Hoverride.
    + by rewrite !(applyAIInsights_override _ _ _ _ Hoverride).
    + unfold applyAIInsights. rewrite Hoverride.
      destruct (directAnalysis aiAnalysis index) as [direct|]; [reflexivity|].
      cbn [directAnalysis]. split.
      * apply patternInsights_ruleFields.
      * intros Hnone. destruct aiAnalysis as [analysis|]; [|reflexivity].
        apply patternInsights_without_patterns, Hnone. reflexivity.
  - intros analysis. cbn [mergeInsightsOlder medical_relevance language_support
                            language_note service_match specialty_note].
    by destruct (directAnalysis (Some analysis) index).
  - by cbn.
Qed.

End Provenance.

(** C8, as the specification states it, fails.  In the current router the
    second hospital is beyond what the completion covers; its record takes
    [medical_relevance] from the rules and [language_support] and
    [language_note] from the completion's patterns, so it is neither the
    completion's record for the facility (there is none) nor the record of a
    failed call.  A completion of the wrong shape, patterns without a
    [facilities] array, is not treated as a failure either.  In
    [src/server.js] a record that names the relevance only is completed with
    the defaults, and a completion of the wrong shape gets the defaults, not
    the values of the fallback. *)
Lemma insights_mix_patterns_with_rules :
  let mixed := applyAIInsights ["emergency"] "ne" (Some partialAnalysis)
                 civilServiceHospital 1 in
  let failed := applyAIInsights ["emergency"] "ne" None civilServiceHospital 1 in
  directAnalysis (Some partialAnalysis) 1 = None
  /\ medical_relevance mixed = Some "High"
  /\ medical_relevance failed = Some "High"
  /\ language_support mixed = Some "Likely"
  /\ language_support failed = Some "Unknown"
  /\ language_note mixed = Some "Nepali is the working language"
  /\ mixed <> failed
  /\ applyAIInsights ["emergency"] "ne" (Some patternsOnlyAnalysis) civilServiceHospital 0
     <> applyAIInsights ["emergency"] "ne" None civilServiceHospital 0
  /\ medical_relevance (mergeInsightsOlder (Some relevanceOnlyAnalysis) 0) = Some "High"
  /\ service_match (mergeInsightsOlder (Some relevanceOnlyAnalysis) 0) = Some "Good"
  /\ service_match (mergeInsightsOlder None 0) = Some "Not analyzed"
  /\ mergeInsightsOlder (Some patternsOnlyAnalysis) 0 <> mergeInsightsOlder None 0.
Proof. cbv zeta. repeat split; try reflexivity; vm_compute; discriminate. Qed.


(** ** The relevance filter and the need types *)

Lemma arrayIncludes_elem_of (l : list string) (x : string) :
  JS.arrayIncludes l x = true <-> x ∈ l.
Proof.
  unfold JS.arrayIncludes. rewrite existsb_exists. split.
  - intros (y & Hin & Heq). apply String.eqb_eq in Heq. subst y.
    by apply list_elem_of_In.
  - intros Hin. exists x. split; [by apply list_elem_of_In | apply String.eqb_refl].
Qed.

Lemma arrayIncludes_every (needTypes needTypes' : list string) (needType : string) :
  forallb (JS.arrayIncludes needTypes') needTypes = true ->
  JS.arrayIncludes needTypes needType = true ->
  JS.arrayIncludes needTypes' needType = true.
Proof.
  intros Hall Hin. apply arrayIncludes_elem_of, list_elem_of_In in Hin.
  rewrite forallb_forall in Hall. by apply Hall.
Qed.

Lemma keep_step (a a' r rest rest' : bool) :
  (a = true -> a' = true) -> (rest = true -> rest' = true) ->
  (if a && r then true else rest) = true ->
  (if a' && r then true else rest') = true.
Proof. destruct a, a', r, rest, rest'; cbn; intuition congruence. Qed.

Lemma keepFacility_more_need_types (needTypes needTypes' : list string) (facility : Place) :
  forallb (JS.arrayIncludes needTypes') needTypes = true ->
  keepFacility needTypes facility = true ->
  keepFacility needTypes' facility = true.
Proof.
  intros Hall. unfold keepFacility.
  destruct (isVeterinary _ _); [done |].
  repeat (apply keep_step; [by apply arrayIncludes_every |]).
  done.
Qed.

Lemma filter_sublist_impl {A : Type} (p q : A -> bool) (l : list A) :
  (forall x, p x = true -> q x = true) ->
  sublist (List.filter p l) (List.filter q l).
Proof.
  intros Himpl. induction l as [| x l IH]; [constructor |].
  cbn [List.filter]. destruct (p x) eqn:Hp.
  - rewrite (Himpl x Hp). by apply sublist_skip.
  - destruct (q x); [by apply sublist_cons | done].
Qed.

(** X1. Asking for more need types never loses a facility: when every need
    type of one request is among those of another, the facilities the filter
    keeps for the first are, in the same order, among those it keeps for the
    second. *)
Theorem filter_grows_with_need_types
  (facilities : list Place) (needTypes needTypes' : list string) :
  forallb (JS.arrayIncludes needTypes') needTypes = true ->
  sublist (filterFacilitiesByServiceType facilities needTypes)
    (filterFacilitiesByServiceType facilities needTypes').
Proof.
  intros Hall. unfold filterFacilitiesByServiceType.
  apply filter_sublist_impl. intros facility.
  by apply keepFacility_more_need_types.
Qed.

Lemma filter_grows_with_need_types_witness :
  forallb (JS.arrayIncludes ["rehabilitation"; "emergency"]) ["emergency"] = true
  /\ filterFacilitiesByServiceType [strokeRehab; cityHospital; urgentCare] ["emergency"]
     = [cityHospital; urgentCare]
  /\ sublist
       (filterFacilitiesByServiceType [strokeRehab; cityHospital; urgentCare] ["emergency"])
       (filterFacilitiesByServiceType [strokeRehab; cityHospital; urgentCare]
          ["rehabilitation"; "emergency"]).
Proof.
  split; [reflexivity |]. split; [reflexivity |].
  apply (filter_grows_with_need_types [strokeRehab; cityHospital; urgentCare]
           ["emergency"] ["rehabilitation"; "emergency"]).
  reflexivity.
Defined.

(** ** The queries and the collection of their answers *)

Lemma keepFacility_no_known_need_type (needTypes : list string) (facility : Place) :
  forallb (fun needType => negb (JS.arrayIncludes needTypes needType)) allNeedTypes = true ->
  keepFacility needTypes facility
  = negb (isVeterinary (lowerName facility) (lowerTypes facility))
    && isMajorMedical (lowerName facility) (lowerTypes facility).
Proof.
  cbn [forallb allNeedTypes]. rewrite !andb_true_iff, !negb_true_iff.
  intros (He & Hr & Hs & Hp & Ho & Hg & _).
  unfold keepFacility. rewrite He, Hr, Hs, Hp, Ho, Hg. cbn [andb].
  by destruct (isVeterinary _ _), (isMajorMedical _ _).
Qed.

(** X2. A request that names none of the six need types the router knows is
    served as a plain hospital search: only the two general queries are
    sent, and the filter keeps exactly the candidates that are not
    veterinary and are a hospital or medical center by name or by category. *)
Theorem unknown_need_types_search_hospitals
  (location : string) (needTypes : list string) (facilities : list Place) :
  forallb (fun needType => negb (JS.arrayIncludes needTypes needType)) allNeedTypes = true ->
  searchQueries location needTypes
  = ["hospital near " ++ location; "medical center near " ++ location]
  /\ filterFacilitiesByServiceType facilities needTypes
     = List.filter
         (fun facility =>
            negb (isVeterinary (lowerName facility) (lowerTypes facility))
            && isMajorMedical (lowerName facility) (lowerTypes facility))
         facilities.
Proof.
  intros Hnone. split.
  - revert Hnone. cbn [forallb allNeedTypes].
    rewrite !andb_true_iff, !negb_true_iff.
    intros (He & Hr & Hs & Hp & Ho & Hg & _).
    unfold searchQueries. by rewrite He, Hr, Hs, Hp, Ho, Hg.
  - unfold filterFacilitiesByServiceType.
    induction facilities as [| facility rest IH]; [done |].
    cbn [List.filter]. rewrite IH.
    by rewrite (keepFacility_no_known_need_type needTypes facility Hnone).
Qed.

Lemma unknown_need_types_search_hospitals_witness :
  forallb (fun needType => negb (JS.arrayIncludes ["cardiology"] needType)) allNeedTypes
  = true
  /\ searchQueries "Kathmandu" ["cardiology"]
     = ["hospital near Kathmandu"; "medical center near Kathmandu"]
  /\ filterFacilitiesByServiceType [strokeRehab; cityHospital; vetClinic; urgentCare]
       ["cardiology"]
     = [cityHospital].
Proof.
  split; [reflexivity |].
  destruct (unknown_need_types_search_hospitals "Kathmandu" ["cardiology"]
              [strokeRehab; cityHospital; vetClinic; urgentCare]) as [Hq Hf];
    [reflexivity |].
  split; [exact Hq | rewrite Hf; reflexivity].
Defined.

(** X3. A search sends between 2 and 20 place queries, whatever need types
    are asked for, and the last two are always the general ones,
    [hospital near L] and [medical center near L]. *)
Theorem searchQueries_bounds (location : string) (needTypes : list string) :
  (2 <= length (searchQueries location needTypes) <= 20)%nat
  /\ exists specific,
       searchQueries location needTypes
       = (specific ++ ["hospital near " +:+ location; "medical center near " +:+ location])%list.
Proof.
  unfold searchQueries.
  destruct (JS.arrayIncludes needTypes "emergency"),
    (JS.arrayIncludes needTypes "rehabilitation"),
    (JS.arrayIncludes needTypes "speech-therapy"),
    (JS.arrayIncludes needTypes "physical-therapy"),
    (JS.arrayIncludes needTypes "occupational-therapy"),
    (JS.arrayIncludes needTypes "support-groups");
    (split; [cbn [length app]; lia |]);
    rewrite ?app_assoc; eexists; reflexivity.
Qed.

Lemma fold_pushAnswer (answers : list QueryAnswer) (collected : list Place) :
  fold_left pushAnswer answers collected
  = (collected ++ fold_left pushAnswer answers [])%list.
Proof.
  revert collected. induction answers as [| answer rest IH]; intros collected.
  - cbn. by rewrite app_nil_r.
  - cbn [fold_left]. rewrite (IH (pushAnswer collected answer)), (IH (pushAnswer [] answer)).
    rewrite app_assoc. f_equal.
    destruct answer as [| [[| p places] |]]; cbn; by rewrite ?app_nil_r.
Qed.

Lemma collectPlaces_app (before after : list QueryAnswer) :
  collectPlaces (before ++ after) = (collectPlaces before ++ collectPlaces after)%list.
Proof.
  unfold collectPlaces. rewrite fold_left_app.
  apply fold_pushAnswer.
Qed.

Lemma collectPlaces_cons (answer : QueryAnswer) (after : list QueryAnswer) :
  collectPlaces (answer :: after) = (pushAnswer [] answer ++ collectPlaces after)%list.
Proof. unfold collectPlaces. cbn [fold_left]. apply fold_pushAnswer. Qed.

(** X4. A place query that fails, or that answers without places, is
    skipped: the places collected from the queries before it are kept and
    the queries after it still contribute, in order.  The places of a query
    that answers are appended as they come. *)
Theorem failed_query_is_skipped (before after : list QueryAnswer) (places : list Place) :
  collectPlaces (before ++ QueryFailed :: after)
  = (collectPlaces before ++ collectPlaces after)%list
  /\ collectPlaces (before ++ QueryAnswered None :: after)
     = (collectPlaces before ++ collectPlaces after)%list
  /\ collectPlaces (before ++ QueryAnswered (Some places) :: after)
     = (collectPlaces before ++ places ++ collectPlaces after)%list.
Proof.
  rewrite !collectPlaces_app, !collectPlaces_cons.
  repeat split; try done.
  f_equal. f_equal. by destruct places.
Qed.

(** ** The result of [getRealFacilities] as a whole *)

Lemma filter_all_true {A : Type} (p : A -> bool) (l : list A) :
  (forall x, x ∈ l -> p x = true) -> List.filter p l = l.
Proof.
  induction l as [| x l IH]; intros Hall; [done |].
  cbn [List.filter]. rewrite (Hall x) by apply list_elem_of_here.
  f_equal. apply IH. intros y Hy. apply Hall. by apply list_elem_of_further.
Qed.

Lemma Sorted_total {A : Type} (R : A -> A -> Prop) (l : list A) :
  (forall a b, a ∈ l -> b ∈ l -> R a b) -> Sorted R l.
Proof.
  induction l as [| x l IH]; intros Hall; constructor.
  - apply IH. intros a b Ha Hb. apply Hall; by apply list_elem_of_further.
  - destruct l as [| y l]; constructor.
    apply Hall; [apply list_elem_of_here | apply list_elem_of_further, list_elem_of_here].
Qed.

Section Results.
#[local] Open Scope list_scope.
#[local] Open Scope Z_scope.

Variable encodeURIComponent : string -> string.
Variable numberToString : float -> string.
Variable calculateDistance : float -> float -> float -> float -> DistanceUnit -> Rounded.

#[local] Abbreviation addDetails' :=
  (addDetails encodeURIComponent numberToString calculateDistance).
#[local] Abbreviation getRealFacilities' :=
  (getRealFacilities encodeURIComponent numberToString calculateDistance).

Lemma place_addDetails (location : string) (userCoords : option GeoPoint)
  (candidates : list Place) :
  place <$> (addDetails' location userCoords <$> candidates) = candidates.
Proof.
  rewrite <- list_fmap_compose. rewrite <- (list_fmap_id candidates) at 2.
  by apply list_fmap_ext.
Qed.

Lemma place_results_sublist (location : string) (needTypes : list string)
  (userCoords : option GeoPoint) (candidates : list Place) :
  exists ranked,
    sublist (rankFacilities needTypes (addDetails' location userCoords <$> candidates)) ranked
    /\ place <$> ranked ≡ₚ candidates.
Proof.
  exists (JS.sort (compareFacilities needTypes)
            (addDetails' location userCoords <$> candidates)).
  split; [apply filter_sublist |].
  rewrite sort_Permutation. by rewrite place_addDetails.
Qed.

(** X5. Every facility [getRealFacilities] returns is a collected place
    with its distance and directions attached; the place passed the
    relevance filter and is not veterinary; and no two returned facilities
    have the same name-and-address key. *)
Theorem results_are_distinct_relevant_places
  (location : string) (needTypes : list string)
  (userCoords : option GeoPoint) (allFacilities : list Place) :
  let finalResults := getRealFacilities' location needTypes userCoords allFacilities in
  NoDup (placeId <$> (place <$> finalResults))
  /\ forall facility,
       facility ∈ finalResults ->
       place facility ∈ allFacilities
       /\ facility = addDetails' location userCoords (place facility)
       /\ keepFacility needTypes (place facility) = true
       /\ isVeterinary (lowerName (place facility)) (lowerTypes (place facility)) = false.
Proof.
  cbv zeta. unfold getRealFacilities. split.
  - destruct (place_results_sublist location needTypes userCoords
                (filterFacilitiesByServiceType (removeDuplicates allFacilities) needTypes))
      as (ranked & Hsub & Hperm).
    eapply sublist_NoDup; [| apply fmap_sublist, fmap_sublist, Hsub].
    rewrite Hperm.
    eapply sublist_NoDup; [| apply fmap_sublist, filter_sublist].
    apply removeDuplicatesFrom_NoDup.
  - intros facility Hin.
    apply rank_elem_of in Hin as [Hin _].
    apply list_elem_of_fmap in Hin as (candidate & -> & Hin).
    apply elem_of_filter_bool in Hin as [Hin Hkeep].
    cbn [place addDetails]. repeat split; try done.
    + eapply elem_of_sublist; [exact Hin | apply removeDuplicatesFrom_sublist].
    + unfold keepFacility in Hkeep. by destruct (isVeterinary _ _).
Qed.

(** X6. When the text the user typed cannot be geocoded, no returned
    facility has a distance, the radius cut removes nothing, so the result
    holds exactly the places that passed the filter; and unless [emergency]
    is requested they come back in the order in which the queries
    returned them. *)
Theorem without_geocoding
  (location : string) (needTypes : list string) (allFacilities : list Place) :
  let finalResults := getRealFacilities' location needTypes None allFacilities in
  let candidates :=
    filterFacilitiesByServiceType (removeDuplicates allFacilities) needTypes in
  (forall facility, facility ∈ finalResults -> distance facility = None)
  /\ place <$> finalResults ≡ₚ candidates
  /\ (JS.arrayIncludes needTypes "emergency" = false ->
      place <$> finalResults = candidates).
Proof.
  cbv zeta.
  set (candidates :=
         filterFacilitiesByServiceType (removeDuplicates allFacilities) needTypes).
  set (detailed := addDetails' location None <$> candidates).
  change (getRealFacilities' location needTypes None allFacilities)
    with (rankFacilities needTypes detailed).
  assert (Hnone : forall facility, facility ∈ detailed -> distance facility = None).
  { intros facility Hin. by apply list_elem_of_fmap in Hin as (candidate & -> & _). }
  assert (Hcut : rankFacilities needTypes detailed
                 = JS.sort (compareFacilities needTypes) detailed).
  { unfold rankFacilities. apply filter_all_true. intros facility Hin.
    apply withinMaxDistance_unknown, knownMiles_no_distance, Hnone.
    by apply sort_elem_of in Hin. }
  rewrite Hcut. repeat split.
  - intros facility Hin. apply Hnone. by apply sort_elem_of in Hin.
  - rewrite sort_Permutation. unfold detailed. by rewrite place_addDetails.
  - intros Hemergency. rewrite sort_fixed; [apply place_addDetails |].
    apply Sorted_total. intros a b Ha Hb.
    unfold JS.inOrder, compareFacilities. rewrite Hemergency.
    by rewrite (Hnone a Ha).
Qed.

End Results.

(** ** The enriched response *)

(** X7. Enrichment neither drops nor adds facilities: the response lists
    one entry per ranked facility, in the ranking's order.  An entry whose
    insight fields the code builds itself, by the override or by the rules
    because the model gave no record for it, carries the facility's own name,
    address, distance and directions.  The two counts add up to the total,
    and [ai_analyzed_count] is the size of the batch shown to the model, at
    most 15, also when the model's answer was lost. *)
Theorem enrichment_keeps_the_ranking
  (realFacilities : list Facility) (needTypes : list string)
  (language detectedLocalLanguage : string) (aiAnalysis : option AIAnalysis) :
  let results :=
    enhanceWithChatGPT realFacilities needTypes language detectedLocalLanguage
      aiAnalysis in
  length (facilities results) = length realFacilities
  /\ (forall index facility,
        realFacilities !! index = Some facility ->
        is_Some (manualOverride needTypes
                   (JS.toLowerCase (default "" (displayName (place facility)))))
        \/ directAnalysis aiAnalysis index = None ->
        exists enhanced,
          facilities results !! index = Some enhanced
          /\ name enhanced = JS.orElse (displayName (place facility)) "Unknown"
          /\ address enhanced
             = JS.orElse (formattedAddress (place facility)) "Address not available"
          /\ enhancedDistance enhanced = distance facility
          /\ enhancedDirections enhanced = directions facility)
  /\ success results = negb (bool_decide (realFacilities = []))
  /\ (realFacilities <> [] ->
      total_facilities_found results = length realFacilities
      /\ ai_analyzed_count results = (15 `min` length realFacilities)%nat
      /\ (ai_analyzed_count results + pattern_applied_count results)%nat
         = total_facilities_found results).
Proof.
  cbv zeta. unfold enhanceWithChatGPT.
  destruct realFacilities as [| facility rest]; [done |].
  set (realFacilities := facility :: rest).
  cbn [facilities success total_facilities_found ai_analyzed_count pattern_applied_count].
  split; [apply length_imap |]. split; [| split; [done |]].
  - intros index ranked Hlookup Hown. eexists. split.
    + rewrite list_lookup_imap, Hlookup. reflexivity.
    + apply enhanceFacility_fromPlace, applyAIInsights_placeKeys, Hown.
  - intros _. split; [done |]. split; [apply length_take |].
    rewrite length_imap, length_take. lia.
Qed.

Lemma urgent_care_type_includes_ent (facility : Place) :
  getFacilityType facility = "urgent_care" ->
  JS.includes (lowerName facility) "ent" = true.
Proof.
  unfold getFacilityType.
  destruct (JS.includes (lowerName facility) "hospital" || _); [done |].
  destruct (JS.includes (lowerName facility) "urgent care") eqn:Hcare.
  - intros _. apply (includes_trans _ "urgent care"); [exact Hcare | reflexivity].
  - cbn [orb]. destruct (JS.includes (lowerName facility) "urgent") eqn:Hurgent.
    + intros _. by apply urgent_includes_ent.
    + by repeat case_match.
Qed.

Lemma manualOverride_values (needTypes : list string) (name : string) (override : Insights) :
  manualOverride needTypes name = Some override ->
  medical_relevance override = Some "Low" /\ service_match override = Some "Poor".
Proof.
  unfold manualOverride. repeat case_match; intros [= <-]; done.
Qed.

Lemma manualOverride_ent (needTypes : list string) (name : string) :
  JS.arrayIncludes needTypes "emergency" = true ->
  JS.includes name "ent" = true ->
  manualOverride needTypes name
  = Some (specialtyOverride "Specialty hospital - not equipped for stroke emergencies").
Proof.
  intros He Hent. unfold manualOverride. rewrite He, Hent.
  by rewrite !orb_true_r.
Qed.

Lemma rate_values (relevance specialty serviceMatch : string) (i : Insights) :
  medical_relevance (rate relevance specialty serviceMatch i) = Some relevance
  /\ service_match (rate relevance specialty serviceMatch i) = Some serviceMatch.
Proof. done. Qed.

(** The ratings the rule table can give. *)
Lemma patternInsights_values (needTypes : list string) (languageContext : string)
  (aiAnalysis : option AIAnalysis) (facility : Place) :
  manualOverride needTypes (lowerName facility) = None ->
  let result := patternInsights needTypes languageContext aiAnalysis facility in
  (medical_relevance result = Some "High" \/ medical_relevance result = Some "Medium")
  /\ (service_match result = Some "Excellent" \/ service_match result = Some "Good").
Proof.
  intros Hnone. cbv zeta.
  pose proof (patternInsights_ruleFields needTypes languageContext aiAnalysis facility)
    as Hfields.
  unfold ruleFields in Hfields.
  injection Hfields as Hrel Hmatch _ _. rewrite Hrel, Hmatch. clear Hrel Hmatch.
  unfold patternInsights. rewrite <- lowerName_default.
  set (kind := getFacilityType facility).
  assert (Hkind : JS.arrayIncludes needTypes "emergency" = true ->
                  String.eqb kind "urgent_care" = false).
  { intros He. apply not_true_is_false. intros Heq. apply String.eqb_eq in Heq.
    apply urgent_care_type_includes_ent in Heq.
    by rewrite (manualOverride_ent needTypes _ He Heq) in Hnone. }
  unfold defaultLanguage, therapyRules, emergencyRules, applyPatterns.
  destruct (JS.arrayIncludes needTypes "emergency");
    [rewrite Hkind by done |];
    repeat case_match; cbn; auto.
Qed.

(** X8. When the model gave no record for a facility, the rating comes from
    the code alone and is one of three: [Low] with service match [Poor]
    exactly when the service-specific override applies to the name, and
    otherwise [High] or [Medium] with service match [Excellent] or [Good].
    The rule written for urgent care ([Medium], [Fair]) applies to no
    facility: a name that makes the facility type [urgent_care] contains the
    letters [ent], which the override for [emergency] catches first. *)
Theorem rule_based_rating
  (needTypes : list string) (languageContext : string)
  (aiAnalysis : option AIAnalysis) (facility : Place) (index : nat) :
  directAnalysis aiAnalysis index = None ->
  let name := JS.toLowerCase (default "" (displayName facility)) in
  let result := applyAIInsights needTypes languageContext aiAnalysis facility index in
  match manualOverride needTypes name with
  | Some _ =>
      medical_relevance result = Some "Low" /\ service_match result = Some "Poor"
  | None =>
      (medical_relevance result = Some "High" \/ medical_relevance result = Some "Medium")
      /\ (service_match result = Some "Excellent" \/ service_match result = Some "Good")
  end.
Proof.
  intros Hdirect. cbv zeta. unfold applyAIInsights. rewrite Hdirect.
  destruct (manualOverride needTypes _) as [override |] eqn:Hoverride.
  - by apply manualOverride_values in Hoverride.
  - apply patternInsights_values. by rewrite lowerName_default.
Qed.

Lemma rule_based_rating_witness :
  directAnalysis None 0 = None
  /\ manualOverride ["emergency"] (JS.toLowerCase "QuickCare Urgent Care")
     = Some (specialtyOverride "Specialty hospital - not equipped for stroke emergencies")
  /\ medical_relevance (applyAIInsights ["emergency"] "en" None urgentCare 0) = Some "Low"
  /\ service_match (applyAIInsights ["emergency"] "en" None urgentCare 0) = Some "Poor".
Proof.
  split; [reflexivity |]. split; [reflexivity |].
  exact (rule_based_rating ["emergency"] "en" None urgentCare 0 eq_refl).
Defined.

(** X9. When [emergency] is requested, a facility whose name contains
    [stroke center], in any case, gets the highest points of the ranking
    (at least 10) and is then rated [Low] with service match [Poor] by the
    enrichment, whatever the model answered: the override for [emergency]
    matches the letters [ent] of [center]. *)
Theorem stroke_center_ranked_first_rated_low
  (needTypes : list string) (languageContext : string)
  (aiAnalysis : option AIAnalysis) (facility : Facility) (index : nat) :
  JS.arrayIncludes needTypes "emergency" = true ->
  JS.includes (lowerName (place facility)) "stroke center" = true ->
  10 <= priorityScore needTypes facility
  /\ insights (enhanceFacility needTypes languageContext aiAnalysis index facility)
     = specialtyOverride "Specialty hospital - not equipped for stroke emergencies".
Proof.
  intros He Hcenter.
  assert (Hstroke : JS.includes (lowerName (place facility)) "stroke" = true).
  { apply (includes_trans _ "stroke center"); [exact Hcenter | reflexivity]. }
  assert (Hent : JS.includes (lowerName (place facility)) "ent" = true).
  { apply (includes_trans _ "stroke center"); [exact Hcenter | reflexivity]. }
  split.
  - unfold priorityScore. rewrite He. unfold emergencyScore. rewrite Hstroke.
    pose proof (hospitalPoints_values (lowerName (place facility))) as [-> | ->];
      repeat case_match; lia.
  - cbn [insights enhanceFacility spread]. unfold applyAIInsights.
    rewrite <- lowerName_default. by rewrite (manualOverride_ent needTypes _ He Hent).
Qed.

Lemma stroke_center_ranked_first_rated_low_witness :
  JS.arrayIncludes ["emergency"] "emergency" = true
  /\ JS.includes (lowerName strokeCenter) "stroke center" = true
  /\ priorityScore ["emergency"] (withDistance strokeCenter 12) = 10%Z
  /\ medical_relevance
       (insights (enhanceFacility ["emergency"] "en" (Some flatteringAnalysis) 0
                    (withDistance strokeCenter 12))) = Some "Low".
Proof.
  split; [reflexivity |]. split; [reflexivity |]. split; [reflexivity |].
  destruct (stroke_center_ranked_first_rated_low ["emergency"] "en"
              (Some flatteringAnalysis) (withDistance strokeCenter 12) 0
              eq_refl eq_refl) as [_ Hlow].
  rewrite Hlow. reflexivity.
Defined.

(** ** The sort endpoint *)

(** X10. [POST /search/sort] answers an array with the same facilities as
    it was sent, each as often as it was sent, whatever [sortBy] is, and
    echoes [sortBy]; for a [sortBy] other than [distance] and [relevance]
    the array comes back in the order it was sent.  A body without an array
    is refused. *)
Theorem sort_endpoint_rearranges (facilities : list EnhancedFacility) (sortBy : string) :
  searchSort None sortBy = BadRequest "Invalid facilities data"
  /\ exists sorted,
       searchSort (Some facilities) sortBy = SortOk sorted sortBy
       /\ sorted ≡ₚ facilities
       /\ (sortBy <> "distance" -> sortBy <> "relevance" -> sorted = facilities).
Proof.
  split; [done |].
  exists (sortFacilities facilities sortBy). split; [done |].
  unfold sortFacilities.
  destruct (String.eqb_spec sortBy "distance") as [-> | Hd].
  - split; [apply sort_Permutation | done].
  - destruct (String.eqb_spec sortBy "relevance") as [-> | Hr].
    + split; [apply sort_Permutation | done].
    + done.
Qed.

Lemma compareJsonDistance_antisym (a b : option Distance) :
  0 < compareJsonDistance a b -> compareJsonDistance b a <= 0.
Proof. unfold compareJsonDistance. destruct a, b; lia. Qed.

Lemma compareByRelevance_antisym (a b : EnhancedFacility) :
  0 < compareByRelevance a b -> compareByRelevance b a <= 0.
Proof.
  unfold compareByRelevance.
  destruct (Z.eqb_spec (relevanceScore (medical_relevance (insights a)))
              (relevanceScore (medical_relevance (insights b)))) as [Heq | Hne]; cbn.
  - rewrite Heq, Z.eqb_refl. cbn. apply compareJsonDistance_antisym.
  - destruct (Z.eqb_spec (relevanceScore (medical_relevance (insights b)))
                (relevanceScore (medical_relevance (insights a)))); cbn;
      [congruence | lia].
Qed.

Lemma inOrder_relevance (a b : EnhancedFacility) :
  JS.inOrder compareByRelevance a b
  <-> relevanceOf b <= relevanceOf a
      /\ (relevanceOf a = relevanceOf b ->
          compareJsonDistance (enhancedDistance a) (enhancedDistance b) <= 0).
Proof.
  unfold JS.inOrder, compareByRelevance, relevanceOf.
  destruct (Z.eqb_spec (relevanceScore (medical_relevance (insights a)))
              (relevanceScore (medical_relevance (insights b)))) as [Heq | Hne]; cbn.
  - split; [intros H; split; [lia | done] | intros [_ H]; by apply H].
  - split; [intros H; split; [lia | done] | intros [H _]; lia].
Qed.

(** Neighbours in order make the whole list ordered when the order is
    transitive on the elements of the list. *)
Lemma Sorted_StronglySorted_on {A : Type} (R : A -> A -> Prop) (l : list A) :
  (forall a b c, a ∈ l -> b ∈ l -> c ∈ l -> R a b -> R b c -> R a c) ->
  Sorted R l -> StronglySorted R l.
Proof.
  induction l as [| x l IH]; intros Htrans Hsorted; [constructor |].
  apply Sorted_inv in Hsorted as [Hsorted Hhd].
  assert (Hrest : StronglySorted R l).
  { apply IH; [| exact Hsorted].
    intros a b c Ha Hb Hc. apply Htrans; by right. }
  constructor; [exact Hrest |].
  destruct l as [| y l]; [constructor |].
  apply HdRel_inv in Hhd. apply StronglySorted_inv in Hrest as [_ Hall].
  constructor; [exact Hhd |].
  rewrite List.Forall_forall in Hall |- *. intros z Hz.
  apply (Htrans x y z); [left | right; left | | exact Hhd | by apply Hall].
  right. right. by apply list_elem_of_In.
Qed.

Lemma StronglySorted_weaken {A : Type} (R1 R2 : A -> A -> Prop) (l : list A) :
  (forall x y, R1 x y -> R2 x y) -> StronglySorted R1 l -> StronglySorted R2 l.
Proof.
  intros Himp. induction 1 as [| x l Hs IH Hall]; constructor; [exact IH |].
  rewrite List.Forall_forall in Hall |- *. auto.
Qed.

(** On facilities that within each score all have a distance or all have
    none, the comparator of the sort by relevance is transitive. *)
Lemma compareByRelevance_trans (facilities : list EnhancedFacility)
  (a b c : EnhancedFacility) :
  (forall x y, x ∈ facilities -> y ∈ facilities -> relevanceOf x = relevanceOf y ->
               enhancedDistance x = None -> enhancedDistance y = None) ->
  a ∈ facilities -> b ∈ facilities -> c ∈ facilities ->
  JS.inOrder compareByRelevance a b -> JS.inOrder compareByRelevance b c ->
  JS.inOrder compareByRelevance a c.
Proof.
  intros Hconsistent Ha Hb Hc. rewrite !inOrder_relevance.
  intros [Hab Hdab] [Hbc Hdbc]. split; [lia |]. intros Heq.
  assert (Hsab : relevanceOf a = relevanceOf b) by lia.
  assert (Hsbc : relevanceOf b = relevanceOf c) by lia.
  specialize (Hdab Hsab). specialize (Hdbc Hsbc).
  pose proof (Hconsistent b a Hb Ha (eq_sym Hsab)) as Hnone.
  unfold compareJsonDistance in *.
  destruct (enhancedDistance a) as [da |]; [| lia].
  destruct (enhancedDistance c) as [dc |]; [| lia].
  destruct (enhancedDistance b) as [db |]; [lia |].
  by specialize (Hnone eq_refl).
Qed.

(** X11. Sorting by relevance, on facilities whose rating is looked up in
    the score table as an entry or as nothing, and of which, within each
    score, either all have a distance or none has, so that the comparator
    is consistent and every engine sorts alike: the sorted array goes from
    [High] (3) over [Medium] (2) to everything else (1, which is [Low], any
    other text and no rating); facilities of equal score are in ascending
    order of distance; and sorting the sorted array again changes
    nothing. *)
Theorem sort_by_relevance (facilities : list EnhancedFacility) :
  Forall (fun facility => tableKey (medical_relevance (insights facility)) = true)
    facilities ->
  (forall a b, a ∈ facilities -> b ∈ facilities -> relevanceOf a = relevanceOf b ->
               enhancedDistance a = None -> enhancedDistance b = None) ->
  let sorted := sortFacilities facilities "relevance" in
  StronglySorted
    (fun a b =>
       relevanceOf b <= relevanceOf a
       /\ (relevanceOf a = relevanceOf b ->
           compareJsonDistance (enhancedDistance a) (enhancedDistance b) <= 0))
    sorted
  /\ Forall (fun facility => 1 <= relevanceOf facility <= 3) sorted
  /\ sortFacilities sorted "relevance" = sorted.
Proof.
  intros _ Hconsistent. cbv zeta.
  change (sortFacilities facilities "relevance")
    with (JS.sort compareByRelevance facilities).
  change (sortFacilities (JS.sort compareByRelevance facilities) "relevance")
    with (JS.sort compareByRelevance (JS.sort compareByRelevance facilities)).
  pose proof (sort_Sorted compareByRelevance compareByRelevance_antisym facilities)
    as Hsorted.
  split; [| split].
  - apply (StronglySorted_weaken (JS.inOrder compareByRelevance));
      [intros a b; apply inOrder_relevance |].
    apply Sorted_StronglySorted_on; [| exact Hsorted].
    intros a b c Ha Hb Hc.
    apply (compareByRelevance_trans facilities); [exact Hconsistent | ..];
      by apply (sort_elem_of compareByRelevance).
  - apply Forall_forall. intros facility _. unfold relevanceOf, relevanceScore.
    repeat case_match; lia.
  - apply sort_idempotent, compareByRelevance_antisym.
Qed.

Lemma sort_by_relevance_witness :
  Forall (fun facility => tableKey (medical_relevance (insights facility)) = true)
    [rated nepalEyeHospital "Low" 5; rated cityHospital "High" 40;
     rated urgentCare "Medium" 8; rated civilServiceHospital "High" 12]
  /\ name <$> sortFacilities
                [rated nepalEyeHospital "Low" 5; rated cityHospital "High" 40;
                 rated urgentCare "Medium" 8; rated civilServiceHospital "High" 12]
                "relevance"
     = ["Civil Service Hospital"; "City Hospital"; "QuickCare Urgent Care";
        "Nepal Eye Hospital"]
  /\ sortFacilities
       (sortFacilities
          [rated nepalEyeHospital "Low" 5; rated cityHospital "High" 40;
           rated urgentCare "Medium" 8; rated civilServiceHospital "High" 12]
          "relevance") "relevance"
     = sortFacilities
         [rated nepalEyeHospital "Low" 5; rated cityHospital "High" 40;
          rated urgentCare "Medium" 8; rated civilServiceHospital "High" 12]
         "relevance".
Proof.
  assert (Hkeys :
            Forall (fun facility => tableKey (medical_relevance (insights facility)) = true)
              [rated nepalEyeHospital "Low" 5; rated cityHospital "High" 40;
               rated urgentCare "Medium" 8; rated civilServiceHospital "High" 12]).
  { repeat constructor. }
  split; [exact Hkeys |]. split; [reflexivity |].
  refine (proj2 (proj2 (sort_by_relevance _ Hkeys _))).
  intros a b Ha _ _ Hnone.
  repeat (apply elem_of_cons in Ha as [-> | Ha]); try discriminate Hnone.
  by apply elem_of_nil in Ha.
Defined.

Lemma sameDistance_tie (d : option Z) (a b : EnhancedFacility) :
  sameDistance d a = true -> sameDistance d b = true -> compareByDistance a b <= 0.
Proof.
  unfold sameDistance, compareByDistance, compareJsonDistance.
  rewrite !bool_decide_eq_true.
  destruct (enhancedDistance a) as [da |], (enhancedDistance b) as [db |]; cbn;
    intros <-; intros [=]; lia.
Qed.

(** X25. Sorting by distance, on facilities that all have a distance or all
    have none, so that the comparator is consistent and every engine sorts
    alike: the sorted array is in ascending order of distance, facilities at
    the same distance keep the order in which they were sent, and sorting
    the sorted array again changes nothing, in the function and in the
    answer of the endpoint. *)
Theorem sort_by_distance_consistent (facilities : list EnhancedFacility) :
  (forall a b, a ∈ facilities -> b ∈ facilities ->
               enhancedDistance a = None -> enhancedDistance b = None) ->
  let sorted := sortFacilities facilities "distance" in
  StronglySorted
    (fun a b => compareJsonDistance (enhancedDistance a) (enhancedDistance b) <= 0) sorted
  /\ (forall d, List.filter (sameDistance d) sorted = List.filter (sameDistance d) facilities)
  /\ sortFacilities sorted "distance" = sorted
  /\ searchSort (Some sorted) "distance" = searchSort (Some facilities) "distance".
Proof.
  intros Hconsistent. cbv zeta.
  change (sortFacilities facilities "distance")
    with (JS.sort compareByDistance facilities).
  assert (Hidem : sortFacilities (JS.sort compareByDistance facilities) "distance"
                  = JS.sort compareByDistance facilities).
  { apply (sort_idempotent compareByDistance).
    intros a b. apply compareJsonDistance_antisym. }
  split; [| split; [| split]].
  - apply (Sorted_StronglySorted_on (JS.inOrder compareByDistance)).
    + intros a b c Ha Hb Hc.
      apply (proj1 (sort_elem_of compareByDistance _ _)) in Ha.
      apply (proj1 (sort_elem_of compareByDistance _ _)) in Hb.
      pose proof (Hconsistent b a Hb Ha) as Hnone.
      unfold JS.inOrder, compareByDistance, compareJsonDistance.
      destruct (enhancedDistance a) as [da |]; [| lia].
      destruct (enhancedDistance c) as [dc |]; [| lia].
      destruct (enhancedDistance b) as [db |]; [lia |].
      by specialize (Hnone eq_refl).
    + apply sort_Sorted. intros a b. apply compareJsonDistance_antisym.
  - intros d. apply sort_stable. apply sameDistance_tie.
  - exact Hidem.
  - unfold searchSort. f_equal. exact Hidem.
Qed.

Lemma sort_by_distance_consistent_witness :
  name <$> sortFacilities
             [rated cityHospital "High" 40; rated nepalEyeHospital "Low" 5;
              rated civilServiceHospital "High" 5] "distance"
  = ["Nepal Eye Hospital"; "Civil Service Hospital"; "City Hospital"]
  /\ sortFacilities
       (sortFacilities
          [rated cityHospital "High" 40; rated nepalEyeHospital "Low" 5;
           rated civilServiceHospital "High" 5] "distance") "distance"
     = sortFacilities
         [rated cityHospital "High" 40; rated nepalEyeHospital "Low" 5;
          rated civilServiceHospital "High" 5] "distance".
Proof.
  split; [reflexivity |].
  refine (proj1 (proj2 (proj2 (sort_by_distance_consistent
            [rated cityHospital "High" 40; rated nepalEyeHospital "Low" 5;
             rated civilServiceHospital "High" 5] _)))).
  intros a b Ha _ Hnone.
  repeat (apply elem_of_cons in Ha as [-> | Ha]); try discriminate Hnone.
  by apply elem_of_nil in Ha.
Defined.

(** ** Deduplication: repeating it, and its two forms *)

Section DedupAgain.
#[local] Open Scope list_scope.
#[local] Open Scope Z_scope.

Lemma removeDuplicatesFrom_distinct (seen : gset string) (l : list Place) :
  NoDup (placeId <$> l) ->
  (forall g, g ∈ l -> placeId g ∉ seen) ->
  removeDuplicatesFrom seen l = l.
Proof.
  revert seen. induction l as [| f l IH]; intros seen Hnodup Hfresh; [done |].
  rewrite fmap_cons in Hnodup. apply NoDup_cons in Hnodup as [Hf Hnodup].
  cbn [removeDuplicatesFrom].
  destruct (decide (placeId f ∈ seen)) as [Hin | _].
  - exfalso. apply (Hfresh f); [left | exact Hin].
  - f_equal. apply IH; [exact Hnodup |].
    intros g Hg Hin. apply elem_of_union in Hin as [Hin | Hin].
    + apply elem_of_singleton in Hin. apply Hf.
      apply list_elem_of_fmap. by exists g.
    + apply (Hfresh g); [by right | exact Hin].
Qed.

Lemma byFields_distinct (all pre l : list Place) :
  all = pre ++ l ->
  NoDup (nameAndAddress <$> all) ->
  JS.filterWithIndexFrom (Z.of_nat (length pre))
    (fun facility index => index =? JS.findIndex (sameNameAndAddress facility) all) l
  = l.
Proof.
  revert pre. induction l as [| f l IH]; intros pre Hall Hnodup; [done |].
  assert (Hnext : all = (pre ++ [f]) ++ l) by (rewrite <- app_assoc; exact Hall).
  assert (Hlen : Z.of_nat (length pre) + 1 = Z.of_nat (length (pre ++ [f])))
    by (rewrite length_app; simpl; lia).
  cbn [JS.filterWithIndexFrom]. rewrite Hlen, (IH _ Hnext Hnodup).
  replace (Z.of_nat (length pre) =? JS.findIndex (sameNameAndAddress f) all) with true;
    [done |].
  symmetry. subst all. apply (proj2 (isFirstIndex_spec pre l f)).
  intros g Hg Hsame.
  rewrite fmap_app, fmap_cons in Hnodup.
  apply NoDup_app in Hnodup as (_ & Hdisjoint & _).
  apply (Hdisjoint (nameAndAddress g)).
  - apply list_elem_of_fmap. by exists g.
  - rewrite Hsame. left.
Qed.

(** X12. Deduplicating a second time changes nothing, in either form of
    the deduplication: its result has no two candidates with the same key,
    and a list without repeated keys is returned as it is. *)
Theorem deduplication_is_idempotent (allFacilities : list Place) :
  removeDuplicates (removeDuplicates allFacilities) = removeDuplicates allFacilities
  /\ removeDuplicatesByFields (removeDuplicatesByFields allFacilities)
     = removeDuplicatesByFields allFacilities
  /\ (NoDup (placeId <$> allFacilities) -> removeDuplicates allFacilities = allFacilities)
  /\ (NoDup (nameAndAddress <$> allFacilities) ->
      removeDuplicatesByFields allFacilities = allFacilities).
Proof.
  assert (Hkeys : forall l, NoDup (placeId <$> l) -> removeDuplicates l = l).
  { intros l Hnodup. apply removeDuplicatesFrom_distinct; [exact Hnodup | set_solver]. }
  assert (Hfields : forall l,
             NoDup (nameAndAddress <$> l) -> removeDuplicatesByFields l = l).
  { intros l Hnodup. apply (byFields_distinct l [] l); done. }
  repeat split.
  - apply Hkeys, removeDuplicatesFrom_NoDup.
  - apply Hfields. apply (byFields_NoDup allFacilities [] allFacilities). done.
  - apply Hkeys.
  - apply Hfields.
Qed.

(** X13. The current deduplication, by the key [name-address], keeps
    nothing that the oldest one, by the two fields, would drop: its result
    is a subsequence of the older result.  The two results are the same when
    no two collected candidates with different name or address have the
    same key. *)
Theorem deduplication_forms_agree (allFacilities : list Place) :
  sublist (removeDuplicates allFacilities) (removeDuplicatesByFields allFacilities)
  /\ ((forall a b, a ∈ allFacilities -> b ∈ allFacilities -> placeId a = placeId b ->
                   nameAndAddress a = nameAndAddress b) ->
      removeDuplicates allFacilities = removeDuplicatesByFields allFacilities).
Proof.
  apply (removeDuplicates_byFields allFacilities [] allFacilities ∅); [done |].
  intros k. split; [set_solver |].
  intros (g & Hg & _). by apply elem_of_nil in Hg.
Qed.

End DedupAgain.

(** ** The cache service *)

Section CacheFacts.

Context {V : Type}.
Implicit Types (s : SimpleCache.State V) (key : string) (timer : nat).

Lemma foldr_clearTimeout_lookup (handles : list nat) (timeouts : gmap nat (string * Z))
  (timer : nat) :
  foldr SimpleCache.clearTimeout timeouts handles !! timer
  = if decide (timer ∈ handles) then None else timeouts !! timer.
Proof.
  induction handles as [| h handles IH]; cbn [foldr].
  - by rewrite decide_False by apply not_elem_of_nil.
  - unfold SimpleCache.clearTimeout at 1. rewrite lookup_delete.
    destruct (decide (h = timer)) as [-> | Hne].
    + by rewrite decide_True by left.
    + rewrite IH. destruct (decide (timer ∈ handles)) as [Hin | Hnin].
      * by rewrite decide_True by (by right).
      * rewrite decide_False; [done |].
        intros Hin. apply elem_of_cons in Hin as [-> | Hin]; done.
Qed.

Lemma new_consistent : cacheConsistent (SimpleCache.new : SimpleCache.State V).
Proof.
  split; [| split]; cbn.
  - intros key. by rewrite !lookup_empty.
  - intros key timer. rewrite !lookup_empty. split; [done |].
    intros [ttl Hp]. by rewrite ?lookup_empty in Hp.
  - intros timer Hp. rewrite lookup_empty in Hp. by apply is_Some_None in Hp.
Qed.

Lemma set_consistent s key (value : V) (ttl : option Z) :
  cacheConsistent s -> cacheConsistent (SimpleCache.set key value ttl s).
Proof.
  intros (Hdom & Htimers & Hissued). unfold SimpleCache.set.
  set (timeouts := match SimpleCache.timers s !! key with
                   | Some timer => SimpleCache.clearTimeout timer (SimpleCache.pending s)
                   | None => SimpleCache.pending s
                   end).
  assert (Hold : forall timer k ttl',
             timeouts !! timer = Some (k, ttl')
             <-> SimpleCache.pending s !! timer = Some (k, ttl') /\ k <> key).
  { intros timer k ttl'. unfold timeouts.
    destruct (SimpleCache.timers s !! key) as [old |] eqn:Hkey.
    - unfold SimpleCache.clearTimeout. rewrite lookup_delete.
      destruct (decide (old = timer)) as [-> | Hne].
      + split; [done |]. intros [Hp Hk].
        assert (SimpleCache.timers s !! k = Some timer) as Hk'
          by (apply Htimers; by exists ttl').
        apply Htimers in Hkey as [ttl0 Hkey]. congruence.
      + split; [| by intros [? _]]. intros Hp. split; [done |]. intros ->.
        assert (SimpleCache.timers s !! key = Some timer) as Hk'
          by (apply Htimers; by exists ttl').
        congruence.
    - split; [| by intros [? _]]. intros Hp. split; [done |]. intros ->.
      assert (SimpleCache.timers s !! key = Some timer) as Hk'
        by (apply Htimers; by exists ttl').
      congruence. }
  assert (Hfresh : timeouts !! SimpleCache.issued s = None).
  { destruct (timeouts !! SimpleCache.issued s) as [[k ttl'] |] eqn:Hp; [| done].
    apply Hold in Hp as [Hp _].
    assert (SimpleCache.issued s < SimpleCache.issued s)%nat; [| lia].
    apply Hissued. by rewrite Hp. }
  split; [| split]; cbn.
  - intros k. destruct (decide (key = k)) as [<- | Hne].
    + by rewrite !lookup_insert_eq.
    + rewrite !lookup_insert_ne by done. apply Hdom.
  - intros k timer. split.
    + destruct (decide (key = k)) as [<- | Hne].
      * rewrite lookup_insert_eq. intros [= <-].
        eexists. by rewrite lookup_insert_eq.
      * rewrite lookup_insert_ne by done. intros Hk.
        apply Htimers in Hk as [ttl' Hk]. exists ttl'.
        rewrite lookup_insert_ne.
        -- apply Hold. by split.
        -- intros <-. assert (SimpleCache.issued s < SimpleCache.issued s)%nat; [| lia].
           apply Hissued. by rewrite Hk.
    + intros [ttl' Hp]. destruct (decide (SimpleCache.issued s = timer)) as [<- | Hne].
      * rewrite lookup_insert_eq in Hp. injection Hp as <- _.
        by rewrite lookup_insert_eq.
      * rewrite lookup_insert_ne in Hp by done. apply Hold in Hp as [Hp Hk].
        rewrite lookup_insert_ne by done. apply Htimers. by exists ttl'.
  - intros timer Hp. destruct (decide (SimpleCache.issued s = timer)) as [<- | Hne];
      [lia |].
    rewrite lookup_insert_ne in Hp by done.
    destruct Hp as [[k ttl'] Hp]. apply Hold in Hp as [Hp _].
    assert (timer < SimpleCache.issued s)%nat; [| lia].
    apply Hissued. by rewrite Hp.
Qed.

Lemma evict_consistent s key timer :
  cacheConsistent s ->
  SimpleCache.timers s !! key = Some timer ->
  cacheConsistent
    {| SimpleCache.cache := base.delete key (SimpleCache.cache s);
       SimpleCache.timers := base.delete key (SimpleCache.timers s);
       SimpleCache.pending := base.delete timer (SimpleCache.pending s);
       SimpleCache.issued := SimpleCache.issued s |}.
Proof.
  intros (Hdom & Htimers & Hissued) Hkey. split; [| split]; cbn.
  - intros k. rewrite !lookup_delete. destruct (decide (key = k)); [done | apply Hdom].
  - intros k timer0. split.
    + rewrite lookup_delete. destruct (decide (key = k)) as [<- | Hne]; [done |].
      intros Hk. pose proof Hk as Hk'. apply Htimers in Hk as [ttl' Hk]. exists ttl'.
      rewrite lookup_delete_ne; [done |]. intros <-.
      apply Htimers in Hkey as [ttl0 Hkey]. congruence.
    + intros [ttl' Hp]. rewrite lookup_delete in Hp.
      destruct (decide (timer = timer0)) as [<- | Hne]; [done |].
      rewrite lookup_delete_ne.
      * apply Htimers. by exists ttl'.
      * intros <-. assert (SimpleCache.timers s !! key = Some timer0) as Hk
          by (apply Htimers; by exists ttl').
        congruence.
  - intros timer0 Hp. rewrite lookup_delete in Hp.
    destruct (decide (timer = timer0)); [by apply is_Some_None in Hp | by apply Hissued].
Qed.

Lemma delete_consistent s key :
  cacheConsistent s -> cacheConsistent (SimpleCache.delete key s).
Proof.
  intros Hs. unfold SimpleCache.delete.
  destruct (SimpleCache.timers s !! key) as [timer |] eqn:Hkey.
  - by apply evict_consistent.
  - destruct Hs as (Hdom & Htimers & Hissued).
    assert (Hnone : SimpleCache.cache s !! key = None).
    { apply eq_None_not_Some. intros Hsome. apply Hdom in Hsome.
      rewrite Hkey in Hsome. by apply is_Some_None in Hsome. }
    rewrite (delete_id _ _ Hnone). by destruct s.
Qed.

Lemma fire_consistent s timer :
  cacheConsistent s -> cacheConsistent (SimpleCache.fire timer s).
Proof.
  intros Hs. unfold SimpleCache.fire.
  destruct (SimpleCache.pending s !! timer) as [[key ttl] |] eqn:Hp; [| done].
  apply evict_consistent; [done |].
  destruct Hs as (_ & Htimers & _). apply Htimers. by exists ttl.
Qed.

Lemma clear_pending s :
  cacheConsistent s -> SimpleCache.pending (SimpleCache.clear s) = ∅.
Proof.
  intros (_ & Htimers & _). apply map_eq. intros timer.
  cbn [SimpleCache.clear SimpleCache.pending].
  rewrite foldr_clearTimeout_lookup, lookup_empty.
  destruct (decide (timer ∈ (map_to_list (SimpleCache.timers s)).*2)) as [_ | Hnin];
    [done |].
  destruct (SimpleCache.pending s !! timer) as [[key ttl] |] eqn:Hp; [| done].
  exfalso. apply Hnin. apply list_elem_of_fmap. exists (key, timer). split; [done |].
  apply elem_of_map_to_list. apply Htimers. by exists ttl.
Qed.

Lemma clear_consistent s :
  cacheConsistent s -> cacheConsistent (SimpleCache.clear s).
Proof.
  intros Hs. pose proof (clear_pending s Hs) as Hp.
  unfold cacheConsistent. rewrite Hp. cbn.
  split; [| split].
  - intros key. by rewrite !lookup_empty.
  - intros key timer. rewrite !lookup_empty. split; [done |].
    intros [ttl Hq]. by rewrite ?lookup_empty in Hq.
  - intros timer Hq. rewrite lookup_empty in Hq. by apply is_Some_None in Hq.
Qed.

Lemma step_consistent s (e : SimpleCache.Event V) :
  cacheConsistent s -> cacheConsistent (SimpleCache.step s e).
Proof.
  destruct e; cbn [SimpleCache.step].
  - apply set_consistent.
  - apply delete_consistent.
  - apply clear_consistent.
  - apply fire_consistent.
Qed.

Lemma run_consistent (history : list (SimpleCache.Event V)) :
  cacheConsistent (SimpleCache.run history).
Proof.
  unfold SimpleCache.run.
  induction history as [| e history IH] using rev_ind; [apply new_consistent |].
  rewrite fold_left_app. cbn [fold_left]. by apply step_consistent.
Qed.

(** X14. Whatever calls were made on a cache and whichever of its
    timeouts have fired, a key holds a value exactly when a timeout is
    pending for it, and every pending timeout is the one timer registered
    for its key: no entry is left without an expiry and no timeout is left
    behind for an entry that is gone. *)
Theorem cache_entries_have_one_timeout (history : list (SimpleCache.Event V)) :
  let s := SimpleCache.run history in
  (forall key,
      is_Some (SimpleCache.get key s)
      <-> exists timer ttl, SimpleCache.pending s !! timer = Some (key, ttl))
  /\ (forall key timer timer' ttl ttl',
        SimpleCache.pending s !! timer = Some (key, ttl) ->
        SimpleCache.pending s !! timer' = Some (key, ttl') ->
        timer = timer').
Proof.
  cbv zeta. destruct (run_consistent history) as (Hdom & Htimers & Hissued).
  set (s := SimpleCache.run history) in *. split.
  - intros key. split.
    + intros Hsome. apply Hdom in Hsome as [timer Hk].
      exists timer. by apply Htimers.
    + intros (timer & ttl & Hp). apply Hdom. exists timer.
      apply Htimers. by exists ttl.
  - intros key timer timer' ttl ttl' Hp Hp'.
    assert (SimpleCache.timers s !! key = Some timer) as Hk
      by (apply Htimers; by exists ttl).
    assert (SimpleCache.timers s !! key = Some timer') as Hk'
      by (apply Htimers; by exists ttl').
    congruence.
Qed.

(** After a [set], on a consistent cache: the timeout it has set, and what
    the timeouts do to the key when they fire. *)
Lemma set_timeouts s key (value : V) (ttl : option Z) :
  cacheConsistent s ->
  let s' := SimpleCache.set key value ttl s in
  exists timer,
    SimpleCache.pending s' !! timer
    = Some (key, SimpleCache.timeoutDelay (default 600000%Z ttl))
    /\ SimpleCache.get key (SimpleCache.fire timer s') = None
    /\ forall timer', timer' <> timer ->
                      SimpleCache.get key (SimpleCache.fire timer' s') = Some value.
Proof.
  intros Hs. cbv zeta.
  pose proof (set_consistent _ key value ttl Hs) as (_ & Htimers & _).
  exists (SimpleCache.issued s).
  assert (Hp : SimpleCache.pending (SimpleCache.set key value ttl s)
               !! SimpleCache.issued s
               = Some (key, SimpleCache.timeoutDelay (default 600000%Z ttl))).
  { unfold SimpleCache.set. cbn. apply lookup_insert_eq. }
  split; [exact Hp |]. split.
  - unfold SimpleCache.fire. rewrite Hp. unfold SimpleCache.get. cbn.
    apply lookup_delete_eq.
  - intros timer' Hne. unfold SimpleCache.fire.
    destruct (SimpleCache.pending (SimpleCache.set key value ttl s) !! timer')
      as [[k ttl'] |] eqn:Hp'; [| apply lookup_insert_eq].
    assert (Hk : k <> key).
    { intros ->. apply Hne.
      assert (SimpleCache.timers (SimpleCache.set key value ttl s) !! key
              = Some timer') as H1 by (apply Htimers; by eexists).
      assert (SimpleCache.timers (SimpleCache.set key value ttl s) !! key
              = Some (SimpleCache.issued s)) as H2 by (apply Htimers; by eexists).
      congruence. }
    unfold SimpleCache.get. cbn. rewrite lookup_delete_ne by done.
    apply lookup_insert_eq.
Qed.

Lemma timeoutDelay_values (delay : Z) :
  ((1 <= delay <= 2147483647)%Z -> SimpleCache.timeoutDelay delay = delay)
  /\ ((delay < 1 \/ 2147483647 < delay)%Z -> SimpleCache.timeoutDelay delay = 1%Z).
Proof.
  unfold SimpleCache.timeoutDelay.
  destruct (Z.leb_spec 1 delay), (Z.leb_spec delay 2147483647); cbn; split; lia.
Qed.

(** X15. After [set(key, value, ttl)], on a cache with any history,
    [get(key)] returns the value, and exactly one pending timeout can take it
    away: the one this call has set.  Its delay is [ttl], or ten minutes when
    no [ttl] is given, if that lies between 1 and 2147483647 milliseconds;
    with any other [ttl] the timeout runs after 1 millisecond.  A timeout
    set for the key by an earlier call has been cleared, so no other timeout
    that fires removes the value.  The other keys are as they were. *)
Theorem set_then_get (history : list (SimpleCache.Event V))
  (key : string) (value : V) (ttl : option Z) :
  let s := SimpleCache.set key value ttl (SimpleCache.run history) in
  let asked := default 600000%Z ttl in
  SimpleCache.get key s = Some value
  /\ (forall other, other <> key ->
                    SimpleCache.get other s
                    = SimpleCache.get other (SimpleCache.run history))
  /\ exists timer delay,
       SimpleCache.pending s !! timer = Some (key, delay)
       /\ ((1 <= asked <= 2147483647)%Z -> delay = asked)
       /\ ((asked < 1 \/ 2147483647 < asked)%Z -> delay = 1%Z)
       /\ SimpleCache.get key (SimpleCache.fire timer s) = None
       /\ forall timer', timer' <> timer ->
                         SimpleCache.get key (SimpleCache.fire timer' s) = Some value.
Proof.
  cbv zeta. split; [apply lookup_insert_eq |]. split.
  - intros other Hne. unfold SimpleCache.get, SimpleCache.set. cbn.
    by rewrite lookup_insert_ne.
  - destruct (set_timeouts (SimpleCache.run history) key value ttl
                (run_consistent history)) as (timer & Hp & Hfire & Hother).
    exists timer, (SimpleCache.timeoutDelay (default 600000%Z ttl)).
    split; [exact Hp |].
    split; [apply timeoutDelay_values |].
    split; [apply timeoutDelay_values |].
    by split.
Qed.

(** A [ttl] out of range: the entry is gone after a millisecond, not after
    the month that was asked for. *)
Example ttl_out_of_range :
  SimpleCache.pending
    (SimpleCache.set "k" "v" (Some 2592000000%Z) SimpleCache.new) !! 0%nat
  = Some ("k", 1%Z).
Proof. reflexivity. Qed.

(** X16. [clear()] empties the cache and cancels every timeout the cache
    had pending, and [delete(key)] removes the key's value together with its
    timeout and touches no other key: after either, no timeout is left that
    could fire for a removed entry. *)
Theorem clear_and_delete_cancel_timeouts (history : list (SimpleCache.Event V))
  (key : string) :
  let s := SimpleCache.run history in
  SimpleCache.size (SimpleCache.clear s) = 0%nat
  /\ SimpleCache.pending (SimpleCache.clear s) = ∅
  /\ SimpleCache.get key (SimpleCache.delete key s) = None
  /\ (forall timer ttl,
        SimpleCache.pending (SimpleCache.delete key s) !! timer <> Some (key, ttl))
  /\ (forall other, other <> key ->
        SimpleCache.get other (SimpleCache.delete key s) = SimpleCache.get other s).
Proof.
  cbv zeta. pose proof (run_consistent history) as Hs.
  pose proof (delete_consistent _ key Hs) as (Hdom & Htimers & _).
  set (s := SimpleCache.run history) in *.
  assert (Hget : SimpleCache.get key (SimpleCache.delete key s) = None).
  { unfold SimpleCache.get, SimpleCache.delete.
    destruct (SimpleCache.timers s !! key); cbn; apply lookup_delete_eq. }
  split; [done |]. split; [by apply clear_pending |]. split; [exact Hget |]. split.
  - intros timer ttl Hp.
    assert (is_Some (SimpleCache.cache (SimpleCache.delete key s) !! key)) as Hsome.
    { apply Hdom. exists timer. apply Htimers. by exists ttl. }
    unfold SimpleCache.get in Hget. rewrite Hget in Hsome.
    by apply is_Some_None in Hsome.
  - intros other Hne. unfold SimpleCache.get, SimpleCache.delete.
    destruct (SimpleCache.timers s !! key); cbn; by rewrite lookup_delete_ne.
Qed.

End CacheFacts.

(** ** The validation middleware *)

Section Validation.

Import SearchInput.

Lemma trimStart_idempotent (s : string) : trimStart (trimStart s) = trimStart s.
Proof.
  induction s as [| c r IH]; [done |].
  cbn [trimStart]. destruct (isWhiteSpace c) eqn:Hc; [exact IH |].
  cbn [trimStart]. by rewrite Hc.
Qed.

Lemma trimEnd_idempotent (s : string) : trimEnd (trimEnd s) = trimEnd s.
Proof.
  induction s as [| c r IH]; [done |].
  cbn [trimEnd]. destruct (trimEnd r) as [| d rest] eqn:Hr.
  - destruct (isWhiteSpace c) eqn:Hc; [done |]. cbn [trimEnd]. by rewrite Hc.
  - change (trimEnd (String c (String d rest)))
      with (match trimEnd (String d rest) with
            | EmptyString =>
                if isWhiteSpace c then EmptyString else String c EmptyString
            | String d' rest' => String c (String d' rest')
            end).
    by rewrite IH.
Qed.

Lemma trimStart_trimEnd (s : string) : trimStart (trimEnd s) = trimEnd (trimStart s).
Proof.
  induction s as [| c r IH]; [done |].
  cbn [trimStart trimEnd]. destruct (isWhiteSpace c) eqn:Hc.
  - rewrite <- IH. destruct (trimEnd r) as [| d rest]; [done |].
    cbn [trimStart]. by rewrite Hc.
  - cbn [trimEnd]. rewrite Hc.
    destruct (trimEnd r) as [| d rest]; cbn [trimStart]; by rewrite Hc.
Qed.

Lemma trim_idempotent (s : string) : trim (trim s) = trim s.
Proof.
  unfold trim. rewrite (trimStart_trimEnd (trimStart s)).
  by rewrite trimStart_idempotent, trimEnd_idempotent.
Qed.

Lemma trimEnd_nonempty (c : ascii) (r : string) :
  isWhiteSpace c = false -> trimEnd (String c r) <> "".
Proof. intros Hc. cbn [trimEnd]. destruct (trimEnd r); by rewrite ?Hc. Qed.

Lemma trim_blank_trimStart (s : string) : trim s = "" -> trimStart s = "".
Proof.
  unfold trim. induction s as [| c r IH]; [done |].
  cbn [trimStart]. destruct (isWhiteSpace c) eqn:Hc; [exact IH |].
  intros Hempty. by apply trimEnd_nonempty in Hempty.
Qed.

Lemma trimStart_blank_trimEnd (s : string) : trimStart s = "" -> trimEnd s = "".
Proof.
  induction s as [| c r IH]; [done |].
  cbn [trimStart trimEnd]. destruct (isWhiteSpace c) eqn:Hc; [| done].
  intros Hr. by rewrite (IH Hr).
Qed.

Lemma trimStart_blank_app (blank s : string) :
  trimStart blank = "" -> trimStart (blank ++ s) = trimStart s.
Proof.
  induction blank as [| c r IH]; [done |].
  rewrite append_cons. cbn [trimStart].
  destruct (isWhiteSpace c); [exact IH | done].
Qed.

Lemma trimEnd_app_blank (s blank : string) :
  trimEnd blank = "" -> trimEnd (s ++ blank) = trimEnd s.
Proof.
  intros Hblank. induction s as [| c r IH]; [exact Hblank |].
  rewrite append_cons. cbn [trimEnd]. by rewrite IH.
Qed.

Lemma trim_padded (before s after : string) :
  trim before = "" -> trim after = "" -> trim (before ++ s ++ after) = trim s.
Proof.
  intros Hb Ha. apply trim_blank_trimStart in Hb. apply trim_blank_trimStart in Ha.
  unfold trim. rewrite (trimStart_blank_app _ _ Hb).
  rewrite <- !trimStart_trimEnd.
  by rewrite (trimEnd_app_blank _ _ (trimStart_blank_trimEnd _ Ha)).
Qed.

Lemma missing_false (field : option string) :
  missing field = false ->
  exists s, field = Some s /\ trim s <> "".
Proof.
  destruct field as [s |]; [| done]. cbn [missing].
  intros Hm. apply orb_false_iff in Hm as [_ Hlen].
  exists s. split; [done |]. intros Hempty. by rewrite Hempty in Hlen.
Qed.

Lemma missing_trimmed (s : string) : trim s <> "" -> missing (Some (trim s)) = false.
Proof.
  intros Hne. cbn [missing]. rewrite trim_idempotent.
  destruct (trim s) as [| c r]; [done |]. done.
Qed.

(** X17. A body the middleware lets through reaches the handler with
    [location] and [needType] not empty and free of blank space at either
    end, and with an [urgency] that is absent, empty or one of [emergency],
    [urgent], [scheduled], so that the handler's [searchData.urgency] is
    always one of the three.  Validating the rewritten body again accepts it
    and changes nothing. *)
Theorem validation_sanitizes (body body' : Body) :
  validateSearchInput body = Next body' ->
  (exists s, location body' = Some s /\ s <> "" /\ trim s = s)
  /\ (exists s, needType body' = Some s /\ s <> "" /\ trim s = s)
  /\ (JS.truthy (urgency body') = true ->
      exists u, urgency body' = Some u /\ u ∈ validUrgency)
  /\ (exists u, urgency (searchData body') = Some u /\ u ∈ validUrgency)
  /\ validateSearchInput body' = Next body'.
Proof.
  unfold validateSearchInput.
  destruct (missing (location body)) eqn:Hl; [done |].
  destruct (missing (needType body)) eqn:Hn; [done |].
  apply missing_false in Hl as (l & Hl & Hlne).
  apply missing_false in Hn as (n & Hn & Hnne).
  rewrite Hl, Hn. cbn [fmap option_fmap option_map].
  set (urgency' := if JS.truthy (urgency body)
                      && negb (JS.arrayIncludes validUrgency (default "" (urgency body)))
                   then Some "scheduled" else urgency body).
  set (needs' := if JS.truthy (additionalNeeds body)
                 then trim <$> additionalNeeds body else additionalNeeds body).
  assert (Hu : JS.truthy urgency' = true ->
               exists u, urgency' = Some u /\ u ∈ validUrgency).
  { unfold urgency'. destruct (urgency body) as [u |]; [| done].
    destruct (JS.truthy (Some u)) eqn:Ht; [| cbn [andb]; congruence].
    cbn [andb]. change (default "" (Some u)) with u.
    destruct (JS.arrayIncludes validUrgency u) eqn:Hv; cbn [negb].
    - intros _. exists u. split; [done |]. by apply arrayIncludes_elem_of.
    - intros _. exists "scheduled". split; [done |]. set_solver. }
  intros [= <-]. cbn [location needType urgency language insurance additionalNeeds].
  split; [exists (trim l); by rewrite trim_idempotent |].
  split; [exists (trim n); by rewrite trim_idempotent |].
  split; [exact Hu |]. split.
  - cbn [searchData urgency].
    destruct (JS.truthy urgency') eqn:Ht.
    + destruct (Hu eq_refl) as (u & Hu' & Hin). rewrite Hu' in Ht |- *.
      exists u. split; [| done]. by destruct u.
    + exists "scheduled". split; [| set_solver].
      by destruct urgency' as [[| c r] |].
  - rewrite (missing_trimmed l Hlne), (missing_trimmed n Hnne).
    cbn [fmap option_fmap option_map]. rewrite !trim_idempotent. f_equal. f_equal.
    + destruct (JS.truthy urgency') eqn:Ht; [| done].
      destruct (Hu eq_refl) as (u & Hu' & Hin). rewrite Hu'.
      change (default "" (Some u)) with u.
      apply arrayIncludes_elem_of in Hin. rewrite Hin. by rewrite andb_false_r.
    + unfold needs'. destruct (additionalNeeds body) as [a |]; [| done].
      destruct (JS.truthy (Some a)) eqn:Ha; [| by rewrite Ha].
      cbn [fmap option_fmap option_map].
      destruct (JS.truthy (Some (trim a))); [| done].
      cbn [fmap option_fmap option_map]. by rewrite trim_idempotent.
Qed.

End Validation.

Lemma validation_sanitizes_witness :
  SearchInput.validateSearchInput sampleBody
  = SearchInput.Next
      {| SearchInput.location := Some "Kathmandu";
         SearchInput.needType := Some "emergency";
         SearchInput.urgency := Some "scheduled";
         SearchInput.language := None;
         SearchInput.insurance := None;
         SearchInput.additionalNeeds := Some "wheelchair" |}
  /\ SearchInput.urgency
       (SearchInput.searchData
          {| SearchInput.location := Some "Kathmandu";
             SearchInput.needType := Some "emergency";
             SearchInput.urgency := Some "scheduled";
             SearchInput.language := None;
             SearchInput.insurance := None;
             SearchInput.additionalNeeds := Some "wheelchair" |})
     = Some "scheduled"
  /\ SearchInput.validateSearchInput
       {| SearchInput.location := Some "Kathmandu";
          SearchInput.needType := Some "emergency";
          SearchInput.urgency := Some "scheduled";
          SearchInput.language := None;
          SearchInput.insurance := None;
          SearchInput.additionalNeeds := Some "wheelchair" |}
     = SearchInput.Next
         {| SearchInput.location := Some "Kathmandu";
            SearchInput.needType := Some "emergency";
            SearchInput.urgency := Some "scheduled";
            SearchInput.language := None;
            SearchInput.insurance := None;
            SearchInput.additionalNeeds := Some "wheelchair" |}.
Proof.
  split; [reflexivity |]. split; [reflexivity |].
  exact (proj2 (proj2 (proj2 (proj2
           (validation_sanitizes sampleBody _ eq_refl))))).
Defined.

(** ** The cached search *)

Section CachedSearchFacts.

Import SearchInput.

Context {Response : Type}.
Variable stringify : Body -> string.
Variable truthyResponse : Response -> bool.

Lemma missing_Some (s : string) :
  missing (Some s) = (String.length (trim s) =? 0)%nat.
Proof. cbn [missing]. by destruct s. Qed.

Lemma missing_padded (before s after : string) :
  trim before = "" -> trim after = "" ->
  missing (Some (before ++ s ++ after)) = missing (Some s).
Proof. intros Hb Ha. by rewrite !missing_Some, trim_padded. Qed.

(** X18. Blank space around the location and the need type makes no
    difference: the middleware rewrites the padded body to the same body as
    the unpadded one, so the two requests are looked up under the same cache
    key and get the same reply. *)
Theorem blank_space_around_is_ignored
  (body : Body) (l n before after before' after' : string)
  (computed : option Response) (searchCache later : SimpleCache.State Response) :
  location body = Some l -> needType body = Some n ->
  trim before = "" -> trim after = "" -> trim before' = "" -> trim after' = "" ->
  let padded :=
    {| location := Some (before ++ l ++ after);
       needType := Some (before' ++ n ++ after');
       urgency := urgency body;
       language := language body;
       insurance := insurance body;
       additionalNeeds := additionalNeeds body |} in
  validateSearchInput padded = validateSearchInput body
  /\ postSearch stringify truthyResponse padded computed searchCache later
     = postSearch stringify truthyResponse body computed searchCache later.
Proof.
  intros Hl Hn Hb Ha Hb' Ha'. cbv zeta.
  assert (Hsame :
            validateSearchInput
              {| location := Some (before ++ l ++ after);
                 needType := Some (before' ++ n ++ after');
                 urgency := urgency body;
                 language := language body;
                 insurance := insurance body;
                 additionalNeeds := additionalNeeds body |}
            = validateSearchInput body).
  { unfold validateSearchInput.
    cbn [location needType urgency language insurance additionalNeeds].
    rewrite Hl, Hn, !missing_padded by done.
    cbn [fmap option_fmap option_map]. by rewrite !trim_padded. }
  split; [exact Hsame |]. unfold postSearch. by rewrite Hsame.
Qed.

Lemma cacheTime_urgency (body : Body) :
  cacheTime (searchData body)
  = if bool_decide (urgency body = Some "emergency") then 300000%Z else 1800000%Z.
Proof.
  unfold cacheTime. cbn [searchData urgency].
  by destruct (urgency body) as [[| c r] |].
Qed.

(** X19. A response the handler has computed, if it is truthy, is stored
    under the key of the request with a timeout of 5 minutes when the urgency
    is [emergency] and of 30 minutes otherwise, whatever happened to the
    cache while it was computed.  Until that timeout fires, the same request
    is answered with the stored response and [cached: true], without a new
    computation and without a change to the cache, also after other timeouts
    of the cache have fired. *)
Theorem computed_response_is_cached
  (history meanwhile : list (SimpleCache.Event Response)) (body : Body)
  (enriched : Response) (searchCache' : SimpleCache.State Response) :
  truthyResponse enriched = true ->
  cachedSearch stringify truthyResponse body (Some enriched) (SimpleCache.run history)
    (SimpleCache.run (history ++ meanwhile))
  = (Json enriched false, searchCache') ->
  (forall computed later,
      cachedSearch stringify truthyResponse body computed searchCache' later
      = (Json enriched true, searchCache'))
  /\ exists timer,
       SimpleCache.pending searchCache' !! timer
       = Some (cacheKey stringify (searchData body),
               if bool_decide (urgency body = Some "emergency")
               then 300000%Z else 1800000%Z)
       /\ forall timer' computed later,
            timer' <> timer ->
            cachedSearch stringify truthyResponse body computed
              (SimpleCache.fire timer' searchCache') later
            = (Json enriched true, SimpleCache.fire timer' searchCache').
Proof.
  intros Htruthy Hcomputed.
  assert (Hset : searchCache'
                 = SimpleCache.set (cacheKey stringify (searchData body)) enriched
                     (Some (cacheTime (searchData body)))
                     (SimpleCache.run (history ++ meanwhile))).
  { unfold cachedSearch in Hcomputed.
    destruct (SimpleCache.get _ (SimpleCache.run history)) as [cachedResult |];
      [destruct (truthyResponse cachedResult) |]; congruence. }
  assert (Hhit : forall cache computed later,
             SimpleCache.get (cacheKey stringify (searchData body)) cache = Some enriched ->
             cachedSearch stringify truthyResponse body computed cache later
             = (Json enriched true, cache)).
  { intros cache computed later Hget. unfold cachedSearch. by rewrite Hget, Htruthy. }
  destruct (set_timeouts (SimpleCache.run (history ++ meanwhile))
              (cacheKey stringify (searchData body))
              enriched (Some (cacheTime (searchData body)))
              (run_consistent (history ++ meanwhile)))
    as (timer & Hp & _ & Hother).
  rewrite <- Hset in Hp, Hother. split.
  - intros computed later. apply Hhit. rewrite Hset. apply lookup_insert_eq.
  - exists timer. split.
    + rewrite Hp. cbn [default]. rewrite cacheTime_urgency.
      by destruct (bool_decide (urgency body = Some "emergency")).
    + intros timer' computed later Hne. by apply Hhit, Hother.
Qed.

End CachedSearchFacts.

Lemma blank_space_around_is_ignored_witness :
  SearchInput.trim "  " = "" /\ SearchInput.trim " " = "" /\ SearchInput.trim "" = ""
  /\ SearchInput.validateSearchInput sampleBody
     = SearchInput.validateSearchInput
         {| SearchInput.location := Some "Kathmandu";
            SearchInput.needType := Some "emergency";
            SearchInput.urgency := Some "asap";
            SearchInput.language := None;
            SearchInput.insurance := None;
            SearchInput.additionalNeeds := Some " wheelchair " |}.
Proof.
  split; [reflexivity |]. split; [reflexivity |]. split; [reflexivity |].
  exact (proj1 (blank_space_around_is_ignored sampleStringify sampleTruthy
                  {| SearchInput.location := Some "Kathmandu";
                     SearchInput.needType := Some "emergency";
                     SearchInput.urgency := Some "asap";
                     SearchInput.language := None;
                     SearchInput.insurance := None;
                     SearchInput.additionalNeeds := Some " wheelchair " |}
                  "Kathmandu" "emergency" "  " " " "" "" None SimpleCache.new
                  SimpleCache.new eq_refl eq_refl eq_refl eq_refl eq_refl eq_refl)).
Defined.

Lemma computed_response_is_cached_witness :
  let body :=
    {| SearchInput.location := Some "Kathmandu";
       SearchInput.needType := Some "emergency";
       SearchInput.urgency := Some "emergency";
       SearchInput.language := None;
       SearchInput.insurance := None;
       SearchInput.additionalNeeds := None |} in
  let searchCache' :=
    SimpleCache.set "search_Kathmandu|emergency|emergency|en|undefined|undefined"
      "three hospitals" (Some 300000%Z) SimpleCache.new in
  sampleTruthy "three hospitals" = true
  /\ cachedSearch sampleStringify sampleTruthy body (Some "three hospitals")
       (SimpleCache.run []) (SimpleCache.run ([] ++ []))
     = (Json "three hospitals" false, searchCache')
  /\ cachedSearch sampleStringify sampleTruthy body None searchCache' SimpleCache.new
     = (Json "three hospitals" true, searchCache').
Proof.
  cbv zeta. split; [reflexivity |]. split; [reflexivity |].
  exact (proj1 (computed_response_is_cached sampleStringify sampleTruthy [] []
                  {| SearchInput.location := Some "Kathmandu";
                     SearchInput.needType := Some "emergency";
                     SearchInput.urgency := Some "emergency";
                     SearchInput.language := None;
                     SearchInput.insurance := None;
                     SearchInput.additionalNeeds := None |}
                  "three hospitals" _ eq_refl eq_refl) None SimpleCache.new).
Defined.

(** ** The route [POST /search] from end to end *)

Section SearchRouteFacts.
#[local] Open Scope list_scope.
#[local] Open Scope Z_scope.

Variable encodeURIComponent : string -> string.
Variable numberToString : float -> string.
Variable calculateDistance : float -> float -> float -> float -> DistanceUnit -> Rounded.

#[local] Abbreviation getRealFacilities'' :=
  (getRealFacilities encodeURIComponent numberToString calculateDistance).
#[local] Abbreviation searchRoute' :=
  (searchRoute encodeURIComponent numberToString calculateDistance).

Lemma collectPlaces_nothing (answers : list QueryAnswer) :
  Forall (fun answer =>
            answer = QueryFailed \/ answer = QueryAnswered None
            \/ answer = QueryAnswered (Some [])) answers ->
  collectPlaces answers = [].
Proof.
  induction 1 as [| answer answers Hanswer _ IH]; [done |].
  rewrite collectPlaces_cons, IH.
  by destruct Hanswer as [-> | [-> | ->]].
Qed.

(** X20. When every place query fails or comes back without places, the
    route answers that no facilities were found, with the language detected
    for the place, [en] when the place could not be geocoded; it does not
    answer with an error and does not call the enrichment. *)
Theorem search_without_places
  (location : string) (needTypes : list string) (language : option string)
  (userCoords userCoordsAgain : option GeoPoint) (answers : list QueryAnswer)
  (aiAnalysis : option AIAnalysis) :
  location <> "" -> needTypes <> [] ->
  Forall (fun answer =>
            answer = QueryFailed \/ answer = QueryAnswered None
            \/ answer = QueryAnswered (Some [])) answers ->
  searchRoute' (Some location) (Some needTypes) language userCoords userCoordsAgain
    (collectPlaces answers) aiAnalysis
  = SearchNothingFound "No medical facilities found in your area"
      "Try searching for a larger city or different location"
      (match userCoords with
       | Some coords => getLocalLanguage (country coords)
       | None => "en"
       end).
Proof.
  intros Hlocation HneedTypes Hanswers.
  rewrite (collectPlaces_nothing answers Hanswers).
  destruct location as [| c rest]; [done |].
  destruct needTypes as [| needType others]; [done |].
  reflexivity.
Qed.

(** X21. A successful answer of the route has one entry per facility
    [getRealFacilities] ranked, in that order, and at least one; it announces
    as [search_radius] 50 miles when [support-groups] is asked for and 31
    otherwise; and an entry whose insight fields the code builds itself
    carries the ranked facility's name, distance and directions, and its
    distance, when it is a number, is not above the radius announced. *)
Theorem search_answer_lists_the_ranking
  (location : string) (needTypes : list string) (language : option string)
  (userCoords userCoordsAgain : option GeoPoint) (allFacilities : list Place)
  (aiAnalysis : option AIAnalysis) (results : EnhancedResults) (search_radius : string) :
  searchRoute' (Some location) (Some needTypes) language userCoords userCoordsAgain
    allFacilities aiAnalysis
  = SearchFound results search_radius ->
  let ranked := getRealFacilities'' location needTypes userCoordsAgain allFacilities in
  let radius := if JS.arrayIncludes needTypes "support-groups" then 50 else 31 in
  success results = true
  /\ ranked <> []
  /\ length (facilities results) = length ranked
  /\ search_radius
     = (if JS.arrayIncludes needTypes "support-groups"
        then "50 miles (80 km)" else "31 miles (50 km)")%string
  /\ (forall index facility,
        ranked !! index = Some facility ->
        is_Some (manualOverride needTypes
                   (JS.toLowerCase (default "" (displayName (place facility)))))
        \/ directAnalysis aiAnalysis index = None ->
        exists enhanced,
          facilities results !! index = Some enhanced
          /\ name enhanced = JS.orElse (displayName (place facility)) "Unknown"
          /\ enhancedDirections enhanced = directions facility
          /\ enhancedDistance enhanced = distance facility
          /\ forall d n,
               enhancedDistance enhanced = Some d -> miles d = Tenths n ->
               n <= 10 * radius).
Proof.
  cbv zeta. unfold searchRoute.
  destruct location as [| c rest]; [done |].
  destruct needTypes as [| needType others]; [done |].
  set (location := String c rest). set (needTypes := needType :: others).
  set (ranked := getRealFacilities'' location needTypes userCoordsAgain allFacilities).
  assert (Hradius : forall facility n,
             facility ∈ ranked -> knownMiles facility = Some n ->
             n <= 10 * (if JS.arrayIncludes needTypes "support-groups"
                        then 50 else 31)).
  { intros facility n Hin Hn. apply rank_elem_of in Hin as [_ Hwithin].
    rewrite <- maxDistance_values.
    apply (withinMaxDistance_known _ facility); [| exact Hwithin | exact Hn].
    unfold maxDistance. destruct (JS.arrayIncludes needTypes "support-groups"); lia. }
  destruct ranked as [| facility others'] eqn:Hranked; [done |].
  intros [= <- <-].
  set (languageContext := if String.eqb _ "local" then _ else _).
  cbn [enhanceWithChatGPT success facilities].
  change (enhanceFacility needTypes languageContext aiAnalysis 0 facility
          :: imap (enhanceFacility needTypes languageContext aiAnalysis ∘ S) others')
    with (imap (enhanceFacility needTypes languageContext aiAnalysis)
            (facility :: others')).
  split; [done |]. split; [done |]. split; [apply length_imap |]. split; [done |].
  intros index ranked' Hlookup Hown. eexists. split.
  - rewrite list_lookup_imap, Hlookup. reflexivity.
  - destruct (enhanceFacility_fromPlace needTypes languageContext aiAnalysis index ranked'
                (applyAIInsights_placeKeys _ _ _ _ _ Hown))
      as (Hname & _ & Hdistance & Hdirections).
    split; [exact Hname |]. split; [exact Hdirections |]. split; [exact Hdistance |].
    intros d n Hd Hn. rewrite Hdistance in Hd.
    apply (Hradius ranked'); [by apply list_elem_of_lookup_2 in Hlookup |].
    unfold knownMiles. by rewrite Hd, Hn.
Qed.

End SearchRouteFacts.

Lemma search_without_places_witness :
  "Kathmandu" <> "" /\ ["emergency"] <> ([] : list string)
  /\ searchRoute sampleEncode sampleNumberToString sampleDistance
       (Some "Kathmandu") (Some ["emergency"]) (Some "local") (Some kathmandu) None
       (collectPlaces [QueryFailed; QueryAnswered None; QueryAnswered (Some [])]) None
     = SearchNothingFound "No medical facilities found in your area"
         "Try searching for a larger city or different location" "ne".
Proof.
  split; [discriminate |]. split; [discriminate |].
  apply (search_without_places sampleEncode sampleNumberToString sampleDistance
           "Kathmandu" ["emergency"] (Some "local") (Some kathmandu) None
           [QueryFailed; QueryAnswered None; QueryAnswered (Some [])] None).
  - discriminate.
  - discriminate.
  - constructor; [by left |].
    constructor; [right; by left |].
    constructor; [right; by right |].
    constructor.
Defined.

Lemma search_answer_lists_the_ranking_witness :
  exists results,
    searchRoute sampleEncode sampleNumberToString sampleDistance
      (Some "Kathmandu") (Some ["emergency"]) (Some "local") (Some kathmandu)
      (Some kathmandu) [nepalEyeHospital; civilServiceHospital; vetClinic] None
    = SearchFound results "31 miles (50 km)"
    /\ name <$> facilities results = ["Civil Service Hospital"; "Nepal Eye Hospital"]
    /\ length (facilities results) = 2%nat.
Proof.
  eexists. split; [reflexivity |]. split; [reflexivity |].
  exact (proj1 (proj2 (proj2
           (search_answer_lists_the_ranking sampleEncode sampleNumberToString
              sampleDistance "Kathmandu" ["emergency"] (Some "local") (Some kathmandu)
              (Some kathmandu) [nepalEyeHospital; civilServiceHospital; vetClinic] None
              _ _ eq_refl)))).
Defined.

(** ** The enrichment of the running server *)

(** X22. The enrichment in [server.js] answers with the first ten
    facilities of the ranking and no more, in the ranking's order, each with
    its name, distance and directions, whatever the model answered;
    [total_facilities_found] still counts the whole ranking and
    [analyzed_count] the ones returned.  It reports success whenever there is
    a facility, also when the model's answer was lost. *)
Theorem older_enrichment_returns_the_first_ten
  (realFacilities : list Facility) (needTypes : list string)
  (analysis : option AIAnalysis) :
  let results := enhanceWithChatGPTOlder realFacilities needTypes analysis in
  (fun enhanced => (olderName enhanced, olderDistance enhanced, olderDirections enhanced))
    <$> olderFacilities results
  = (fun facility =>
       (JS.orElse (displayName (place facility)) "Unknown", distance facility,
        directions facility))
      <$> take 10 realFacilities
  /\ length (olderFacilities results) = (10 `min` length realFacilities)%nat
  /\ olderSuccess results = negb (bool_decide (realFacilities = []))
  /\ (realFacilities <> [] ->
      analyzed_count results = length (olderFacilities results)
      /\ older_total_facilities_found results = length realFacilities).
Proof.
  cbv zeta. unfold enhanceWithChatGPTOlder.
  destruct realFacilities as [| facility rest]; [done |].
  set (realFacilities := facility :: rest).
  cbn [olderFacilities olderSuccess older_total_facilities_found analyzed_count].
  split; [| split; [| split; [done |]]].
  - rewrite fmap_imap. rewrite <- (imap_const _ (take 10 realFacilities)).
    by apply imap_ext.
  - by rewrite length_imap, length_take.
  - intros _. by rewrite length_imap.
Qed.

(** ** The location bias of the oldest router *)

Lemma cityRectangles_withinBounds :
  forallb (fun entry => withinBounds (cityRectangle (snd entry))) cityCoordinates = true.
Proof. vm_compute. reflexivity. Qed.

(** X23. Without coordinates of the user, [getExtendedLocationBias] returns
    a rectangle, for every location text, and the rectangle is one the place
    search accepts: its low corner is not above its high corner, its
    latitudes lie between -85 and 85 and its longitudes between -179 and
    179. *)
Theorem location_bias_is_a_valid_rectangle (location : string) :
  (exists low high, getExtendedLocationBias location None = Rectangle low high)
  /\ withinBounds (getExtendedLocationBias location None) = true.
Proof.
  unfold getExtendedLocationBias.
  destruct (List.find _ cityCoordinates) as [[city coords] |] eqn:Hfind.
  - apply List.find_some in Hfind as [Hin _]. split.
    + by eexists _, _.
    + pose proof cityRectangles_withinBounds as Hall.
      rewrite forallb_forall in Hall. exact (Hall _ Hin).
  - split; [by eexists _, _ | by vm_compute].
Qed.

(** ** The language fields of the rule-based record *)

Lemma emergencyRules_language (needTypes : list string) (name facilityType : string)
  (i : Insights) :
  language_support (emergencyRules needTypes name facilityType i) = language_support i
  /\ language_note (emergencyRules needTypes name facilityType i) = language_note i.
Proof. unfold emergencyRules. by repeat case_match. Qed.

Lemma therapyRules_language (needTypes : list string) (name facilityType : string)
  (i : Insights) :
  language_support (therapyRules needTypes name facilityType i) = language_support i
  /\ language_note (therapyRules needTypes name facilityType i) = language_note i.
Proof. unfold therapyRules. by repeat case_match. Qed.

(** X24. The language fields of a facility the model gave no record for and
    no override applies to.  When the search language is English the
    facility is never reported with language support [Unknown]: unless the
    model's [patterns] say otherwise for the facility's type, it is reported
    as [Confirmed], wherever it is.  When the model sent no patterns, the
    record says [Confirmed] with the note that English is the primary
    language spoken in an English search, and [Unknown], not assessed, in
    any other language. *)
Theorem rule_based_language
  (needTypes : list string) (languageContext : string)
  (aiAnalysis : option AIAnalysis) (facility : Place) (index : nat) :
  directAnalysis aiAnalysis index = None ->
  manualOverride needTypes (JS.toLowerCase (default "" (displayName facility))) = None ->
  let result := applyAIInsights needTypes languageContext aiAnalysis facility index in
  (languageContext = "en" -> language_support result <> Some "Unknown")
  /\ ((aiAnalysis ≫= analysisPatterns) = None ->
      if String.eqb languageContext "en"
      then language_support result = Some "Confirmed"
           /\ language_note result = Some "English is the primary language spoken"
      else language_support result = Some "Unknown"
           /\ language_note result = Some "Language support not assessed").
Proof.
  intros Hdirect Hoverride. cbv zeta.
  unfold applyAIInsights. rewrite Hoverride, Hdirect.
  unfold patternInsights.
  set (name := JS.toLowerCase (default "" (displayName facility))).
  set (kind := getFacilityType facility).
  set (base := mkInsights "Medium" "Unknown" "Language support not assessed" "Good"
                 "Medical facility" kind).
  set (patterned := applyPatterns aiAnalysis kind base).
  set (ruled := therapyRules needTypes name kind
                  (emergencyRules needTypes name kind patterned)).
  assert (Hsupport : language_support ruled = language_support patterned).
  { unfold ruled.
    by rewrite (proj1 (therapyRules_language _ _ _ _)),
      (proj1 (emergencyRules_language _ _ _ _)). }
  assert (Hnote : language_note ruled = language_note patterned).
  { unfold ruled.
    by rewrite (proj2 (therapyRules_language _ _ _ _)),
      (proj2 (emergencyRules_language _ _ _ _)). }
  split.
  - intros ->. unfold defaultLanguage. rewrite Hsupport. cbn [String.eqb].
    destruct (decide (language_support patterned = Some "Unknown")) as [Hunknown | Hknown].
    + rewrite Hunknown. by rewrite bool_decide_eq_true_2 by done.
    + rewrite bool_decide_eq_false_2 by done. cbn [andb]. by rewrite Hsupport.
  - intros Hnone.
    assert (Hpatterned : patterned = base).
    { unfold patterned, applyPatterns.
      by destruct aiAnalysis as [[entries [patterns |]] |]. }
    unfold defaultLanguage. rewrite Hsupport, Hpatterned.
    cbn [language_support base mkInsights].
    rewrite bool_decide_eq_true_2 by done. cbn [andb].
    destruct (String.eqb languageContext "en"); [done |].
    by rewrite Hsupport, Hnote, Hpatterned.
Qed.

Lemma rule_based_language_witness :
  directAnalysis None 0 = None
  /\ manualOverride ["emergency"] (JS.toLowerCase (default "" (displayName cityHospital)))
     = None
  /\ language_support (applyAIInsights ["emergency"] "en" None cityHospital 0)
     = Some "Confirmed"
  /\ language_note (applyAIInsights ["emergency"] "en" None cityHospital 0)
     = Some "English is the primary language spoken".
Proof.
  split; [reflexivity |]. split; [reflexivity |].
  exact (proj2 (rule_based_language ["emergency"] "en" None cityHospital 0
                  eq_refl eq_refl) eq_refl).
Defined.

(** ** The distance between two points *)

Section Antipodes.

#[local] Open Scope float_scope.

Variables sin cos round : float -> float.
Variable atan2 : float -> float -> float.

#[local] Abbreviation a' := (Haversine.a sin cos).
#[local] Abbreviation calculateDistance' := (Haversine.calculateDistance sin cos round atan2).

(** ECMAScript: [Math.atan2] and [Math.round] return NaN for a NaN. *)
Hypothesis atan2_nan : forall y, atan2 y PrimFloat.nan = PrimFloat.nan.
Hypothesis round_nan : round PrimFloat.nan = PrimFloat.nan.

(** When the haversine leaves the domain of the square root, the distance
    is NaN. *)
Lemma calculateDistance_nan (lat1 lon1 lat2 lon2 : float) (unit : DistanceUnit) :
  PrimFloat.sqrt (1 - a' lat1 lon1 lat2 lon2) = PrimFloat.nan ->
  calculateDistance' lat1 lon1 lat2 lon2 unit = PrimFloat.nan.
Proof.
  intros Hroot. unfold Haversine.calculateDistance. cbv zeta.
  rewrite Hroot, atan2_nan.
  pose proof round_nan as Hround. vm_compute in Hround.
  destruct unit; vm_compute; rewrite Hround; reflexivity.
Qed.

(** The engine's sine and cosine at the angles of the two points: the
    correctly rounded values, the sine odd and the cosine even. *)
Hypothesis sin_latitudeAngle :
  sin latitudeAngle = latitudeSine /\ sin (- latitudeAngle) = - latitudeSine.
Hypothesis sin_quarterTurn : sin quarterTurn = 1 /\ sin (- quarterTurn) = -1.
Hypothesis cos_latitudeAngle :
  cos latitudeAngle = latitudeCosine /\ cos (- latitudeAngle) = latitudeCosine.

(** C5. For the point in Andalusia and its antipode the haversine [a] comes
    out as the double next above 1, in either direction; [Math.sqrt(1 - a)]
    is then NaN and so is the distance, in kilometres and in miles, and the
    comparison [calculateDistance(A, B) == calculateDistance(B, A)] is
    false. *)
Theorem antipodal_distance_is_not_a_number (unit : DistanceUnit) :
  let there :=
    calculateDistance' (latitude andalusia) (longitude andalusia)
      (latitude bayOfPlenty) (longitude bayOfPlenty) unit in
  let back :=
    calculateDistance' (latitude bayOfPlenty) (longitude bayOfPlenty)
      (latitude andalusia) (longitude andalusia) unit in
  a' (latitude andalusia) (longitude andalusia)
    (latitude bayOfPlenty) (longitude bayOfPlenty) = 0x1.0000000000001p+0
  /\ a' (latitude bayOfPlenty) (longitude bayOfPlenty)
       (latitude andalusia) (longitude andalusia) = 0x1.0000000000001p+0
  /\ there = PrimFloat.nan
  /\ back = PrimFloat.nan
  /\ PrimFloat.eqb there back = false.
Proof.
  cbv zeta.
  destruct sin_latitudeAngle as [Hsin Hsin'], sin_quarterTurn as [Hone Hone'],
    cos_latitudeAngle as [Hcos Hcos'].
  vm_compute in Hsin, Hsin', Hone, Hone', Hcos, Hcos'.
  assert (Hthere : a' (latitude andalusia) (longitude andalusia)
                     (latitude bayOfPlenty) (longitude bayOfPlenty)
                   = 0x1.0000000000001p+0).
  { vm_compute. rewrite Hsin', Hone, Hcos, Hcos'. reflexivity. }
  assert (Hback : a' (latitude bayOfPlenty) (longitude bayOfPlenty)
                    (latitude andalusia) (longitude andalusia)
                  = 0x1.0000000000001p+0).
  { vm_compute. rewrite Hsin, Hone', Hcos, Hcos'. reflexivity. }
  split; [exact Hthere |]. split; [exact Hback |].
  rewrite !calculateDistance_nan by (rewrite ?Hthere, ?Hback; reflexivity).
  repeat split.
Qed.

(** The distance from the point to itself is 0, given that the sine and the
    arc tangent of 0 are 0 and that 0 rounds to 0. *)
Example distance_to_itself (unit : DistanceUnit) :
  sin 0 = 0 -> atan2 0 1 = 0 -> round 0 = 0 ->
  calculateDistance' (latitude andalusia) (longitude andalusia)
    (latitude andalusia) (longitude andalusia) unit = 0.
Proof.
  intros Hsin Hatan2 Hround. destruct cos_latitudeAngle as [Hcos _].
  vm_compute in Hsin, Hatan2, Hround, Hcos.
  destruct unit; vm_compute; rewrite Hsin, Hcos; vm_compute;
    rewrite Hatan2; vm_compute; rewrite Hround; reflexivity.
Qed.

End Antipodes.

Lemma antipodal_distance_is_not_a_number_witness :
  Haversine.toRadians (latitude andalusia) = latitudeAngle
  /\ (Haversine.toRadians (longitude bayOfPlenty - longitude andalusia) / 2)%float
     = quarterTurn
  /\ PrimFloat.ltb 1
       (Haversine.a sampleSin sampleCos (latitude andalusia) (longitude andalusia)
          (latitude bayOfPlenty) (longitude bayOfPlenty)) = true
  /\ PrimFloat.is_nan
       (Haversine.calculateDistance sampleSin sampleCos sampleRound sampleAtan2
          (latitude andalusia) (longitude andalusia)
          (latitude bayOfPlenty) (longitude bayOfPlenty) UnitKm) = true.
Proof.
  split; [reflexivity |]. split; [reflexivity |]. split; [reflexivity |].
  destruct (antipodal_distance_is_not_a_number sampleSin sampleCos sampleRound sampleAtan2
              (fun y => eq_refl) eq_refl (conj eq_refl eq_refl) (conj eq_refl eq_refl)
              (conj eq_refl eq_refl) UnitKm)
    as (_ & _ & Hthere & _).
  rewrite Hthere. reflexivity.
Defined.

(** ** The engine's sort on a short array *)

Section EngineSortFacts.
Context {A : Type} (comparefn : A -> A -> Z).
#[local] Open Scope list_scope.
#[local] Open Scope Z_scope.

#[local] Abbreviation continues := (V8.continues comparefn).

Lemma runLength_le (isDescending : bool) (previous : A) (rest : list A) :
  (V8.runLength comparefn isDescending previous rest <= length rest)%nat.
Proof.
  revert previous. induction rest as [| current rest IH]; intros previous; cbn; [lia |].
  destruct (if isDescending then _ else _); [lia |]. specialize (IH current). lia.
Qed.

Lemma countAndMakeRun_app (l : list A) :
  let (run, rest) := V8.countAndMakeRun comparefn l in run ++ rest ≡ₚ l.
Proof.
  destruct l as [| first [| second rest]]; [by cbn | by cbn |].
  cbn [V8.countAndMakeRun].
  set (further := V8.runLength _ _ _ _).
  assert (Hrun : (first :: second :: take further rest) ++ drop further rest
                 = first :: second :: rest) by (cbn; by rewrite take_drop).
  destruct (comparefn second first <? 0); cbv beta iota.
  - rewrite reverse_Permutation. by rewrite Hrun.
  - by rewrite Hrun.
Qed.

Lemma insertPivot_Permutation (sorted : list A) (pivot : A) :
  V8.insertPivot comparefn sorted pivot ≡ₚ pivot :: sorted.
Proof.
  unfold V8.insertPivot. rewrite <- Permutation_middle. by rewrite take_drop.
Qed.

Lemma binaryInsertionSort_Permutation (run rest : list A) :
  V8.binaryInsertionSort comparefn run rest ≡ₚ run ++ rest.
Proof.
  unfold V8.binaryInsertionSort. revert run.
  induction rest as [| pivot rest IH]; intros run; cbn; [by rewrite app_nil_r |].
  rewrite IH, insertPivot_Permutation. by rewrite <- Permutation_middle.
Qed.

Lemma sortShort_Permutation (l : list A) : V8.sortShort comparefn l ≡ₚ l.
Proof.
  unfold V8.sortShort. pose proof (countAndMakeRun_app l) as Happ.
  destruct (V8.countAndMakeRun comparefn l) as [run rest].
  by rewrite binaryInsertionSort_Permutation.
Qed.

(** An array in which every element continues the run of the one before it
    is one run, and comes back as it is. *)
Lemma runLength_whole (previous : A) (rest : list A) :
  Sorted continues (previous :: rest) ->
  V8.runLength comparefn false previous rest = length rest.
Proof.
  revert previous. induction rest as [| current rest IH]; intros previous Hs; [done |].
  apply Sorted_inv in Hs as [Hs Hhd]. apply HdRel_inv in Hhd.
  cbn. unfold V8.continues in Hhd.
  destruct (Z.ltb_spec (comparefn current previous) 0); [lia |].
  by rewrite IH.
Qed.

Lemma sortShort_fixed (l : list A) : Sorted continues l -> V8.sortShort comparefn l = l.
Proof.
  intros Hs. unfold V8.sortShort.
  destruct l as [| first [| second rest]]; [done | done |].
  cbn [V8.countAndMakeRun].
  pose proof Hs as Hs'. apply Sorted_inv in Hs' as [Hs' Hhd]. apply HdRel_inv in Hhd.
  unfold V8.continues in Hhd.
  destruct (Z.ltb_spec (comparefn second first) 0); [lia |].
  rewrite (runLength_whole second rest Hs').
  by rewrite firstn_all, drop_all.
Qed.

(** From here on the comparator is skew: when it puts [a] strictly before
    [b] it does not put [b] strictly before [a]. *)
Hypothesis comparefn_skew : forall a b, comparefn a b < 0 -> 0 <= comparefn b a.

Lemma runLength_ascending (previous : A) (rest : list A) :
  Sorted continues (previous :: take (V8.runLength comparefn false previous rest) rest).
Proof.
  revert previous. induction rest as [| current rest IH]; intros previous; cbn.
  - repeat constructor.
  - destruct (Z.ltb_spec (comparefn current previous) 0); cbn.
    + repeat constructor.
    + constructor; [apply IH |]. constructor. exact H.
Qed.

Lemma runLength_descending (previous : A) (rest : list A) :
  Sorted (flip continues)
    (previous :: take (V8.runLength comparefn true previous rest) rest).
Proof.
  revert previous. induction rest as [| current rest IH]; intros previous; cbn.
  - repeat constructor.
  - destruct (Z.leb_spec 0 (comparefn current previous)); cbn.
    + repeat constructor.
    + constructor; [apply IH |]. constructor.
      unfold flip, V8.continues. by apply comparefn_skew.
Qed.

Lemma countAndMakeRun_Sorted (l : list A) :
  Sorted continues (V8.countAndMakeRun comparefn l).1.
Proof.
  destruct l as [| first [| second rest]]; [cbn; repeat constructor.. |].
  cbn [V8.countAndMakeRun].
  destruct (Z.ltb_spec (comparefn second first) 0) as [Hlt | Hge]; cbn [fst].
  - apply (Sorted_reverse (flip continues)).
    constructor; [apply runLength_descending |].
    constructor. unfold flip, V8.continues. by apply comparefn_skew.
  - constructor; [apply runLength_ascending |]. constructor. exact Hge.
Qed.

Lemma Sorted_middle (R : A -> A -> Prop) (before after : list A) (x : A) :
  Sorted R before -> Sorted R after ->
  (forall e, last before = Some e -> R e x) ->
  (forall e, head after = Some e -> R x e) ->
  Sorted R (before ++ x :: after).
Proof.
  intros Hbefore Hafter Hlast Hhead.
  induction before as [| a before IH]; cbn.
  - constructor; [exact Hafter |]. destruct after; constructor. by apply Hhead.
  - apply Sorted_inv in Hbefore as [Hbefore Hhd].
    constructor.
    + apply IH; [exact Hbefore |]. intros e He. apply Hlast.
      destruct before; [done | by rewrite last_cons_cons].
    + destruct before as [| b before]; cbn.
      * constructor. by apply Hlast.
      * constructor. by apply HdRel_inv in Hhd.
Qed.

Lemma Sorted_take (R : A -> A -> Prop) (n : nat) (l : list A) :
  Sorted R l -> Sorted R (take n l).
Proof.
  revert n. induction l as [| x l IH]; intros [| n] Hs; cbn; try constructor.
  - apply IH. by apply Sorted_inv in Hs as [Hs _].
  - apply Sorted_inv in Hs as [_ Hhd]. destruct l, n; cbn; constructor.
    by apply HdRel_inv in Hhd.
Qed.

Lemma Sorted_drop (R : A -> A -> Prop) (n : nat) (l : list A) :
  Sorted R l -> Sorted R (drop n l).
Proof.
  revert l. induction n as [| n IH]; intros [| x l] Hs; cbn; try done.
  apply IH. by apply Sorted_inv in Hs as [Hs _].
Qed.

(** Where the search ends: the element before the place does not come
    strictly after the pivot, and the element at the place does. *)
Lemma insertionPoint_spec (steps : nat) (sorted : list A) (pivot : A) (left right : nat) :
  (left <= right <= length sorted)%nat -> (right - left <= steps)%nat ->
  (forall e, (0 < left)%nat -> sorted !! pred left = Some e -> 0 <= comparefn pivot e) ->
  (forall e, sorted !! right = Some e -> comparefn pivot e < 0) ->
  let place := V8.insertionPoint comparefn steps sorted pivot left right in
  (place <= length sorted)%nat
  /\ (forall e, (0 < place)%nat -> sorted !! pred place = Some e -> 0 <= comparefn pivot e)
  /\ (forall e, sorted !! place = Some e -> comparefn pivot e < 0).
Proof.
  revert left right. induction steps as [| steps IH]; intros left right Hrange Hsteps Hl Hr.
  - cbn. assert (left = right) as -> by lia. split; [lia | by split].
  - cbn [V8.insertionPoint]. destruct (Nat.ltb_spec left right) as [Hlt | Hge].
    + set (mid := (left + (right - left) / 2)%nat).
      assert (Hmid : (left <= mid < right)%nat).
      { unfold mid. pose proof (Nat.div_lt (right - left) 2). 
        pose proof (Nat.Div0.div_le_upper_bound (right - left) 2 (right - left)). lia. }
      destruct (sorted !! mid) as [element |] eqn:Helement.
      * destruct (Z.ltb_spec (comparefn pivot element) 0) as [Hbefore | Hafter].
        -- apply IH; [lia | lia | exact Hl |].
           intros e He. congruence.
        -- apply IH; [lia | lia | | exact Hr].
           intros e _ He. replace (pred (mid + 1)) with mid in He by lia. congruence.
      * apply lookup_ge_None in Helement. lia.
    + assert (left = right) as -> by lia. split; [lia | by split].
Qed.

Lemma insertPivot_Sorted (sorted : list A) (pivot : A) :
  Sorted continues sorted -> Sorted continues (V8.insertPivot comparefn sorted pivot).
Proof.
  intros Hs. unfold V8.insertPivot.
  destruct (insertionPoint_spec (length sorted) sorted pivot 0 (length sorted))
    as (Hplace & Hbefore & Hafter); [lia | lia | lia | |].
  { intros e He. apply lookup_lt_Some in He. lia. }
  set (place := V8.insertionPoint comparefn _ _ _ _ _) in *.
  apply Sorted_middle; [by apply Sorted_take | by apply Sorted_drop | |].
  - intros e He. rewrite last_lookup, length_take_le in He by lia.
    destruct place as [| place]; [done |].
    cbn [pred] in He. rewrite lookup_take_lt in He by lia.
    apply (Hbefore e); [lia | exact He].
  - intros e He. rewrite head_lookup, lookup_drop, Nat.add_0_r in He.
    apply comparefn_skew. by apply Hafter.
Qed.

Lemma binaryInsertionSort_Sorted (run rest : list A) :
  Sorted continues run -> Sorted continues (V8.binaryInsertionSort comparefn run rest).
Proof.
  unfold V8.binaryInsertionSort. revert run.
  induction rest as [| pivot rest IH]; intros run Hs; cbn; [exact Hs |].
  by apply IH, insertPivot_Sorted.
Qed.

Lemma sortShort_Sorted (l : list A) : Sorted continues (V8.sortShort comparefn l).
Proof.
  unfold V8.sortShort. pose proof (countAndMakeRun_Sorted l) as Hrun.
  destruct (V8.countAndMakeRun comparefn l) as [run rest].
  by apply binaryInsertionSort_Sorted.
Qed.

Lemma sortShort_idempotent (l : list A) :
  V8.sortShort comparefn (V8.sortShort comparefn l) = V8.sortShort comparefn l.
Proof. apply sortShort_fixed, sortShort_Sorted. Qed.

End EngineSortFacts.

Lemma compareByDistance_skew (a b : EnhancedFacility) :
  (compareByDistance a b < 0 -> 0 <= compareByDistance b a)%Z.
Proof.
  unfold compareByDistance, compareJsonDistance.
  destruct (enhancedDistance a), (enhancedDistance b); lia.
Qed.

Lemma compareByRelevance_skew (a b : EnhancedFacility) :
  (compareByRelevance a b < 0 -> 0 <= compareByRelevance b a)%Z.
Proof.
  unfold compareByRelevance.
  destruct (Z.eqb_spec (relevanceScore (medical_relevance (insights a)))
              (relevanceScore (medical_relevance (insights b)))) as [Heq | Hdiff]; cbn.
  - rewrite Heq, Z.eqb_refl. cbn. unfold compareJsonDistance.
    destruct (enhancedDistance a), (enhancedDistance b); lia.
  - destruct (Z.eqb_spec (relevanceScore (medical_relevance (insights b)))
                (relevanceScore (medical_relevance (insights a)))); cbn; lia.
Qed.

Lemma compareDistance_skew (a b : option Distance) :
  (compareDistance a b < 0 -> 0 <= compareDistance b a)%Z.
Proof.
  unfold compareDistance. destruct a as [da |], b as [db |]; try lia.
  rewrite (difference_antisym (miles da) (miles db)). lia.
Qed.

Lemma compareFacilities_skew (needTypes : list string) (a b : Facility) :
  (compareFacilities needTypes a b < 0 -> 0 <= compareFacilities needTypes b a)%Z.
Proof.
  unfold compareFacilities.
  destruct (JS.arrayIncludes needTypes "emergency"); [| apply compareDistance_skew].
  destruct (Z.eqb_spec (emergencyScore (lowerName (place a)))
              (emergencyScore (lowerName (place b)))) as [Heq | Hdiff]; cbn.
  - rewrite Heq, Z.eqb_refl. cbn. apply compareDistance_skew.
  - destruct (Z.eqb_spec (emergencyScore (lowerName (place b)))
                (emergencyScore (lowerName (place a)))); cbn; [congruence | lia].
Qed.

(** X26. On fewer than 64 facilities, whether or not some of them lack a
    distance, the procedure of the engine returns the facilities it was
    given, each as often, in an order in which no facility is put strictly
    before the one in front of it by the comparator, and applied again to
    its result it changes nothing; for the sort by distance and for the sort
    by relevance. *)
Theorem engine_sort_short_is_idempotent (facilities : list EnhancedFacility) :
  (length facilities < 64)%nat ->
  let sortedBy comparefn :=
    V8.sortShort comparefn facilities ≡ₚ facilities
    /\ Sorted (fun a b => 0 <= comparefn b a)%Z (V8.sortShort comparefn facilities)
    /\ V8.sortShort comparefn (V8.sortShort comparefn facilities)
       = V8.sortShort comparefn facilities in
  sortedBy compareByDistance /\ sortedBy compareByRelevance.
Proof.
  intros _. cbv zeta. split.
  - split; [apply sortShort_Permutation |].
    split; [apply sortShort_Sorted | apply sortShort_idempotent];
      apply compareByDistance_skew.
  - split; [apply sortShort_Permutation |].
    split; [apply sortShort_Sorted | apply sortShort_idempotent];
      apply compareByRelevance_skew.
Qed.

Lemma engine_sort_short_is_idempotent_witness :
  let facilities :=
    [listed cityHospital (Some 20%Z); listed civilServiceHospital (Some 10%Z);
     listed strokeRehab None; listed nepalEyeHospital (Some 10%Z)] in
  name <$> V8.sortShort compareByDistance facilities
  = ["Civil Service Hospital"; "Nepal Eye Hospital"; "City Hospital";
     "Valley Stroke Rehabilitation"]
  /\ V8.sortShort compareByDistance (V8.sortShort compareByDistance facilities)
     = V8.sortShort compareByDistance facilities.
Proof.
  cbv zeta. split; [reflexivity |].
  refine (proj2 (proj2 (proj1 (engine_sort_short_is_idempotent _ _)))).
  cbn. lia.
Defined.

(** On these four facilities, one of them without a distance, the stable
    sort of [JS.sort] gives another order than the engine: the comparator is
    not consistent on them. *)
Example engine_order_differs :
  let facilities :=
    [listed cityHospital (Some 20%Z); listed civilServiceHospital (Some 10%Z);
     listed strokeRehab None; listed nepalEyeHospital (Some 10%Z)] in
  name <$> JS.sort compareByDistance facilities
  = ["Civil Service Hospital"; "City Hospital"; "Valley Stroke Rehabilitation";
     "Nepal Eye Hospital"]
  /\ name <$> V8.sortShort compareByDistance facilities
     = ["Civil Service Hospital"; "Nepal Eye Hospital"; "City Hospital";
        "Valley Stroke Rehabilitation"].
Proof. cbv zeta. split; reflexivity. Qed.

(** X27. On fewer than 64 candidates, whether or not some of them lack a
    distance, the procedure of the engine with the comparator of the ranking
    returns the candidates it was given, each as often, in descending order
    of score; two neighbours of equal score that both have a known distance
    are in ascending order of distance; and the radius cut that follows
    keeps the order. *)
Theorem engine_ranking_short (needTypes : list string) (facilities : list Facility) :
  (length facilities < 64)%nat ->
  let sorted := V8.sortShort (compareFacilities needTypes) facilities in
  let score := priorityScore needTypes in
  sorted ≡ₚ facilities
  /\ StronglySorted (fun a b => score b <= score a)%Z sorted
  /\ Sorted (fun a b =>
               forall x y,
                 score a = score b -> knownMiles a = Some x -> knownMiles b = Some y ->
                 (x <= y)%Z) sorted
  /\ StronglySorted (fun a b => score b <= score a)%Z
       (List.filter (withinMaxDistance (maxDistance needTypes)) sorted).
Proof.
  intros _. cbv zeta.
  pose proof (sortShort_Sorted (compareFacilities needTypes)
                (compareFacilities_skew needTypes) facilities) as Hsorted.
  assert (Hscores : StronglySorted
                      (fun a b => priorityScore needTypes b <= priorityScore needTypes a)%Z
                      (V8.sortShort (compareFacilities needTypes) facilities)).
  { apply Sorted_StronglySorted; [intros a b c Hab Hbc; lia |].
    eapply Sorted_weaken; [| exact Hsorted].
    intros a b Hab. unfold V8.continues in Hab.
    destruct (Z.eq_dec (priorityScore needTypes b) (priorityScore needTypes a))
      as [Heq | Hne]; [lia |].
    rewrite (compareFacilities_by_score needTypes b a Hne) in Hab. lia. }
  split; [apply sortShort_Permutation |]. split; [exact Hscores |].
  split; [| by apply StronglySorted_filter_bool].
  eapply Sorted_weaken; [| exact Hsorted].
  intros a b Hab x y Heq Hx Hy. unfold V8.continues in Hab.
  rewrite compareFacilities_by_distance, (compareDistance_known b a y x Hy Hx) in Hab
    by congruence.
  lia.
Qed.

Lemma engine_ranking_short_witness :
  let facilities :=
    [withDistance urgentCare 5; withoutDistance cityHospitalNoCoords;
     withDistance civilServiceHospital 12; withDistance cityHospital 3] in
  (lowerName ∘ place) <$> V8.sortShort (compareFacilities ["emergency"]) facilities
  = ["city hospital"; "city hospital"; "civil service hospital"; "quickcare urgent care"]
  /\ StronglySorted
       (fun a b => priorityScore ["emergency"] b <= priorityScore ["emergency"] a)%Z
       (V8.sortShort (compareFacilities ["emergency"]) facilities).
Proof.
  cbv zeta. split; [reflexivity |].
  refine (proj1 (proj2 (engine_ranking_short ["emergency"] _ _))).
  cbn. lia.
Defined.
